(** * torchoptics: detectors, element validation, field observables and profiles

    A shallow embedding of the element layer ([elements/elements.py],
    [elements/detectors.py]) and of two profile generators
    ([profiles/spatial_coherence.py], [profiles/special.py]), together with
    the parts of the field data model they call into.

    Conventions.
    - A [torch.double] is read as a real number ([R]); a [torch.cdouble] as a
      pair of reals ([Cx.C]).  Where the source can produce IEEE special
      values (division by zero), the value type [XR.t] carries them.
    - Where the rounding of doubles decides what a profile generator
      returns (a quotient that underflows to zero, a square that
      overflows), the generator is written over the operations on doubles
      ([Doubles]) and read both over the reals with an arbitrary rounding
      and over the binary64 floats of the kernel ([F64]).
    - A tensor is its shape together with its row-major contents
      ([Tensor]), which is how a contiguous torch tensor is stored.
    - A Python exception is a value of [PyErr]; a call that may raise
      returns a [result]. *)

From Stdlib Require Import String DecimalString.
From Stdlib Require Import Reals Lra Lia List Bool Arith PeanoNat.
From Stdlib Require Floats.PrimFloat.
Import ListNotations.

Local Open Scope R_scope.

(* ********************************************************************* *)
(** * The embedding *)
(* ********************************************************************* *)

(* ===================================================================== *)
(** ** Complex doubles *)
(* ===================================================================== *)

Module Cx.

Definition C : Type := (R * R)%type.

Definition re (z : C) : R := fst z.
Definition im (z : C) : R := snd z.

Definition zero : C := (0, 0).
Definition one : C := (1, 0).
Definition of_real (x : R) : C := (x, 0).

Definition add (a b : C) : C := (re a + re b, im a + im b).
Definition opp (a : C) : C := (- re a, - im a).
Definition sub (a b : C) : C := (re a - re b, im a - im b).
Definition mul (a b : C) : C :=
  (re a * re b - im a * im b, re a * im b + im a * re b).
Definition conj (a : C) : C := (re a, - im a).
Definition scale (k : R) (a : C) : C := (k * re a, k * im a).

(** The squared magnitude, and [z.abs()]. *)
Definition norm2 (a : C) : R := re a * re a + im a * im a.
Definition abs (a : C) : R := sqrt (norm2 a).

End Cx.

(* ===================================================================== *)
(** ** Exceptions *)
(* ===================================================================== *)

Inductive PyErr : Type :=
| TypeError (msg : string)
| ValueError (msg : string)
| IndexError (msg : string)
| RuntimeError (msg : string)
| AttributeError (msg : string)
| ZeroDivisionError (msg : string)
| OverflowError (msg : string).

Inductive result (A : Type) : Type :=
| Ok (a : A)
| Raise (e : PyErr).

Arguments Ok {A} a.
Arguments Raise {A} e.

Definition bind {A B} (m : result A) (k : A -> result B) : result B :=
  match m with
  | Ok a => k a
  | Raise e => Raise e
  end.

Notation "x <- m ;; k" := (bind m (fun x => k))
  (at level 61, m at next level, right associativity).
Notation "m ;;; k" := (bind m (fun _ => k))
  (at level 61, right associativity).

Definition is_TypeError {A} (r : result A) : bool :=
  match r with Raise (TypeError _) => true | _ => false end.
Definition is_ValueError {A} (r : result A) : bool :=
  match r with Raise (ValueError _) => true | _ => false end.
Definition is_Ok {A} (r : result A) : bool :=
  match r with Ok _ => true | _ => false end.

(* ===================================================================== *)
(** ** Real comparisons as booleans *)
(* ===================================================================== *)

Definition Reqb (x y : R) : bool := if Req_EM_T x y then true else false.
Definition Rleb (x y : R) : bool := if Rle_dec x y then true else false.

(* ===================================================================== *)
(** ** Finite sums over an index range *)
(* ===================================================================== *)

Section BigSum.

Variable A : Type.
Variable zero : A.
Variable add mul : A -> A -> A.

(** [big n f] is [f 0 + (f 1 + (... + (f (n-1) + 0)))]. *)
Definition big (n : nat) (f : nat -> A) : A :=
  fold_right add zero (map f (seq 0 n)).

(** The product-sum of two vectors, as [torch.nn.functional.linear] forms it
    for one row of the input and one row of the weight. *)
Fixpoint dot (x w : list A) : A :=
  match x, w with
  | a :: x', b :: w' => add (mul a b) (dot x' w')
  | _, _ => zero
  end.

(** The first [k] consecutive rows of length [n] of a row-major buffer. *)
Fixpoint chunks (n k : nat) (l : list A) : list (list A) :=
  match k with
  | O => []
  | S k' => firstn n l :: chunks n k' (skipn n l)
  end.

End BigSum.

Arguments big {A} zero add n f.
Arguments dot {A} zero add mul x w.
Arguments chunks {A} n k l.

(* ===================================================================== *)
(** ** Tensors: a shape and row-major contents *)
(* ===================================================================== *)

Module Tensor.

Record t (A : Type) : Type := make { shape : list nat; data : list A }.

Arguments make {A} shape data.
Arguments shape {A} t.
Arguments data {A} t.

Definition numel (s : list nat) : nat := fold_right Nat.mul 1%nat s.

(** [x.dim()]. *)
Definition dim {A} (x : t A) : nat := length (shape x).

(** The contents fill the shape. *)
Definition well_formed {A} (x : t A) : Prop :=
  length (data x) = numel (shape x).

(** Elementwise application, e.g. [x.abs()], [x.square()], [x * scalar]. *)
Definition map {A B} (f : A -> B) (x : t A) : t B :=
  make (shape x) (List.map f (data x)).

(** [s[:-k]] and [s[-k:]] of a shape with at least [k] entries. *)
Definition leading (k : nat) (s : list nat) : list nat :=
  firstn (length s - k) s.
Definition trailing (k : nat) (s : list nat) : list nat :=
  skipn (length s - k) s.

(** [x.flatten(-2)]: the last two dimensions are merged; the contents of a
    contiguous tensor are unchanged. *)
Definition flatten_m2 {A} (x : t A) : result (t A) :=
  match trailing 2 (shape x) with
  | [h; w] => Ok (make (leading 2 (shape x) ++ [(h * w)%nat]) (data x))
  | _ => Raise (IndexError "Dimension out of range")
  end.

(** Entry [i, j] of a 2-D tensor and entry [c, i, j] of a 3-D tensor. *)
Definition get2 {A} (d : A) (x : t A) (i j : nat) : A :=
  match shape x with
  | [_; w] => nth (i * w + j) (data x) d
  | _ => d
  end.

Definition get3 {A} (d : A) (x : t A) (c i j : nat) : A :=
  match shape x with
  | [_; h; w] => nth ((c * h + i) * w + j) (data x) d
  | _ => d
  end.

(** Entry [i, j] of plane [b] of a tensor with at least two dimensions,
    where [b] is the row-major index over the leading axes ([b = 0] for a
    2-D tensor). *)
Definition get_plane {A} (d : A) (x : t A) (b i j : nat) : A :=
  match trailing 2 (shape x) with
  | [h; w] => nth ((b * h + i) * w + j) (data x) d
  | _ => d
  end.

Section Linear.

Variable A : Type.
Variable zero : A.
Variable add mul : A -> A -> A.

(** [torch.nn.functional.linear(input, weight)] without bias: [input] has
    shape [(..., n)], [weight] has shape [(c, n)], the result has shape
    [(..., c)] and holds, for every row of the input, its product-sum with
    every row of the weight. *)
Definition linear (input weight : t A) : result (t A) :=
  match shape weight, trailing 1 (shape input) with
  | [c; n], [n'] =>
      if Nat.eqb n n' then
        let rows := chunks n (numel (leading 1 (shape input))) (data input) in
        let wrows := chunks n c (data weight) in
        Ok (make (leading 1 (shape input) ++ [c])
                 (flat_map (fun row => List.map (dot zero add mul row) wrows)
                           rows))
      else Raise (RuntimeError "mat1 and mat2 shapes cannot be multiplied")
  | _, _ => Raise (RuntimeError "linear: unsupported operand shapes")
  end.

End Linear.

Arguments linear {A} zero add mul input weight.

End Tensor.

(* ===================================================================== *)
(** ** PlanarGeometry *)
(* ===================================================================== *)

Module PlanarGeometry.

(** Modelled from the spec: [planar_geometry.py] is not among the sources.
    "Attributes: shape (two positive integers), z (scalar position along the
    propagation axis), spacing (two positive floats), offset (two floats,
    physical coordinates of the grid center)". *)
Record t : Type := make {
  shape : nat * nat;
  z : R;
  spacing : R * R;
  offset : R * R
}.

(** Modelled from the spec: [planar_geometry.py] is not among the sources.
    "cell area = product of spacing components". *)
Definition cell_area (g : t) : R := fst (spacing g) * snd (spacing g).

(** [torch.allclose] with its default tolerances. *)
Definition rtol : R := 1 / 100000.
Definition atol : R := 1 / 100000000.
Definition allclose (a b : R) : bool :=
  Rleb (Rabs (a - b)) (atol + rtol * Rabs b).

(** Modelled from the spec: [planar_geometry.py] is not among the sources.
    "two geometries are same iff shape, z, spacing, offset all match (within
    floating tolerance for z/spacing/offset)". *)
Definition is_same_geometry (self other : t) : bool :=
  Nat.eqb (fst (shape self)) (fst (shape other))
  && Nat.eqb (snd (shape self)) (snd (shape other))
  && allclose (z self) (z other)
  && allclose (fst (spacing self)) (fst (spacing other))
  && allclose (snd (spacing self)) (snd (spacing other))
  && allclose (fst (offset self)) (fst (offset other))
  && allclose (snd (offset self)) (snd (offset other)).

End PlanarGeometry.

(* ===================================================================== *)
(** ** The Field family *)
(* ===================================================================== *)

Module Field.

(** [Field] and its subclasses [PolarizedField] and [CoherenceField]. *)
Inductive cls : Type := Field | PolarizedField | CoherenceField.

(** Modelled from the spec: [fields.py] is not among the sources.  A field
    "owns: data ...; wavelength (positive scalar); inherits PlanarGeometry
    attributes". *)
Record t : Type := make {
  klass : cls;
  data : Tensor.t Cx.C;
  geometry : PlanarGeometry.t;
  wavelength : R
}.

Definition type_name (k : cls) : string :=
  match k with
  | Field => "Field"
  | PolarizedField => "PolarizedField"
  | CoherenceField => "CoherenceField"
  end.

(** Number of cells of the planar grid. *)
Definition cells (f : t) : nat :=
  (fst (PlanarGeometry.shape (geometry f))
   * snd (PlanarGeometry.shape (geometry f)))%nat.

(** The invariant of a scalar [Field] without batch axes: the data is a
    well-formed 2-D tensor whose shape is the geometry's. *)
Definition is_scalar2d (f : t) : Prop :=
  klass f = Field
  /\ Tensor.shape (data f)
     = [fst (PlanarGeometry.shape (geometry f));
        snd (PlanarGeometry.shape (geometry f))]
  /\ Tensor.well_formed (data f).

(** A scalar [Field] whose data has the leading axes [batch] in front of
    the two planar dimensions. *)
Definition is_scalar (batch : list nat) (f : t) : Prop :=
  klass f = Field
  /\ Tensor.shape (data f)
     = batch ++ [fst (PlanarGeometry.shape (geometry f));
                 snd (PlanarGeometry.shape (geometry f))]
  /\ Tensor.well_formed (data f).

(** Modelled from the spec: [fields.py] is not among the sources.
    "intensity = |data|^2" for a Field; for a PolarizedField the
    "contributions across the 3 polarization components" are summed; for a
    CoherenceField it is the "diagonal restriction (x1=x2,y1=y2)". *)
Definition intensity (f : t) : Tensor.t R :=
  let s := Tensor.shape (data f) in
  let n := Tensor.numel (Tensor.trailing 2 s) in
  match klass f with
  | Field => Tensor.map Cx.norm2 (data f)
  | PolarizedField =>
      Tensor.make
        (Tensor.leading 3 s ++ Tensor.trailing 2 s)
        (flat_map
           (fun chunk =>
              List.map
                (fun k => big 0 Rplus 3
                            (fun p => Cx.norm2 (nth (p * n + k) chunk Cx.zero)))
                (seq 0 n))
           (chunks (3 * n) (Tensor.numel (Tensor.leading 3 s))
                   (Tensor.data (data f))))
  | CoherenceField =>
      Tensor.make
        (Tensor.leading 4 s ++ Tensor.trailing 2 s)
        (flat_map
           (fun chunk =>
              List.map (fun k => Cx.re (nth (k * n + k) chunk Cx.zero))
                       (seq 0 n))
           (chunks (n * n) (Tensor.numel (Tensor.leading 4 s))
                   (Tensor.data (data f))))
  end.

(** Modelled from the spec: [fields.py] is not among the sources.
    "power = sum(intensity) x cell_area", a "scalar total power". *)
Definition power (f : t) : R :=
  fold_right Rplus 0 (Tensor.data (intensity f))
  * PlanarGeometry.cell_area (geometry f).

(** Replace the data, keeping class, geometry and wavelength
    ([Field.copy(data=...)]). *)
Definition with_data (f : t) (d : list Cx.C) : t :=
  make (klass f) (Tensor.make (Tensor.shape (data f)) d)
       (geometry f) (wavelength f).

(** Entry [q] of a buffer multiplied by [factor q]. *)
Definition mul_entries (factor : nat -> Cx.C) (l : list Cx.C) : list Cx.C :=
  List.map (fun qv => Cx.mul (snd qv) (factor (fst qv)))
           (combine (seq 0 (length l)) l).

(** Modelled from the spec: [fields.py] is not among the sources.
    "elementwise multiplication of data by a supplied complex profile of
    matching planar shape; returns a new Field of the same subtype and
    geometry, wavelength preserved"; for a CoherenceField modulation "acts on
    both coordinate pairs", the profile on the first and its conjugate on
    the second.  The profile is broadcast over leading axes. *)
Definition modulate (f : t) (profile : Tensor.t Cx.C) : result t :=
  let s := Tensor.shape (data f) in
  let n := Tensor.numel (Tensor.shape profile) in
  if list_eq_dec Nat.eq_dec (Tensor.trailing 2 s) (Tensor.shape profile) then
    let at_ k := nth k (Tensor.data profile) Cx.zero in
    let factor q :=
      match klass f with
      | CoherenceField =>
          Cx.mul (at_ ((q / n) mod n)%nat) (Cx.conj (at_ (q mod n)%nat))
      | _ => at_ (q mod n)%nat
      end in
    Ok (with_data f (mul_entries factor (Tensor.data (data f))))
  else
    Raise (RuntimeError "The size of the profile must match the field").

End Field.

(* ===================================================================== *)
(** ** Python values reaching the constructors and [forward] methods *)
(* ===================================================================== *)

(** A torch tensor of dtype double or cdouble. *)
Inductive TorchTensor : Type :=
| RealTensor (x : Tensor.t R)
| ComplexTensor (x : Tensor.t Cx.C).

Definition tt_shape (x : TorchTensor) : list nat :=
  match x with
  | RealTensor x => Tensor.shape x
  | ComplexTensor x => Tensor.shape x
  end.

Definition tt_dim (x : TorchTensor) : nat := length (tt_shape x).

(** [x.to(torch.cdouble)]: "real inputs are upcast". *)
Definition cdouble (x : TorchTensor) : Tensor.t Cx.C :=
  match x with
  | RealTensor x => Tensor.map Cx.of_real x
  | ComplexTensor x => x
  end.

(** [x.to(torch.double)]: torch keeps the real part. *)
Definition double (x : TorchTensor) : Tensor.t R :=
  match x with
  | RealTensor x => x
  | ComplexTensor x => Tensor.map Cx.re x
  end.

Inductive pyobj : Type :=
| PyTensor (x : TorchTensor)
| PyParam (x : TorchTensor)
| PyField (f : Field.t)
| PyStr (s : string)
| PyNone.

(** [type(x).__name__]. *)
Definition type_name (x : pyobj) : string :=
  match x with
  | PyTensor _ => "Tensor"
  | PyParam _ => "Param"
  | PyField f => Field.type_name (Field.klass f)
  | PyStr _ => "str"
  | PyNone => "NoneType"
  end.

(** [isinstance(x, Field)]: true for [Field] and for its subclasses. *)
Definition isinstance_Field (x : pyobj) : bool :=
  match x with PyField _ => true | _ => false end.

Definition nl : string := String (Ascii.ascii_of_nat 10) EmptyString.

Definition nat_to_string (n : nat) : string :=
  DecimalString.NilEmpty.string_of_uint (Nat.to_uint n).

(** Modelled from the spec: [planar_geometry.py] is not among the sources.
    "shape dimensions are positive integers; spacing components are strictly
    positive"; "constructing with non-positive spacing ... fails with a
    validation error". *)
Definition PlanarGeometry_init
    (shape : nat * nat) (z : R) (spacing offset : R * R)
  : result PlanarGeometry.t :=
  if (Nat.ltb 0 (fst shape) && Nat.ltb 0 (snd shape))%bool then
    if (negb (Rleb (fst spacing) 0) && negb (Rleb (snd spacing) 0))%bool then
      Ok (PlanarGeometry.make shape z spacing offset)
    else Raise (ValueError "Expected spacing to be positive")
  else Raise (ValueError "Expected shape to be positive").

(* ===================================================================== *)
(** ** [elements/elements.py] *)
(* ===================================================================== *)

Module Elements.

Section Elements.

(** [PlanarGeometry.geometry_str], used only in diagnostics. *)
Variable geometry_str : PlanarGeometry.t -> string.

(** [PolarizedField.polarized_modulate], the Jones-matrix product. *)
Variable polarized_modulate : Field.t -> Tensor.t Cx.C -> result Field.t.

(** [Element.validate_field_geometry].  The constructors of [pyobj] other
    than [PyField] are the arguments for which [isinstance(field, Field)]
    is false. *)
Definition validate_field_geometry
    (self : PlanarGeometry.t) (field : pyobj) : result unit :=
  match field with
  | PyField f =>
      if negb (PlanarGeometry.is_same_geometry self (Field.geometry f)) then
        Raise (ValueError
                 ("Expected field to have same geometry as element:"
                  ++ nl ++ "Field geometry:   "
                  ++ geometry_str (Field.geometry f)
                  ++ nl ++ "Element geometry: " ++ geometry_str self))
      else Ok tt
  | _ =>
      Raise (TypeError
               ("Expected field to be a Field, but got "
                ++ type_name field ++ "."))
  end%string.

(** After validation the argument is a Field; an attribute access on any
    other object would raise. *)
Definition as_field (x : pyobj) : result Field.t :=
  match x with
  | PyField f => Ok f
  | _ => Raise (AttributeError (type_name x))
  end.

Record ModulationElement : Type := {
  me_geometry : PlanarGeometry.t;
  modulation_profile : Tensor.t Cx.C
}.

Definition ModulationElement_forward
    (self : ModulationElement) (field : pyobj) : result Field.t :=
  validate_field_geometry (me_geometry self) field ;;;
  f <- as_field field ;;
  Field.modulate f (modulation_profile self).

Record PolarizedModulationElement : Type := {
  pme_geometry : PlanarGeometry.t;
  polarized_modulation_profile : Tensor.t Cx.C
}.

Definition PolarizedModulationElement_forward
    (self : PolarizedModulationElement) (field : pyobj) : result Field.t :=
  validate_field_geometry (pme_geometry self) field ;;;
  f <- as_field field ;;
  polarized_modulate f (polarized_modulation_profile self).

(* ------------------------------------------------------------------- *)
(** *** [elements/detectors.py] *)
(* ------------------------------------------------------------------- *)

Record Detector : Type := { det_geometry : PlanarGeometry.t }.

Definition Detector_forward (self : Detector) (field : pyobj)
  : result (Tensor.t R) :=
  validate_field_geometry (det_geometry self) field ;;;
  f <- as_field field ;;
  Ok (Tensor.map (fun v => v * PlanarGeometry.cell_area (det_geometry self))
                 (Field.intensity f)).

Definition _validate_weight (tensor : pyobj) : result TorchTensor :=
  match tensor with
  | PyTensor x | PyParam x =>
      if negb (Nat.eqb (tt_dim x) 3) then
        Raise (ValueError
                 ("Expected weight to be a 3D tensor, but got "
                  ++ nat_to_string (tt_dim x) ++ "D"))
      else Ok x
  | _ =>
      Raise (TypeError
               ("Expected weight to be a tensor, but got " ++ type_name tensor))
  end%string.

(** [weight.shape[1:]] of a 3-D weight. *)
Definition planar_shape_of_weight (x : TorchTensor) : nat * nat :=
  match tl (tt_shape x) with
  | [h; w] => (h, w)
  | _ => (O, O)
  end.

Record IntensityDetector : Type := {
  id_geometry : PlanarGeometry.t;
  id_weight : Tensor.t R
}.

(** [IntensityDetector.__init__] with [_weight_is_complex = False]. *)
Definition IntensityDetector_init
    (weight : pyobj) (z : R) (spacing offset : R * R)
  : result IntensityDetector :=
  x <- _validate_weight weight ;;
  g <- PlanarGeometry_init (planar_shape_of_weight x) z spacing offset ;;
  Ok {| id_geometry := g; id_weight := double x |}.

Definition IntensityDetector_forward
    (self : IntensityDetector) (field : pyobj) : result (Tensor.t R) :=
  validate_field_geometry (id_geometry self) field ;;;
  f <- as_field field ;;
  intensity_flat <- Tensor.flatten_m2 (Field.intensity f) ;;
  weight_flat <- Tensor.flatten_m2 (id_weight self) ;;
  out <- Tensor.linear 0 Rplus Rmult intensity_flat weight_flat ;;
  Ok (Tensor.map (fun v => v * PlanarGeometry.cell_area (id_geometry self))
                 out).

Record FieldDetector : Type := {
  fd_geometry : PlanarGeometry.t;
  fd_weight : Tensor.t Cx.C
}.

(** The inherited [__init__] with [_weight_is_complex = True]. *)
Definition FieldDetector_init
    (weight : pyobj) (z : R) (spacing offset : R * R)
  : result FieldDetector :=
  x <- _validate_weight weight ;;
  g <- PlanarGeometry_init (planar_shape_of_weight x) z spacing offset ;;
  Ok {| fd_geometry := g; fd_weight := cdouble x |}.

Definition FieldDetector_forward
    (self : FieldDetector) (field : pyobj) : result (Tensor.t R) :=
  validate_field_geometry (fd_geometry self) field ;;;
  f <- as_field field ;;
  data_flat <- Tensor.flatten_m2 (Field.data f) ;;
  weight_flat <- Tensor.flatten_m2 (fd_weight self) ;;
  inner_prod <- Tensor.linear Cx.zero Cx.add Cx.mul data_flat weight_flat ;;
  let inner_prod :=
    Tensor.map (Cx.scale (PlanarGeometry.cell_area (fd_geometry self)))
               inner_prod in
  Ok (Tensor.map Rsqr (Tensor.map Cx.abs inner_prod)).

End Elements.

Section Visualize.

(** What [_visualize] returns, and the keyword arguments handed on to
    it. *)
Variable Figure Kwargs : Type.

(** [PlanarGeometry._visualize] of [planar_geometry.py], which is not among
    the sources. *)
Variable _visualize :
  PlanarGeometry.t -> Tensor.t R -> list Z -> Kwargs -> result Figure.

(** [weight.sum(dim=0)]. *)
Definition sum_dim0 (w : Tensor.t R) : Tensor.t R :=
  match Tensor.shape w with
  | C :: rest =>
      let n := Tensor.numel rest in
      Tensor.make rest
        (List.map
           (fun q => big 0 Rplus C
                       (fun c => nth (c * n + q) (Tensor.data w) 0))
           (seq 0 n))
  | [] => w
  end.

Definition IntensityDetector_visualize
    (self : IntensityDetector) (index : list Z) (sum_weight : bool)
    (kwargs : Kwargs) : result Figure :=
  let data :=
    if sum_weight then sum_dim0 (id_weight self) else id_weight self in
  _visualize (id_geometry self) data index kwargs.

End Visualize.

End Elements.

(* ===================================================================== *)
(** ** Constructing a Field *)
(* ===================================================================== *)

(** [torch.ones(shape)] and [torch.ones(shape, dtype=torch.cdouble)]. *)
Definition ones (s : list nat) : TorchTensor :=
  RealTensor (Tensor.make s (repeat 1 (Tensor.numel s))).
Definition ones_cdouble (s : list nat) : TorchTensor :=
  ComplexTensor (Tensor.make s (repeat Cx.one (Tensor.numel s))).

(** [data.shape[-2:]] as the pair that becomes the geometry's shape. *)
Definition planar_shape (s : list nat) : nat * nat :=
  match Tensor.trailing 2 s with
  | [h; w] => (h, w)
  | _ => (O, O)
  end.

(** Modelled from the spec: [fields.py] is not among the sources.  This is
    the data check as the specification words it: Field data is "exactly
    2-dimensional (no leading batch/polarization axis)", a non-tensor is a
    type error, a wrong rank a value error. *)
Definition Field_validate_data_exactly_2d (data : pyobj)
  : result TorchTensor :=
  match data with
  | PyTensor x =>
      if Nat.eqb (tt_dim x) 2 then Ok x
      else Raise (ValueError
                    ("Expected data to be 2D, but got "
                     ++ nat_to_string (tt_dim x) ++ "D"))
  | _ =>
      Raise (TypeError
               ("Expected data to be a tensor, but got " ++ type_name data))
  end%string.

(** Modelled from the spec: [fields.py] is not among the sources.  The data
    check that the repository's tests require: they build Fields from
    3-D data ([test_elements.py], [torch.ones(3, shape, shape)] and
    [torch.ones(3, 10, 12)]) and expect 1-D data and a string to be
    rejected ([test_fields.py]); so the rank is bounded from below only. *)
Definition Field_validate_data (data : pyobj) : result TorchTensor :=
  match data with
  | PyTensor x =>
      if Nat.ltb (tt_dim x) 2 then
        Raise (ValueError
                 ("Expected data to be at least 2D, but got "
                  ++ nat_to_string (tt_dim x) ++ "D"))
      else Ok x
  | _ =>
      Raise (TypeError
               ("Expected data to be a tensor, but got " ++ type_name data))
  end%string.

(** What the tests under [src/tests] ask of the data check:
    [test_fields.py] TestField.test_initialization (a (10, 11) cdouble
    tensor is accepted, a string raises TypeError, [torch.ones(10)] raises
    ValueError), [test_elements.py] TestBeamSplitters.test_beam_splitter
    and TestModulatorClasses.setUp (3-D data is accepted). *)
Definition tests_of_Field_data (validate : pyobj -> result TorchTensor)
  : bool :=
  is_Ok (validate (PyTensor (ones_cdouble [10; 11]%nat)))
  && is_TypeError (validate (PyStr "Wrong type"))
  && is_ValueError (validate (PyTensor (ones [10%nat])))
  && is_Ok (validate (PyTensor (ones [3; 64; 64]%nat)))
  && is_Ok (validate (PyTensor (ones [3; 10; 12]%nat))).

(** Modelled from the spec: [fields.py] is not among the sources.
    Construction "accepts raw tensor data (real or complex; real is upcast
    to complex double), wavelength (positive scalar), z, spacing, offset";
    the geometry's shape is the data's last two dimensions. *)
Definition Field_init
    (data : pyobj) (wavelength z : R) (spacing offset : R * R)
  : result Field.t :=
  x <- Field_validate_data data ;;
  g <- PlanarGeometry_init (planar_shape (tt_shape x)) z spacing offset ;;
  if Rleb wavelength 0 then
    Raise (ValueError "Expected wavelength to be positive")
  else Ok (Field.make Field.Field (cdouble x) g wavelength).

(* ===================================================================== *)
(** ** Normalization, outer products, propagation *)
(* ===================================================================== *)

(** Modelled from the spec: [fields.py] is not among the sources.
    "normalize(target_power): returns a new Field scaled so
    power() == target_power; fails if current power is zero (division by
    zero) - this must be validated and reported, not silently produce NaN";
    normalization of a zero-power field is listed among the value errors.
    The data of a Field or PolarizedField enters the power quadratically
    and is scaled by the square root of the ratio; the data of a
    CoherenceField enters linearly and is scaled by the ratio. *)
Definition normalize (f : Field.t) (target_power : R) : result Field.t :=
  if Reqb (Field.power f) 0 then
    Raise (ValueError "Cannot normalize a field with zero power")
  else
    let ratio := target_power / Field.power f in
    let k := match Field.klass f with
             | Field.CoherenceField => ratio
             | _ => sqrt ratio
             end in
    Ok (Field.with_data f
          (List.map (Cx.scale k) (Tensor.data (Field.data f)))).

(** Modelled from the spec: [functional.py] is not among the sources.
    "outer product = outer tensor product over both fields' grids"; the
    coherence of a field psi is the outer product of psi with its conjugate:
    [outer2d(a, b)[i,j,k,l] = a[i,j] * conj(b[k,l])]. *)
Definition outer2d (a b : Tensor.t Cx.C) : Tensor.t Cx.C :=
  Tensor.make (Tensor.shape a ++ Tensor.shape b)
    (flat_map (fun x => List.map (fun y => Cx.mul x (Cx.conj y))
                                 (Tensor.data b))
              (Tensor.data a)).

Section Propagation.

(** Process-wide default spacing, used when a destination spacing is
    omitted. *)
Variable default_spacing : R * R.

(** The one-field propagator of the selected diffraction method from a
    source plane to a destination plane: entry [K u x] is the contribution
    of source cell [x] to destination cell [u] (cells in row-major order).
    It fails when the destination lies outside the valid region. *)
Variable propagator :
  PlanarGeometry.t -> R -> PlanarGeometry.t -> result (nat -> nat -> Cx.C).

(** The propagator applied to one plane of [n] source cells, giving [m]
    destination cells. *)
Definition apply_propagator (K : nat -> nat -> Cx.C) (n m : nat)
    (plane : list Cx.C) : list Cx.C :=
  List.map (fun u => big Cx.zero Cx.add n
                       (fun x => Cx.mul (K u x) (nth x plane Cx.zero)))
           (seq 0 m).

(** The propagator applied to the first coordinate pair of an [n] x [n]
    coherence, and its conjugate applied to the second coordinate pair. *)
Definition apply_propagator_first (K : nat -> nat -> Cx.C) (n m : nat)
    (gamma : list Cx.C) : list Cx.C :=
  flat_map (fun u1 =>
    List.map (fun x2 => big Cx.zero Cx.add n
                (fun x1 => Cx.mul (K u1 x1) (nth (x1 * n + x2) gamma Cx.zero)))
             (seq 0 n))
    (seq 0 m).

Definition apply_propagator_second (K : nat -> nat -> Cx.C) (n m : nat)
    (half : list Cx.C) : list Cx.C :=
  flat_map (fun u1 =>
    List.map (fun u2 => big Cx.zero Cx.add n
                (fun x2 => Cx.mul (Cx.conj (K u2 x2))
                                  (nth (u1 * n + x2) half Cx.zero)))
             (seq 0 m))
    (seq 0 m).

(** Modelled from the spec: [fields.py] and [propagation.py] are not among
    the sources.  "given a source Field at geometry G_src and requested
    destination geometry G_dst, produce the field sampled on G_dst";
    for a PolarizedField "propagation is applied independently per
    polarization-component plane"; for a CoherenceField "applying the
    scalar one-field propagator to the first coordinate pair and its
    phase-conjugate to the second coordinate pair". *)
Definition propagate (f : Field.t)
    (shape : nat * nat) (z : R)
    (spacing offset : option (R * R)) : result Field.t :=
  let src := Field.geometry f in
  dst <- PlanarGeometry_init shape z
           (match spacing with Some s => s | None => default_spacing end)
           (match offset with Some o => o | None => (0, 0) end) ;;
  K <- propagator src (Field.wavelength f) dst ;;
  let s := Tensor.shape (Field.data f) in
  let n := Field.cells f in
  let m := (fst shape * snd shape)%nat in
  match Field.klass f with
  | Field.CoherenceField =>
      Ok (Field.make Field.CoherenceField
            (Tensor.make
               (Tensor.leading 4 s ++ [fst shape; snd shape; fst shape; snd shape])
               (flat_map
                  (fun gamma =>
                     apply_propagator_second K n m
                       (apply_propagator_first K n m gamma))
                  (chunks (n * n) (Tensor.numel (Tensor.leading 4 s))
                          (Tensor.data (Field.data f)))))
            dst (Field.wavelength f))
  | k =>
      Ok (Field.make k
            (Tensor.make
               (Tensor.leading 2 s ++ [fst shape; snd shape])
               (flat_map (apply_propagator K n m)
                  (chunks n (Tensor.numel (Tensor.leading 2 s))
                          (Tensor.data (Field.data f)))))
            dst (Field.wavelength f))
  end.

End Propagation.

(** A scalar field and the CoherenceField built from the outer product of
    its data with itself, on the same geometry and at the same wavelength
    ([CoherenceField(outer2d(psi, psi), ...)] next to [Field(psi, ...)] in
    [test_fields.py], TestSpatialCoherence.setUp). *)
Definition coherent_pair (F G : Field.t) : Prop :=
  Field.is_scalar2d F
  /\ Field.klass G = Field.CoherenceField
  /\ Field.data G = outer2d (Field.data F) (Field.data F)
  /\ Field.geometry G = Field.geometry F
  /\ Field.wavelength G = Field.wavelength F.

Definition CoherenceField_of (F : Field.t) : Field.t :=
  Field.make Field.CoherenceField
    (outer2d (Field.data F) (Field.data F))
    (Field.geometry F) (Field.wavelength F).

(* ===================================================================== *)
(** ** Angular-spectrum propagation and its padding *)
(* ===================================================================== *)

Module ASM.

Definition zeros (n : nat) : list Cx.C := repeat Cx.zero n.

(** One row with [p] zeros on either side. *)
Definition pad_row (p : nat) (row : list Cx.C) : list Cx.C :=
  zeros p ++ row ++ zeros p.

(** One [h] x [w] plane with [p0 * h] rows of zeros above and below and
    [p1 * w] zeros left and right of every row. *)
Definition pad_plane (p0 p1 h w : nat) (plane : list Cx.C) : list Cx.C :=
  let w' := ((1 + 2 * p1) * w)%nat in
  zeros (p0 * h * w')
  ++ flat_map (pad_row (p1 * w)) (chunks w h plane)
  ++ zeros (p0 * h * w').

(** Modelled from the spec: [propagation.py] is not among the sources.
    "Before transforming, the source grid is zero-padded by asm_pad_factor
    per axis (each axis's padded size = original x (1 + 2 x pad_factor))".
    The padding acts on the last two dimensions. *)
Definition pad (asm_pad_factor : nat * nat) (x : Tensor.t Cx.C)
  : Tensor.t Cx.C :=
  let (p0, p1) := asm_pad_factor in
  match Tensor.trailing 2 (Tensor.shape x) with
  | [h; w] =>
      Tensor.make
        (Tensor.leading 2 (Tensor.shape x)
         ++ [((1 + 2 * p0) * h)%nat; ((1 + 2 * p1) * w)%nat])
        (flat_map (pad_plane p0 p1 h w)
           (chunks (h * w) (Tensor.numel (Tensor.leading 2 (Tensor.shape x)))
                   (Tensor.data x)))
  | _ => x
  end.

(** [base[r0:r1, c0:c1] = src] for 2-D tensors, as a new tensor: inside the
    slice the entries of [src], outside it those of [base]. *)
Definition slice_assign (base : Tensor.t Cx.C) (r0 r1 c0 c1 : nat)
    (src : Tensor.t Cx.C) : Tensor.t Cx.C :=
  match Tensor.shape base with
  | [h'; w'] =>
      Tensor.make [h'; w']
        (flat_map
           (fun i =>
              List.map
                (fun j =>
                   if (Nat.leb r0 i && Nat.ltb i r1
                       && Nat.leb c0 j && Nat.ltb j c1)%bool
                   then Tensor.get2 Cx.zero src (i - r0) (j - c0)
                   else Tensor.get2 Cx.zero base i j)
                (seq 0 w'))
           (seq 0 h'))
  | _ => base
  end.

(** [torch.zeros(h, w, dtype=torch.cdouble)]. *)
Definition zeros2d (h w : nat) : Tensor.t Cx.C :=
  Tensor.make [h; w] (zeros (h * w)).

(** The data of [test_fields.py], TestField.test_asm_pad_factor: a zero
    tensor of the padded size whose central block is the source data,
    [z[p0*N0 : (p0+1)*N0, p1*N1 : (p1+1)*N1] = data]. *)
Definition embed (asm_pad_factor : nat * nat) (x : Tensor.t Cx.C)
  : Tensor.t Cx.C :=
  let (p0, p1) := asm_pad_factor in
  match Tensor.shape x with
  | [n0; n1] =>
      slice_assign (zeros2d ((1 + 2 * p0) * n0) ((1 + 2 * p1) * n1))
                   (p0 * n0) ((p0 + 1) * n0) (p1 * n1) ((p1 + 1) * n1) x
  | _ => x
  end.

Section Propagate.

(** The transform of the padded grid: Fourier transform, multiplication by
    the free-space transfer function, inverse transform and resampling onto
    the destination plane.  It is given the padded data, the geometry of
    the padded source grid and the wavelength, and it fails when the
    destination lies outside the propagated extent. *)
Variable transform :
  Tensor.t Cx.C -> PlanarGeometry.t -> R -> PlanarGeometry.t
  -> result (Tensor.t Cx.C).

(** Modelled from the spec: [propagation.py] is not among the sources.
    The source geometry after padding, "each axis's padded size = original x
    (1 + 2 x pad_factor)": the grid grows about its centre, so z, spacing and
    offset are kept. *)
Definition padded_geometry (asm_pad_factor : nat * nat)
    (g : PlanarGeometry.t) : PlanarGeometry.t :=
  PlanarGeometry.make
    (((1 + 2 * fst asm_pad_factor) * fst (PlanarGeometry.shape g))%nat,
     ((1 + 2 * snd asm_pad_factor) * snd (PlanarGeometry.shape g))%nat)
    (PlanarGeometry.z g) (PlanarGeometry.spacing g) (PlanarGeometry.offset g).

(** Modelled from the spec: [propagation.py] is not among the sources.
    Angular-spectrum propagation of a field with a given [asm_pad_factor]
    to a destination plane: pad, then transform. *)
Definition asm_propagation (f : Field.t) (asm_pad_factor : nat * nat)
    (dst : PlanarGeometry.t) : result Field.t :=
  out <- transform (pad asm_pad_factor (Field.data f))
                   (padded_geometry asm_pad_factor (Field.geometry f))
                   (Field.wavelength f) dst ;;
  Ok (Field.make (Field.klass f) out dst (Field.wavelength f)).

End Propagate.

(** The second field of the test: the embedded data on a grid of the padded
    size, with the z, spacing, offset and wavelength of the first. *)
Definition embedded_field (asm_pad_factor : nat * nat) (f : Field.t)
  : Field.t :=
  Field.make (Field.klass f) (embed asm_pad_factor (Field.data f))
             (padded_geometry asm_pad_factor (Field.geometry f))
             (Field.wavelength f).

End ASM.

(* ===================================================================== *)
(** ** Doubles with the IEEE special values *)
(* ===================================================================== *)

(** A double as exact arithmetic sees it: a real number, or one of the
    special values that a division by zero produces.  Rounding, overflow
    and the sign of zero are not modelled; a zero divisor counts as [+0]. *)
Module XR.

Inductive t : Type :=
| Fin (r : R)
| PInf
| NInf
| NaN.

Definition is_nan (a : t) : bool :=
  match a with NaN => true | _ => false end.

(** A boolean promoted to a double in arithmetic with doubles. *)
Definition of_bool (b : bool) : t := Fin (if b then 1 else 0).

Definition signed_inf (positive : bool) : t :=
  if positive then PInf else NInf.

Definition div (a b : t) : t :=
  match a, b with
  | NaN, _ | _, NaN => NaN
  | Fin x, Fin y =>
      if Reqb y 0 then
        if Reqb x 0 then NaN else signed_inf (Rleb 0 x)
      else Fin (x / y)
  | Fin _, _ => Fin 0
  | PInf, Fin y => signed_inf (Rleb 0 y)
  | NInf, Fin y => signed_inf (negb (Rleb 0 y))
  | _, _ => NaN
  end.

Definition mul (a b : t) : t :=
  match a, b with
  | NaN, _ | _, NaN => NaN
  | Fin x, Fin y => Fin (x * y)
  | Fin x, PInf | PInf, Fin x =>
      if Reqb x 0 then NaN else signed_inf (Rleb 0 x)
  | Fin x, NInf | NInf, Fin x =>
      if Reqb x 0 then NaN else signed_inf (negb (Rleb 0 x))
  | PInf, PInf | NInf, NInf => PInf
  | PInf, NInf | NInf, PInf => NInf
  end.

Definition sqrt (a : t) : t :=
  match a with
  | Fin x => if Rleb 0 x then Fin (R_sqrt.sqrt x) else NaN
  | PInf => PInf
  | _ => NaN
  end.

Definition exp (a : t) : t :=
  match a with
  | Fin x => Fin (Rtrigo_def.exp x)
  | PInf => PInf
  | NInf => Fin 0
  | NaN => NaN
  end.

(** A special function of the numerics library, applied to a double;
    a non-finite argument is passed on as NaN. *)
Definition apply (f : R -> R) (a : t) : t :=
  match a with
  | Fin x => Fin (f x)
  | _ => NaN
  end.

End XR.

(* ===================================================================== *)
(** ** Profiles: [profiles/special.py], [profiles/spatial_coherence.py] *)
(* ===================================================================== *)

Module Profiles.

(** Coordinate [i] of an axis of [n] points, "centered per offset" with
    "grid extent (shape - 1) * spacing". *)
Definition axis_coordinate (n : nat) (spacing offset : R) (i : nat) : R :=
  offset + (INR i - (INR n - 1) / 2) * spacing.

(** Modelled from the spec: [planar_geometry.py] is not among the sources.
    "meshgrid(): returns two tensors (x, y) of physical coordinates,
    shape == shape, centered per offset"; the "grid extent equals
    (shape - 1) * spacing centered at offset".  Both are given as row-major
    buffers of [H * W] entries. *)
Definition meshgrid (g : PlanarGeometry.t) : list R * list R :=
  let (h, w) := PlanarGeometry.shape g in
  (flat_map (fun i => List.map
               (fun _ => axis_coordinate h (fst (PlanarGeometry.spacing g))
                           (fst (PlanarGeometry.offset g)) i)
               (seq 0 w))
            (seq 0 h),
   flat_map (fun _ => List.map
               (fun j => axis_coordinate w (snd (PlanarGeometry.spacing g))
                           (snd (PlanarGeometry.offset g)) j)
               (seq 0 w))
            (seq 0 h)).

(** Elementwise combination of two buffers. *)
Definition map2 {A B C} (f : A -> B -> C) (a : list A) (b : list B) : list C :=
  List.map (fun ab => f (fst ab) (snd ab)) (combine a b).

(** [t[mask] = value]. *)
Definition masked_fill {A} (t : list A) (mask : list bool) (value : A)
  : list A :=
  map2 (fun v (m : bool) => if m then value else v) t mask.

(** [torch.sinc], the normalized sinc: [sin(pi x) / (pi x)], and 1 at
    [x = 0]. *)
Definition torch_sinc (x : R) : R :=
  if Reqb x 0 then 1 else sin (PI * x) / (PI * x).

(** What a coherence function returns: a boolean tensor or a tensor of
    doubles. *)
Inductive CoherenceValues : Type :=
| Bools (l : list bool)
| Doubles (l : list XR.t).

(** A tensor of doubles multiplied elementwise by the values of a coherence
    function; booleans are promoted. *)
Definition mul_coherence (a : list XR.t) (c : CoherenceValues) : list XR.t :=
  match c with
  | Bools l => map2 (fun v b => XR.mul v (XR.of_bool b)) a l
  | Doubles l => map2 XR.mul a l
  end.

(** [x.unsqueeze(-1).unsqueeze(-1) - x.unsqueeze(0).unsqueeze(0)]: entry
    [(p, q)] is [x[p] - x[q]], for cells [p] and [q] in row-major order. *)
Definition pairwise_diff (x : list R) : list R :=
  flat_map (fun a => List.map (fun b => a - b) x) x.

(** Modelled from the spec: [functional.py] is not among the sources.
    [outer2d] of a real tensor with itself: entry [(p, q)] is
    [a[p] * a[q]]. *)
Definition outer2d_real (a b : list XR.t) : list XR.t :=
  flat_map (fun u => List.map (fun v => XR.mul u v) b) a.

Definition schell_model
    (shape : nat * nat)
    (intensity_func : list R -> list R -> result (list XR.t))
    (coherence_func : list R -> list R -> result CoherenceValues)
    (spacing offset : R * R) : result (Tensor.t XR.t) :=
  g <- PlanarGeometry_init shape 0 spacing offset ;;
  let (x, y) := meshgrid g in
  intensity <- intensity_func x y ;;
  let x_diff := pairwise_diff x in
  let y_diff := pairwise_diff y in
  coherence <- coherence_func x_diff y_diff ;;
  Ok (Tensor.make [fst shape; snd shape; fst shape; snd shape]
        (mul_coherence
           (List.map XR.sqrt (outer2d_real intensity intensity))
           coherence)).

(** Division of two Python floats, which raises on a zero divisor. *)
Definition float_div (a b : R) : result R :=
  if Reqb b 0 then Raise (ZeroDivisionError "float division by zero")
  else Ok (a / b).

Definition gaussian_schell_model
    (shape : nat * nat) (waist_radius coherence_width : R)
    (spacing offset : R * R) : result (Tensor.t XR.t) :=
  let coherence_func x y :=
    if Reqb coherence_width 0 then
      Ok (Bools (map2 (fun x y => Reqb x 0 && Reqb y 0)%bool x y))
    else
      Ok (Doubles
            (map2 (fun x y =>
                     XR.exp
                       (XR.div (XR.Fin (- (x * x + y * y)))
                          (XR.Fin (2 * (coherence_width * coherence_width)))))
                  x y)) in
  let intensity_func x y :=
    peak <- float_div 2 (PI * (waist_radius * waist_radius)) ;;
    Ok (map2 (fun x y =>
                XR.mul (XR.Fin peak)
                  (XR.exp (XR.div (XR.Fin (- (2 * (x * x + y * y))))
                                  (XR.Fin (waist_radius * waist_radius)))))
             x y) in
  schell_model shape intensity_func coherence_func spacing offset.


End Profiles.

(* ===================================================================== *)
(** ** The profile generators over double-precision arithmetic *)
(* ===================================================================== *)

(** Whether a call returns NaN, or divides by zero, is decided by the
    rounding of doubles: a quotient of nonzero numbers can underflow to
    zero, a square can overflow to infinity.  Here the generators of
    [profiles/special.py] and [profiles/spatial_coherence.py] are written
    once, over the operations on doubles, and read in two ways:
    - over the binary64 floats of the kernel ([F64.ops]), where a call on
      given numbers is evaluated;
    - over the reals with an arbitrary rounding function
      ([Doubles.rounded]): every arithmetic operation returns the rounding
      of its exact result, or the IEEE special value when there is one.
      What is proved there holds whatever the rounding does, so also for
      the rounding to nearest of binary64.
    The sign of a zero is not modelled. *)
Module Doubles.

(** The operations on doubles that the generators use; [d_eqb] is [==]. *)
Class Ops (D : Type) : Type := {
  d_zero : D;
  d_one : D;
  d_two : D;
  d_pi : D;
  d_add : D -> D -> D;
  d_sub : D -> D -> D;
  d_mul : D -> D -> D;
  d_div : D -> D -> D;
  d_opp : D -> D;
  d_sqrt : D -> D;
  d_eqb : D -> D -> bool;
  d_ltb : D -> D -> bool;
  d_is_nan : D -> bool;
  d_is_inf : D -> bool
}.

Section Generators.

Context {D : Type} {ops : Ops D}.

(** [a ** 2] on a Python float: the product, or OverflowError when the
    product of a finite number is not finite; an underflow to zero is
    silent. *)
Definition py_square (a : D) : result D :=
  let v := d_mul a a in
  if (d_is_inf v && negb (d_is_inf a))%bool then
    Raise (OverflowError "(34, 'Numerical result out of range')")
  else Ok v.

(** [a / b] on Python floats, which raises on a zero divisor. *)
Definition py_div (a b : D) : result D :=
  if d_eqb b d_zero then Raise (ZeroDivisionError "float division by zero")
  else Ok (d_div a b).

(** A count as a double. *)
Fixpoint of_nat (n : nat) : D :=
  match n with
  | O => d_zero
  | S k => d_add (of_nat k) d_one
  end.

(** A boolean promoted to a double in arithmetic with doubles. *)
Definition of_bool (b : bool) : D := if b then d_one else d_zero.

(** Modelled from the spec: [planar_geometry.py] is not among the sources.
    Coordinate [i] of an axis of [n] points: the "grid extent equals
    (shape - 1) * spacing centered at offset". *)
Definition axis_coordinate (n : nat) (spacing offset : D) (i : nat) : D :=
  d_add offset
    (d_mul (d_sub (of_nat i) (d_div (d_sub (of_nat n) d_one) d_two)) spacing).

(** Modelled from the spec: [planar_geometry.py] is not among the sources.
    [PlanarGeometry(shape, 0, spacing, offset).meshgrid()]: "shape
    dimensions are positive integers; spacing components are strictly
    positive"; "meshgrid(): returns two tensors (x, y) of physical
    coordinates", given as row-major buffers of [H * W] entries. *)
Definition meshgrid (shape : nat * nat) (spacing offset : D * D)
  : result (list D * list D) :=
  let (h, w) := shape in
  if (Nat.ltb 0 h && Nat.ltb 0 w)%bool then
    if (d_ltb d_zero (fst spacing) && d_ltb d_zero (snd spacing))%bool then
      Ok (flat_map
            (fun i => List.map
               (fun _ => axis_coordinate h (fst spacing) (fst offset) i)
               (seq 0 w))
            (seq 0 h),
          flat_map
            (fun _ => List.map
               (fun j => axis_coordinate w (snd spacing) (snd offset) j)
               (seq 0 w))
            (seq 0 h))
    else Raise (ValueError "Expected spacing to be positive")
  else Raise (ValueError "Expected shape to be positive").

(** [PlanarGeometry(shape, 0, spacing, offset).meshgrid()], as a parameter
    of the generators. *)
Variable meshgrid_of :
  nat * nat -> D * D -> D * D -> result (list D * list D).

(** [torch.special.bessel_j1], [torch.exp] and [torch.sinc]. *)
Variable bessel_j1 : D -> D.
Variable exp : D -> D.
Variable torch_sinc : D -> D.

(** [special.py], [airy].  [x**2] is the product [x * x]. *)
Definition airy (shape : nat * nat) (scale : D) (spacing offset : D * D)
  : result (Tensor.t D) :=
  xy <- meshgrid_of shape spacing offset ;;
  let x := fst xy in
  let y := snd xy in
  let r :=
    Profiles.map2 (fun x y => d_sqrt (d_add (d_mul x x) (d_mul y y))) x y in
  let scaled_r := List.map (fun r => d_div r scale) r in
  let airy_pattern :=
    List.map
      (fun s =>
         let q := d_div (d_mul d_two (bessel_j1 s)) s in
         d_mul q q)
      scaled_r in
  let airy_pattern :=
    Profiles.masked_fill airy_pattern
      (List.map (fun r => d_eqb r d_zero) r) d_one in
  Ok (Tensor.make [fst shape; snd shape] airy_pattern).

(** The values a [scale] argument can take: a number, a sequence or a
    tensor. *)
Variable Vector2 : Type.

(** [initialize_tensor("scale", scale, (2,), fill_value=True,
    validate_positive=True)] of [functional.py], which is not among the
    sources: it returns the two scale factors or raises. *)
Variable initialize_scale : Vector2 -> result (D * D).

(** [special.py], [sinc]. *)
Definition sinc (shape : nat * nat) (scale : Vector2) (spacing offset : D * D)
  : result (Tensor.t D) :=
  xy <- meshgrid_of shape spacing offset ;;
  let x := fst xy in
  let y := snd xy in
  scale <- initialize_scale scale ;;
  let sinc_pattern :=
    Profiles.map2
      (fun x y =>
         d_mul (torch_sinc (d_div x (fst scale)))
               (torch_sinc (d_div y (snd scale))))
      x y in
  Ok (Tensor.make [fst shape; snd shape] sinc_pattern).

(** What a coherence function returns: a boolean tensor or a tensor of
    doubles. *)
Inductive CoherenceValues : Type :=
| BoolValues (l : list bool)
| DoubleValues (l : list D).

Definition mul_coherence (a : list D) (c : CoherenceValues) : list D :=
  match c with
  | BoolValues l => Profiles.map2 (fun v b => d_mul v (of_bool b)) a l
  | DoubleValues l => Profiles.map2 d_mul a l
  end.

(** [x.unsqueeze(-1).unsqueeze(-1) - x.unsqueeze(0).unsqueeze(0)]: entry
    [(p, q)] is [x[p] - x[q]], for cells [p] and [q] in row-major order. *)
Definition pairwise_diff (x : list D) : list D :=
  flat_map (fun a => List.map (fun b => d_sub a b) x) x.

(** Modelled from the spec: [functional.py] is not among the sources.
    [outer2d] of a real tensor with itself: entry [(p, q)] is
    [a[p] * a[q]]. *)
Definition outer2d (a b : list D) : list D :=
  flat_map (fun u => List.map (fun v => d_mul u v) b) a.

(** [spatial_coherence.py], [schell_model].  The power [** 0.5] is the
    square root. *)
Definition schell_model
    (shape : nat * nat)
    (intensity_func : list D -> list D -> result (list D))
    (coherence_func : list D -> list D -> result CoherenceValues)
    (spacing offset : D * D) : result (Tensor.t D) :=
  xy <- meshgrid_of shape spacing offset ;;
  let x := fst xy in
  let y := snd xy in
  intensity <- intensity_func x y ;;
  let x_diff := pairwise_diff x in
  let y_diff := pairwise_diff y in
  coherence <- coherence_func x_diff y_diff ;;
  Ok (Tensor.make [fst shape; snd shape; fst shape; snd shape]
        (mul_coherence
           (List.map d_sqrt (outer2d intensity intensity))
           coherence)).

(** [spatial_coherence.py], [gaussian_schell_model].  The widths are Python
    floats, so [waist_radius**2] and [coherence_width**2] can raise
    OverflowError and [2 / (torch.pi * waist_radius**2)] can raise
    ZeroDivisionError; the tensors are divided as doubles are, without
    raising.  [waist_radius**2] occurs twice in [intensity_func] and is
    computed once here: the second occurrence has the value of the first
    and is reached only when the first did not raise. *)
Definition gaussian_schell_model
    (shape : nat * nat) (waist_radius coherence_width : D)
    (spacing offset : D * D) : result (Tensor.t D) :=
  let coherence_func x y :=
    if d_eqb coherence_width d_zero then
      Ok (BoolValues
            (Profiles.map2 (fun x y => d_eqb x d_zero && d_eqb y d_zero)%bool
                           x y))
    else
      c2 <- py_square coherence_width ;;
      let denom := d_mul d_two c2 in
      Ok (DoubleValues
            (Profiles.map2
               (fun x y =>
                  exp (d_div (d_opp (d_add (d_mul x x) (d_mul y y))) denom))
               x y)) in
  let intensity_func x y :=
    w2 <- py_square waist_radius ;;
    peak <- py_div d_two (d_mul d_pi w2) ;;
    Ok (Profiles.map2
          (fun x y =>
             d_mul peak
               (exp (d_div
                       (d_opp (d_mul d_two (d_add (d_mul x x) (d_mul y y))))
                       w2)))
          x y) in
  schell_model shape intensity_func coherence_func spacing offset.

End Generators.

(** *** Doubles as rounded reals *)

Section Rounded.

(** The rounding of a real number to a double: a finite number, or an
    infinity when it overflows. *)
Variable rnd : R -> XR.t.

(** The result of an operation whose exact value is [a]. *)
Definition round (a : XR.t) : XR.t :=
  match a with
  | XR.Fin v => rnd v
  | _ => a
  end.

Definition xr_add (a b : XR.t) : XR.t :=
  match a, b with
  | XR.NaN, _ | _, XR.NaN => XR.NaN
  | XR.Fin x, XR.Fin y => XR.Fin (x + y)
  | XR.Fin _, XR.PInf | XR.PInf, XR.Fin _ | XR.PInf, XR.PInf => XR.PInf
  | XR.Fin _, XR.NInf | XR.NInf, XR.Fin _ | XR.NInf, XR.NInf => XR.NInf
  | XR.PInf, XR.NInf | XR.NInf, XR.PInf => XR.NaN
  end.

Definition xr_opp (a : XR.t) : XR.t :=
  match a with
  | XR.Fin x => XR.Fin (- x)
  | XR.PInf => XR.NInf
  | XR.NInf => XR.PInf
  | XR.NaN => XR.NaN
  end.

Definition xr_eqb (a b : XR.t) : bool :=
  match a, b with
  | XR.Fin x, XR.Fin y => Reqb x y
  | XR.PInf, XR.PInf | XR.NInf, XR.NInf => true
  | _, _ => false
  end.

Definition xr_ltb (a b : XR.t) : bool :=
  match a, b with
  | XR.Fin x, XR.Fin y => negb (Rleb y x)
  | XR.Fin _, XR.PInf | XR.NInf, XR.Fin _ | XR.NInf, XR.PInf => true
  | _, _ => false
  end.

Definition xr_is_inf (a : XR.t) : bool :=
  match a with
  | XR.PInf | XR.NInf => true
  | _ => false
  end.

(** The operations on doubles: each returns the rounding of its exact
    result.  The constants 0, 1 and 2 are doubles; [math.pi] is the
    rounding of pi. *)
Definition rounded : Ops XR.t := {|
  d_zero := XR.Fin 0;
  d_one := XR.Fin 1;
  d_two := XR.Fin 2;
  d_pi := rnd PI;
  d_add a b := round (xr_add a b);
  d_sub a b := round (xr_add a (xr_opp b));
  d_mul a b := round (XR.mul a b);
  d_div a b := round (XR.div a b);
  d_opp := xr_opp;
  d_sqrt a := round (XR.sqrt a);
  d_eqb := xr_eqb;
  d_ltb := xr_ltb;
  d_is_nan := XR.is_nan;
  d_is_inf := xr_is_inf
|}.

End Rounded.

(** Exact arithmetic, as the rounding that changes nothing. *)
Definition exact : Ops XR.t := rounded XR.Fin.

End Doubles.

(** *** Doubles as the binary64 floats of the kernel *)

Module F64.

Import PrimFloat.

#[global] Instance ops : Doubles.Ops PrimFloat.float := {|
  Doubles.d_zero := 0%float;
  Doubles.d_one := 1%float;
  Doubles.d_two := 2%float;
  Doubles.d_pi := 0x1.921fb54442d18p+1%float;
  Doubles.d_add := PrimFloat.add;
  Doubles.d_sub := PrimFloat.sub;
  Doubles.d_mul := PrimFloat.mul;
  Doubles.d_div := PrimFloat.div;
  Doubles.d_opp := PrimFloat.opp;
  Doubles.d_sqrt := PrimFloat.sqrt;
  Doubles.d_eqb := PrimFloat.eqb;
  Doubles.d_ltb := PrimFloat.ltb;
  Doubles.d_is_nan := PrimFloat.is_nan;
  Doubles.d_is_inf := PrimFloat.is_infinity
|}.

(** [bessel_j1] at arguments near zero, where [J1(x)] is [x / 2] to the
    precision of a double, and [J1(0) = 0]. *)
Definition bessel_j1_near_0 (x : float) : float := PrimFloat.div x 2%float.


(** The doubles that the literals [1e308], [1e-20] and [1e-200] denote. *)
Definition double_1e308 : float := 0x1.1ccf385ebc8a0p+1023%float.
Definition double_1e_20 : float := 0x1.79ca10c924223p-67%float.

End F64.

(* ===================================================================== *)
(** ** The overlap of a field with a weight *)
(* ===================================================================== *)

(** The overlap that [FieldDetector.forward] squares, for plane [b] of the
    field data and channel [c]: the sum over all cells of
    [w[c,i,j] * psi[i,j] * cell_area]. *)
Definition overlap (w psi : Tensor.t Cx.C) (area : R) (H W b c : nat) : Cx.C :=
  big Cx.zero Cx.add H (fun i => big Cx.zero Cx.add W (fun j =>
    Cx.scale area
      (Cx.mul (Tensor.get3 Cx.zero w c i j)
              (Tensor.get_plane Cx.zero psi b i j)))).

(** The overlap as the specification words it, with the weight conjugated. *)
Definition conj_overlap (w psi : Tensor.t Cx.C) (area : R) (H W b c : nat)
  : Cx.C :=
  big Cx.zero Cx.add H (fun i => big Cx.zero Cx.add W (fun j =>
    Cx.scale area
      (Cx.mul (Cx.conj (Tensor.get3 Cx.zero w c i j))
              (Tensor.get_plane Cx.zero psi b i j)))).

(* ===================================================================== *)
(** ** Concrete inputs used in the examples *)
(* ===================================================================== *)

(** A detector with one channel over a 1 x 2 grid of unit cells, and a field
    on that grid: weight [[i, 1]], field [[1, i]]. *)
Definition unit_geometry_1x2 : PlanarGeometry.t :=
  PlanarGeometry.make (1%nat, 2%nat) 0 (1, 1) (0, 0).

Definition weight_i_1 : Tensor.t Cx.C :=
  Tensor.make [1%nat; 1%nat; 2%nat] [(0, 1); (1, 0)].

Definition field_1_i : Field.t :=
  Field.make Field.Field (Tensor.make [1%nat; 2%nat] [(1, 0); (0, 1)])
             unit_geometry_1x2 1.

Definition no_geometry_str (_ : PlanarGeometry.t) : string := EmptyString.

Definition weight_2_3 : Tensor.t R :=
  Tensor.make [1%nat; 1%nat; 2%nat] [2; 3].

Definition no_polarized_modulate (f : Field.t) (_ : Tensor.t Cx.C)
  : result Field.t := Ok f.

Definition unit_geometry_2x1 : PlanarGeometry.t :=
  PlanarGeometry.make (2%nat, 1%nat) 0 (1, 1) (0, 0).

Definition field_zero : Field.t :=
  Field.make Field.Field (Tensor.make [1%nat; 2%nat] [Cx.zero; Cx.zero])
             unit_geometry_1x2 1.

(** A propagator that copies cell [x] to cell [x]. *)
Definition identity_propagator
    (_ : PlanarGeometry.t) (_ : R) (_ : PlanarGeometry.t)
  : result (nat -> nat -> Cx.C) :=
  Ok (fun u x => if Nat.eqb u x then Cx.one else Cx.zero).

Definition crop_transform
    (x : Tensor.t Cx.C) (_ : PlanarGeometry.t) (_ : R) (_ : PlanarGeometry.t)
  : result (Tensor.t Cx.C) := Ok x.

Definition half_argument (x : R) : R := x / 2.

(** A [_visualize] that returns the tensor it is asked to draw. *)
Definition show_data
    (_ : PlanarGeometry.t) (data : Tensor.t R) (_ : list Z) (_ : unit)
  : result (Tensor.t R) := Ok data.

(** An [initialize_tensor] for a scale that is given as a pair of doubles:
    the pair itself when both are positive. *)
Definition initialize_scale_pair (s : XR.t * XR.t) : result (XR.t * XR.t) :=
  if (Doubles.xr_ltb (XR.Fin 0) (fst s)
      && Doubles.xr_ltb (XR.Fin 0) (snd s))%bool
  then Ok s
  else Raise (ValueError "Expected scale to contain only positive values").

(** The modulation profile [[i, 2]] over a 1 x 2 grid. *)
Definition profile_i_2 : Tensor.t Cx.C :=
  Tensor.make [1%nat; 2%nat] [(0, 1); (2, 0)].

(** A rounding that flushes every number of magnitude below 1 to zero:
    underflow, on a coarse scale. *)
Definition flush_below_1 (v : R) : XR.t :=
  if Rleb 1 (Rabs v) then XR.Fin v else XR.Fin 0.


(** Two channels over a 1 x 2 grid that share out the plane: channel 0 is
    the left cell, channel 1 the right cell. *)
Definition weight_halves : Tensor.t R :=
  Tensor.make [2%nat; 1%nat; 2%nat] [1; 0; 0; 1].

(** The weight that [test_intensity_detector] builds, for any grid and any
    number of channels: [torch.zeros(C, H, W)] in which channel [c] is set
    to 1 on its leading block, [weight[c, :a, :b] = 1], where [(a, b)] is
    entry [c] of [blocks].  A slice bound beyond the grid selects up to the
    edge. *)
Definition block_weights (H W : nat) (blocks : list (nat * nat))
  : Tensor.t R :=
  Tensor.make [length blocks; H; W]
    (flat_map
       (fun ab =>
          flat_map
            (fun i =>
               List.map
                 (fun j =>
                    if (Nat.ltb i (fst ab) && Nat.ltb j (snd ab))%bool
                    then 1 else 0)
                 (seq 0 W))
            (seq 0 H))
       blocks).

(** The field of [test_intensity_detector]:
    [Field(torch.ones(100, 100), wavelength=700e-9, spacing=1)]. *)
Definition test_ones_field : Field.t :=
  Field.make Field.Field
    (Tensor.make [100%nat; 100%nat] (repeat Cx.one (100 * 100)))
    (PlanarGeometry.make (100%nat, 100%nat) 0 (1, 1) (0, 0))
    (7 / 10000000).

(** The field [[0, 1]] on the 1 x 2 grid of unit cells: channel 1 of
    [weight_halves]. *)
Definition field_0_1 : Field.t :=
  Field.make Field.Field (Tensor.make [1%nat; 2%nat] [Cx.zero; Cx.one])
             unit_geometry_1x2 1.

(** A polarized field on the 1 x 2 grid of unit cells, with the components
    [[1, i]], [[i, 1]] and [[0, 0]]. *)
Definition polarized_field_1x2 : Field.t :=
  Field.make Field.PolarizedField
    (Tensor.make [3%nat; 1%nat; 2%nat]
       [(1, 0); (0, 1); (0, 1); (1, 0); Cx.zero; Cx.zero])
    unit_geometry_1x2 1.

(* ********************************************************************* *)
(** * Properties *)
(* ********************************************************************* *)

(* ===================================================================== *)
(** ** Facts about complex doubles *)
(* ===================================================================== *)

Module CxFacts.

Import Cx.

Lemma eq_intro (a b : C) : re a = re b -> im a = im b -> a = b.
Proof. destruct a, b; simpl; intros; subst; reflexivity. Qed.

Lemma norm2_nonneg a : 0 <= norm2 a.
Proof. unfold norm2. nra. Qed.

Lemma abs_square a : Rsqr (abs a) = norm2 a.
Proof. unfold abs. apply Rsqr_sqrt, norm2_nonneg. Qed.

Lemma norm2_mul a b : norm2 (mul a b) = norm2 a * norm2 b.
Proof. unfold norm2, mul; simpl. ring. Qed.

Lemma norm2_scale k a : norm2 (scale k a) = k * k * norm2 a.
Proof. unfold norm2, scale; simpl. ring. Qed.

Lemma norm2_conj a : norm2 (conj a) = norm2 a.
Proof. unfold norm2, conj; simpl. ring. Qed.

Lemma mul_conj_re a : re (mul a (conj a)) = norm2 a.
Proof. unfold norm2, mul, conj; simpl. ring. Qed.

Lemma mul_conj_im a : im (mul a (conj a)) = 0.
Proof. unfold mul, conj; simpl. ring. Qed.

Lemma mul_comm a b : mul a b = mul b a.
Proof. apply eq_intro; unfold mul; simpl; ring. Qed.

Lemma mul_assoc a b c : mul a (mul b c) = mul (mul a b) c.
Proof. apply eq_intro; unfold mul; simpl; ring. Qed.

Lemma add_comm a b : add a b = add b a.
Proof. apply eq_intro; unfold add; simpl; ring. Qed.

Lemma add_assoc a b c : add a (add b c) = add (add a b) c.
Proof. apply eq_intro; unfold add; simpl; ring. Qed.

Lemma add_zero_l a : add zero a = a.
Proof. apply eq_intro; unfold add, zero; simpl; ring. Qed.

Lemma add_zero_r a : add a zero = a.
Proof. apply eq_intro; unfold add, zero; simpl; ring. Qed.

Lemma mul_one_l a : mul one a = a.
Proof. apply eq_intro; unfold mul, one; simpl; ring. Qed.

Lemma mul_zero_l a : mul zero a = zero.
Proof. apply eq_intro; unfold mul, zero; simpl; ring. Qed.

Lemma mul_zero_r a : mul a zero = zero.
Proof. apply eq_intro; unfold mul, zero; simpl; ring. Qed.

Lemma mul_add_distr_r a b c : mul (add a b) c = add (mul a c) (mul b c).
Proof. apply eq_intro; unfold mul, add; simpl; ring. Qed.

Lemma conj_add a b : conj (add a b) = add (conj a) (conj b).
Proof. apply eq_intro; unfold conj, add; simpl; ring. Qed.

Lemma conj_mul a b : conj (mul a b) = mul (conj a) (conj b).
Proof. apply eq_intro; unfold conj, mul; simpl; ring. Qed.

Lemma conj_zero : conj zero = zero.
Proof. apply eq_intro; unfold conj, zero; simpl; ring. Qed.

Lemma scale_as_mul k a : scale k a = mul a (of_real k).
Proof. apply eq_intro; unfold scale, mul, of_real; simpl; ring. Qed.

Lemma sub_def a b : sub a b = add a (opp b).
Proof. apply eq_intro; unfold sub, add, opp; simpl; ring. Qed.

Lemma add_opp_r a : add a (opp a) = zero.
Proof. apply eq_intro; unfold add, opp, zero; simpl; ring. Qed.

Lemma ring_thy : ring_theory zero one add mul sub opp (@eq C).
Proof.
  constructor.
  - exact add_zero_l.
  - exact add_comm.
  - exact add_assoc.
  - exact mul_one_l.
  - exact mul_comm.
  - exact mul_assoc.
  - exact mul_add_distr_r.
  - exact sub_def.
  - exact add_opp_r.
Qed.

End CxFacts.

Add Ring CxRing : CxFacts.ring_thy.

(* ===================================================================== *)
(** ** Facts about the boolean comparisons *)
(* ===================================================================== *)

Lemma Reqb_true x y : Reqb x y = true <-> x = y.
Proof. unfold Reqb. destruct (Req_EM_T x y); split; congruence. Qed.

Lemma Reqb_false x y : Reqb x y = false <-> x <> y.
Proof. unfold Reqb. destruct (Req_EM_T x y); split; congruence. Qed.

Lemma Reqb_refl x : Reqb x x = true.
Proof. apply Reqb_true; reflexivity. Qed.

Lemma Rleb_true x y : Rleb x y = true <-> x <= y.
Proof. unfold Rleb. destruct (Rle_dec x y); split; congruence. Qed.

Lemma Rleb_false x y : Rleb x y = false <-> y < x.
Proof.
  unfold Rleb. destruct (Rle_dec x y); split; try congruence; lra.
Qed.

(* ===================================================================== *)
(** ** Facts about finite sums and row-major buffers *)
(* ===================================================================== *)

Section BigSumFacts.

Variable A : Type.
Variable zero : A.
Variable add mul : A -> A -> A.

Lemma big_0 f : big zero add 0 f = zero.
Proof. reflexivity. Qed.

Lemma big_S n f :
  big zero add (S n) f = add (f 0%nat) (big zero add n (fun k => f (S k))).
Proof.
  unfold big. simpl. f_equal.
  rewrite <- seq_shift, map_map. reflexivity.
Qed.

Lemma big_ext n f g :
  (forall k, (k < n)%nat -> f k = g k) -> big zero add n f = big zero add n g.
Proof.
  revert f g. induction n as [|n IH]; intros f g H; [reflexivity|].
  rewrite !big_S. f_equal.
  - apply H. lia.
  - apply IH. intros k Hk. apply H. lia.
Qed.

Lemma dot_big x : forall w n,
  length x = n -> length w = n ->
  dot zero add mul x w
  = big zero add n (fun k => mul (nth k x zero) (nth k w zero)).
Proof.
  induction x as [|a x IH]; intros w n Hx Hw.
  - simpl in Hx. subst n. reflexivity.
  - destruct w as [|b w]; simpl in Hx, Hw; [subst n; discriminate|].
    destruct n as [|n]; [discriminate|].
    rewrite big_S. simpl. f_equal. apply IH; lia.
Qed.

Lemma chunks_length n k (l : list A) : length (chunks n k l) = k.
Proof. revert l. induction k; intros; simpl; auto. Qed.

Lemma chunks_nth n k : forall (l : list A) c,
  (c < k)%nat -> nth c (chunks n k l) [] = firstn n (skipn (c * n) l).
Proof.
  induction k as [|k IH]; intros l c Hc; [lia|].
  destruct c as [|c]; simpl.
  - reflexivity.
  - rewrite IH by lia. rewrite skipn_skipn. do 2 f_equal. lia.
Qed.

Lemma nth_firstn_skipn (l : list A) n m k d :
  (k < n)%nat -> nth k (firstn n (skipn m l)) d = nth (m + k) l d.
Proof.
  intros Hk. rewrite nth_firstn.
  destruct (Nat.ltb_spec k n); [|lia].
  rewrite nth_skipn. reflexivity.
Qed.

Lemma firstn_skipn_length (l : list A) n m :
  (m + n <= length l)%nat -> length (firstn n (skipn m l)) = n.
Proof. intros H. rewrite length_firstn, length_skipn. lia. Qed.

Hypothesis Hadd_assoc : forall a b c, add a (add b c) = add (add a b) c.
Hypothesis Hadd_zero_l : forall a, add zero a = a.

Lemma big_split a b f :
  big zero add (a + b) f
  = add (big zero add a f) (big zero add b (fun k => f (a + k)%nat)).
Proof.
  revert f. induction a as [|a IH]; intros f.
  - simpl. rewrite big_0, Hadd_zero_l. reflexivity.
  - simpl. rewrite !big_S, IH, Hadd_assoc. reflexivity.
Qed.

(** A sum over a flattened [h * w] range is the double sum over rows and
    columns. *)
Lemma big_flatten h w f :
  big zero add (h * w) f
  = big zero add h (fun i => big zero add w (fun j => f (i * w + j)%nat)).
Proof.
  revert f. induction h as [|h IH]; intros f.
  - reflexivity.
  - simpl. rewrite big_split, big_S, IH. f_equal.
    apply big_ext; intros i _. apply big_ext; intros j _.
    f_equal. lia.
Qed.

Hypothesis Hmul_add_distr_r :
  forall a b c, mul (add a b) c = add (mul a c) (mul b c).
Hypothesis Hmul_zero_l : forall a, mul zero a = zero.

Lemma big_mul_r n f c :
  mul (big zero add n f) c = big zero add n (fun k => mul (f k) c).
Proof.
  revert f. induction n as [|n IH]; intros f.
  - rewrite !big_0. apply Hmul_zero_l.
  - rewrite !big_S, Hmul_add_distr_r, IH. reflexivity.
Qed.

End BigSumFacts.

(* ===================================================================== *)
(** ** Facts about geometries *)
(* ===================================================================== *)

Lemma allclose_refl a : PlanarGeometry.allclose a a = true.
Proof.
  unfold PlanarGeometry.allclose, PlanarGeometry.atol, PlanarGeometry.rtol.
  apply Rleb_true.
  replace (a - a) with 0 by ring. rewrite Rabs_R0.
  pose proof (Rabs_pos a). lra.
Qed.

Lemma is_same_geometry_refl g : PlanarGeometry.is_same_geometry g g = true.
Proof.
  unfold PlanarGeometry.is_same_geometry.
  rewrite !Nat.eqb_refl, !allclose_refl. reflexivity.
Qed.

Lemma is_same_geometry_shape a b :
  PlanarGeometry.is_same_geometry a b = true ->
  PlanarGeometry.shape a = PlanarGeometry.shape b.
Proof.
  unfold PlanarGeometry.is_same_geometry. intros H.
  repeat (apply andb_prop in H; destruct H as [H ?]).
  apply Nat.eqb_eq in H.
  destruct (PlanarGeometry.shape a), (PlanarGeometry.shape b); simpl in *.
  f_equal; [assumption | apply Nat.eqb_eq; assumption].
Qed.

(* ===================================================================== *)
(** ** Facts about lists and tensors used below *)
(* ===================================================================== *)

Lemma nth_map_lt {A B} (g : A -> B) (l : list A) (k : nat) (d : A) (d' : B) :
  (k < length l)%nat -> nth k (List.map g l) d' = g (nth k l d).
Proof.
  intros Hk. rewrite (nth_indep _ d' (g d)) by (rewrite length_map; exact Hk).
  apply map_nth.
Qed.

Lemma numel_3 c h w : Tensor.numel [c; h; w] = (c * (h * w))%nat.
Proof. unfold Tensor.numel; simpl. lia. Qed.

Lemma numel_2 h w : Tensor.numel [h; w] = (h * w)%nat.
Proof. unfold Tensor.numel; simpl. lia. Qed.

Lemma length_flat_map_rect {A B} (F : A -> list B) (n : nat) (l : list A) :
  (forall a, length (F a) = n) ->
  length (flat_map F l) = (length l * n)%nat.
Proof.
  intros HF. induction l as [|a l IH]; simpl; [reflexivity|].
  rewrite length_app, HF, IH. reflexivity.
Qed.

Lemma nth_flat_map_rect {A B} (F : A -> list B) (n : nat) (da : A) (d : B) :
  (forall a, length (F a) = n) ->
  forall (l : list A) (i j : nat),
    (i < length l)%nat -> (j < n)%nat ->
    nth (i * n + j) (flat_map F l) d = nth j (F (nth i l da)) d.
Proof.
  intros HF. induction l as [|a l IH]; intros i j Hi Hj; simpl in Hi; [lia|].
  destruct i as [|i]; simpl.
  - rewrite app_nth1 by (rewrite HF; exact Hj). reflexivity.
  - rewrite app_nth2 by (rewrite HF; lia).
    rewrite HF. replace (n + i * n + j - n)%nat with (i * n + j)%nat by lia.
    apply IH; lia.
Qed.

Lemma trailing_app (k : nat) (a b : list nat) :
  length b = k -> Tensor.trailing k (a ++ b) = b.
Proof.
  intros H. unfold Tensor.trailing. rewrite length_app, H.
  replace (length a + k - k)%nat with (length a) by lia.
  rewrite skipn_app, skipn_all, Nat.sub_diag. reflexivity.
Qed.

Lemma leading_app (k : nat) (a b : list nat) :
  length b = k -> Tensor.leading k (a ++ b) = a.
Proof.
  intros H. unfold Tensor.leading. rewrite length_app, H.
  replace (length a + k - k)%nat with (length a) by lia.
  rewrite firstn_app, firstn_all, Nat.sub_diag. apply app_nil_r.
Qed.

Lemma numel_app (a b : list nat) :
  Tensor.numel (a ++ b) = (Tensor.numel a * Tensor.numel b)%nat.
Proof.
  unfold Tensor.numel. induction a as [|x a IH]; simpl; [lia|].
  rewrite IH. lia.
Qed.

(** The entries of [linear]: for row [b] of the input and row [k] of the
    weight, the product-sum of the two rows. *)
Lemma linear_entry
    {A} (zero : A) (add mul : A -> A -> A) (x w : Tensor.t A)
    (batch : list nat) (c n : nat) :
  Tensor.shape x = batch ++ [n] -> Tensor.shape w = [c; n] ->
  length (Tensor.data x) = (Tensor.numel batch * n)%nat ->
  length (Tensor.data w) = (c * n)%nat ->
  exists out,
    Tensor.linear zero add mul x w = Ok out
    /\ Tensor.shape out = batch ++ [c]
    /\ length (Tensor.data out) = (Tensor.numel batch * c)%nat
    /\ forall b k, (b < Tensor.numel batch)%nat -> (k < c)%nat ->
         nth (b * c + k) (Tensor.data out) zero
         = big zero add n
             (fun q => mul (nth (b * n + q) (Tensor.data x) zero)
                           (nth (k * n + q) (Tensor.data w) zero)).
Proof.
  intros Hx Hw Lx Lw.
  unfold Tensor.linear. rewrite Hw, Hx.
  rewrite trailing_app, leading_app by reflexivity.
  rewrite Nat.eqb_refl.
  eexists; split; [reflexivity|].
  cbn [Tensor.shape Tensor.data].
  set (B := Tensor.numel batch) in *.
  assert (Hrow : forall row : list A,
            length (List.map (dot zero add mul row)
                             (chunks n c (Tensor.data w))) = c).
  { intros row. rewrite length_map. apply chunks_length. }
  split; [reflexivity|]. split.
  { rewrite length_flat_map_rect with (n := c) by exact Hrow.
    rewrite chunks_length. reflexivity. }
  intros b k Hb Hk.
  rewrite nth_flat_map_rect with (n := c) (da := []);
    [|exact Hrow|rewrite chunks_length; exact Hb|exact Hk].
  rewrite nth_map_lt with (d := []) by (rewrite chunks_length; exact Hk).
  rewrite !chunks_nth by assumption.
  rewrite dot_big with (n := n).
  - apply big_ext. intros q Hq.
    rewrite !nth_firstn_skipn by exact Hq. reflexivity.
  - apply firstn_skipn_length. rewrite Lx. nia.
  - apply firstn_skipn_length. rewrite Lw. nia.
Qed.

(* ===================================================================== *)
(** ** Detectors *)
(* ===================================================================== *)

Section DetectorFacts.

Import Elements.

Variable geometry_str : PlanarGeometry.t -> string.

Lemma validate_weight_3d x :
  tt_dim x = 3%nat -> _validate_weight (PyTensor x) = Ok x.
Proof. intros H. unfold _validate_weight. rewrite H. reflexivity. Qed.

Lemma PlanarGeometry_init_Ok shape z spacing offset g :
  PlanarGeometry_init shape z spacing offset = Ok g ->
  g = PlanarGeometry.make shape z spacing offset.
Proof.
  unfold PlanarGeometry_init. intros H.
  destruct (_ && _)%bool; [|discriminate].
  destruct (_ && _)%bool; [|discriminate].
  congruence.
Qed.

Lemma validate_same_geometry g f :
  PlanarGeometry.is_same_geometry g (Field.geometry f) = true ->
  validate_field_geometry geometry_str g (PyField f) = Ok tt.
Proof. intros H. unfold validate_field_geometry. rewrite H. reflexivity. Qed.

Lemma flatten_m2_planes {A} (x : Tensor.t A) (batch : list nat) (h w : nat) :
  Tensor.shape x = batch ++ [h; w] ->
  Tensor.flatten_m2 x
  = Ok (Tensor.make (batch ++ [(h * w)%nat]) (Tensor.data x)).
Proof.
  intros H. unfold Tensor.flatten_m2. rewrite H.
  rewrite trailing_app, leading_app by reflexivity. reflexivity.
Qed.

Lemma well_formed_planes {A} (x : Tensor.t A) (batch : list nat) (h w : nat) :
  Tensor.shape x = batch ++ [h; w] -> Tensor.well_formed x ->
  length (Tensor.data x) = (Tensor.numel batch * (h * w))%nat.
Proof.
  intros H Hwf. unfold Tensor.well_formed in Hwf.
  rewrite Hwf, H, numel_app, numel_2. reflexivity.
Qed.

(** C6 - For a detector built from a real weight of shape (C, H, W) and a
    scalar field whose geometry matches it, [IntensityDetector.forward]
    returns, for every plane [b] of the field data (the single plane of a
    field without leading axes), C values; the value for channel [c] is the
    sum over all grid cells of [weight[c,i,j] * intensity[i,j]], multiplied
    by the cell area. *)
Theorem IntensityDetector_forward_weighted_sum
    (w : Tensor.t R) (C H W : nat) (z : R) (spacing offset : R * R)
    (det : IntensityDetector) (f : Field.t) (batch : list nat) :
  Tensor.shape w = [C; H; W] ->
  Tensor.well_formed w ->
  IntensityDetector_init (PyTensor (RealTensor w)) z spacing offset = Ok det ->
  Field.is_scalar batch f ->
  PlanarGeometry.is_same_geometry (id_geometry det) (Field.geometry f) = true ->
  exists out,
    IntensityDetector_forward geometry_str det (PyField f) = Ok out
    /\ Tensor.shape out = batch ++ [C]
    /\ length (Tensor.data out) = (Tensor.numel batch * C)%nat
    /\ forall b c, (b < Tensor.numel batch)%nat -> (c < C)%nat ->
         nth (b * C + c) (Tensor.data out) 0
         = big 0 Rplus H (fun i => big 0 Rplus W (fun j =>
             Tensor.get3 0 w c i j
             * Tensor.get_plane 0 (Field.intensity f) b i j))
           * PlanarGeometry.cell_area (id_geometry det).
Proof.
  intros Hw Wf Hinit [Hk [Hs Hf]] Hsame.
  unfold IntensityDetector_init in Hinit.
  rewrite validate_weight_3d in Hinit by (unfold tt_dim; simpl; rewrite Hw; reflexivity).
  cbn [bind] in Hinit.
  destruct (PlanarGeometry_init _ _ _ _) as [g|] eqn:Hg; [|discriminate].
  apply PlanarGeometry_init_Ok in Hg. cbn [bind] in Hinit.
  injection Hinit as <-. cbn [id_geometry id_weight double] in *.
  pose proof (is_same_geometry_shape _ _ Hsame) as Hshape.
  subst g. cbn [PlanarGeometry.shape] in Hshape.
  assert (Hps : planar_shape_of_weight (RealTensor w) = (H, W)).
  { unfold planar_shape_of_weight. simpl. rewrite Hw. reflexivity. }
  rewrite Hps in *.
  rewrite <- Hshape in Hs. cbn [fst snd] in Hs.
  pose proof (well_formed_planes _ _ _ _ Hs Hf) as Lf.
  unfold IntensityDetector_forward.
  rewrite validate_same_geometry by exact Hsame.
  cbn [bind as_field id_geometry id_weight].
  assert (Hi : Field.intensity f = Tensor.map Cx.norm2 (Field.data f)).
  { unfold Field.intensity. rewrite Hk. reflexivity. }
  rewrite Hi.
  rewrite (flatten_m2_planes (Tensor.map Cx.norm2 (Field.data f)) batch H W)
    by exact Hs.
  rewrite (flatten_m2_planes w [C] H W) by exact Hw.
  cbn [bind app Tensor.map Tensor.data].
  unfold Tensor.well_formed in Wf. rewrite Hw, numel_3 in Wf.
  destruct (linear_entry 0 Rplus Rmult
              (Tensor.make (batch ++ [(H * W)%nat])
                 (List.map Cx.norm2 (Tensor.data (Field.data f))))
              (Tensor.make [C; (H * W)%nat] (Tensor.data w))
              batch C (H * W)%nat)
    as (out & Hlin & Hsh & Hlen & Hent);
    try reflexivity.
  { cbn [Tensor.data]. rewrite length_map. exact Lf. }
  { exact Wf. }
  rewrite Hlin. cbn [bind].
  eexists; split; [reflexivity|].
  cbn [Tensor.map Tensor.shape Tensor.data].
  rewrite length_map. repeat split; try assumption.
  intros b c Hb Hc.
  rewrite nth_map_lt with (d := 0) by nia.
  f_equal. rewrite Hent by assumption. cbn [Tensor.data].
  rewrite big_flatten; [|intros; ring|intros; ring].
  apply big_ext; intros i _. apply big_ext; intros j _.
  unfold Tensor.get3, Tensor.get_plane. rewrite Hw.
  cbn [Tensor.map Tensor.shape Tensor.data]. rewrite Hs.
  rewrite trailing_app by reflexivity.
  rewrite Rmult_comm. do 2 f_equal; lia.
Qed.

Lemma Cx_scale_big k n f :
  Cx.scale k (big Cx.zero Cx.add n f)
  = big Cx.zero Cx.add n (fun q => Cx.scale k (f q)).
Proof.
  revert f. induction n as [|n IH]; intros f.
  - rewrite !big_0. apply CxFacts.eq_intro; unfold Cx.scale, Cx.zero; simpl; ring.
  - rewrite !big_S, <- IH.
    apply CxFacts.eq_intro; unfold Cx.scale, Cx.add; simpl; ring.
Qed.

Lemma FieldDetector_forward_entries
    (w : Tensor.t Cx.C) (C H W : nat) (z : R) (spacing offset : R * R)
    (det : FieldDetector) (f : Field.t) (batch : list nat) :
  Tensor.shape w = [C; H; W] ->
  Tensor.well_formed w ->
  FieldDetector_init (PyTensor (ComplexTensor w)) z spacing offset = Ok det ->
  Field.is_scalar batch f ->
  PlanarGeometry.is_same_geometry (fd_geometry det) (Field.geometry f) = true ->
  exists out,
    FieldDetector_forward geometry_str det (PyField f) = Ok out
    /\ Tensor.shape out = batch ++ [C]
    /\ length (Tensor.data out) = (Tensor.numel batch * C)%nat
    /\ forall b c, (b < Tensor.numel batch)%nat -> (c < C)%nat ->
         nth (b * C + c) (Tensor.data out) 0
         = Rsqr (Cx.abs (overlap w (Field.data f)
                           (PlanarGeometry.cell_area (fd_geometry det))
                           H W b c)).
Proof.
  intros Hw Wf Hinit [Hk [Hs Hf]] Hsame.
  unfold FieldDetector_init in Hinit.
  rewrite validate_weight_3d in Hinit by (unfold tt_dim; simpl; rewrite Hw; reflexivity).
  cbn [bind] in Hinit.
  destruct (PlanarGeometry_init _ _ _ _) as [g|] eqn:Hg; [|discriminate].
  apply PlanarGeometry_init_Ok in Hg. cbn [bind] in Hinit.
  injection Hinit as <-. cbn [fd_geometry fd_weight cdouble] in *.
  pose proof (is_same_geometry_shape _ _ Hsame) as Hshape.
  subst g. cbn [PlanarGeometry.shape] in Hshape.
  assert (Hps : planar_shape_of_weight (ComplexTensor w) = (H, W)).
  { unfold planar_shape_of_weight. simpl. rewrite Hw. reflexivity. }
  rewrite Hps in *.
  rewrite <- Hshape in Hs. cbn [fst snd] in Hs.
  pose proof (well_formed_planes _ _ _ _ Hs Hf) as Lf.
  unfold FieldDetector_forward.
  rewrite validate_same_geometry by exact Hsame.
  cbn [bind as_field fd_geometry fd_weight].
  rewrite (flatten_m2_planes (Field.data f) batch H W) by exact Hs.
  rewrite (flatten_m2_planes w [C] H W) by exact Hw.
  cbn [bind app].
  unfold Tensor.well_formed in Wf. rewrite Hw, numel_3 in Wf.
  destruct (linear_entry Cx.zero Cx.add Cx.mul
              (Tensor.make (batch ++ [(H * W)%nat]) (Tensor.data (Field.data f)))
              (Tensor.make [C; (H * W)%nat] (Tensor.data w))
              batch C (H * W)%nat)
    as (out & Hlin & Hsh & Hlen & Hent);
    try reflexivity; try assumption.
  rewrite Hlin. cbn [bind].
  eexists; split; [reflexivity|].
  cbn [Tensor.map Tensor.shape Tensor.data].
  rewrite !length_map. repeat split; try assumption.
  intros b c Hb Hc.
  rewrite nth_map_lt with (d := 0) by (rewrite !length_map; nia).
  rewrite nth_map_lt with (d := Cx.zero) by (rewrite length_map; nia).
  rewrite nth_map_lt with (d := Cx.zero) by nia.
  do 2 f_equal. rewrite Hent by assumption. cbn [Tensor.data].
  rewrite Cx_scale_big.
  rewrite big_flatten; [|exact CxFacts.add_assoc|exact CxFacts.add_zero_l].
  unfold overlap.
  apply big_ext; intros i _. apply big_ext; intros j _.
  unfold Tensor.get3, Tensor.get_plane. rewrite Hw, Hs.
  rewrite trailing_app by reflexivity.
  rewrite CxFacts.mul_comm. do 3 f_equal; lia.
Qed.

(** C1 (amended) - For a detector built from a complex weight of shape
    (C, H, W) and a scalar field whose geometry matches it,
    [FieldDetector.forward] returns, for every plane [b] of the field data
    (the single plane of a field without leading axes), C values; the value
    for channel [c] is the squared magnitude of the sum over all cells of
    [w[c,i,j] * psi[i,j] * cell_area], the weight entering as it is, without
    conjugation. *)
Theorem FieldDetector_forward_overlap
    (w : Tensor.t Cx.C) (C H W : nat) (z : R) (spacing offset : R * R)
    (det : FieldDetector) (f : Field.t) (batch : list nat) :
  Tensor.shape w = [C; H; W] ->
  Tensor.well_formed w ->
  FieldDetector_init (PyTensor (ComplexTensor w)) z spacing offset = Ok det ->
  Field.is_scalar batch f ->
  PlanarGeometry.is_same_geometry (fd_geometry det) (Field.geometry f) = true ->
  exists out,
    FieldDetector_forward geometry_str det (PyField f) = Ok out
    /\ Tensor.shape out = batch ++ [C]
    /\ length (Tensor.data out) = (Tensor.numel batch * C)%nat
    /\ forall b c, (b < Tensor.numel batch)%nat -> (c < C)%nat ->
         nth (b * C + c) (Tensor.data out) 0
         = Rsqr (Cx.abs (overlap w (Field.data f)
                           (PlanarGeometry.cell_area (fd_geometry det))
                           H W b c)).
Proof. apply FieldDetector_forward_entries. Qed.

End DetectorFacts.

Lemma PlanarGeometry_init_unit shape z offset :
  (0 < fst shape)%nat -> (0 < snd shape)%nat ->
  PlanarGeometry_init shape z (1, 1) offset
  = Ok (PlanarGeometry.make shape z (1, 1) offset).
Proof.
  intros H1 H2. unfold PlanarGeometry_init.
  apply Nat.ltb_lt in H1, H2. rewrite H1, H2. cbn [andb fst snd].
  assert (E : Rleb 1 0 = false) by (apply Rleb_false; lra).
  rewrite E. reflexivity.
Qed.

Lemma FieldDetector_init_weight_i_1 :
  Elements.FieldDetector_init (PyTensor (ComplexTensor weight_i_1)) 0 (1, 1) (0, 0)
  = Ok {| Elements.fd_geometry := unit_geometry_1x2;
          Elements.fd_weight := weight_i_1 |}.
Proof.
  unfold Elements.FieldDetector_init. cbn [Elements._validate_weight tt_dim tt_shape
    weight_i_1 Tensor.shape length Nat.eqb negb bind].
  unfold Elements.planar_shape_of_weight. cbn [tt_shape Tensor.shape tl].
  rewrite PlanarGeometry_init_unit by (simpl; lia). reflexivity.
Qed.

Lemma field_1_i_scalar2d : Field.is_scalar2d field_1_i.
Proof. repeat split. Qed.

Lemma field_1_i_scalar : Field.is_scalar [] field_1_i.
Proof. repeat split. Qed.

(** C1 (witness) - the theorem at the one-channel detector with weight
    [[i, 1]] and the field [[1, i]], which has no leading axes. *)
Lemma FieldDetector_forward_overlap_witness :
  exists out,
    Elements.FieldDetector_forward no_geometry_str
      {| Elements.fd_geometry := unit_geometry_1x2;
         Elements.fd_weight := weight_i_1 |} (PyField field_1_i) = Ok out
    /\ Tensor.shape out = [1%nat]
    /\ length (Tensor.data out) = 1%nat
    /\ forall b c, (b < 1)%nat -> (c < 1)%nat ->
         nth (b * 1 + c) (Tensor.data out) 0
         = Rsqr (Cx.abs (overlap weight_i_1 (Field.data field_1_i)
                           (PlanarGeometry.cell_area unit_geometry_1x2)
                           1 2 b c)).
Proof.
  apply (FieldDetector_forward_overlap no_geometry_str
           weight_i_1 1 1 2 0 (1, 1) (0, 0)
           {| Elements.fd_geometry := unit_geometry_1x2;
              Elements.fd_weight := weight_i_1 |} field_1_i []).
  - reflexivity.
  - reflexivity.
  - exact FieldDetector_init_weight_i_1.
  - exact field_1_i_scalar.
  - apply is_same_geometry_refl.
Defined.

(** C1 (counterexample) - with weight [[i, 1]] and field [[1, i]] on unit
    cells the code returns [|i*1 + 1*i|^2 = 4], whereas the
    conjugate-weighted overlap is [|-i*1 + 1*i|^2 = 0]. *)
Lemma FieldDetector_forward_not_conjugated :
  exists det out,
    Elements.FieldDetector_init (PyTensor (ComplexTensor weight_i_1))
      0 (1, 1) (0, 0) = Ok det
    /\ PlanarGeometry.is_same_geometry (Elements.fd_geometry det)
         (Field.geometry field_1_i) = true
    /\ Elements.FieldDetector_forward no_geometry_str det (PyField field_1_i)
       = Ok out
    /\ nth 0 (Tensor.data out) 0 = 4
    /\ Rsqr (Cx.abs (conj_overlap weight_i_1 (Field.data field_1_i)
                       (PlanarGeometry.cell_area (Elements.fd_geometry det))
                       1 2 0 0)) = 0
    /\ nth 0 (Tensor.data out) 0
       <> Rsqr (Cx.abs (conj_overlap weight_i_1 (Field.data field_1_i)
                          (PlanarGeometry.cell_area (Elements.fd_geometry det))
                          1 2 0 0)).
Proof.
  destruct (FieldDetector_forward_entries no_geometry_str
              weight_i_1 1 1 2 0 (1, 1) (0, 0)
              {| Elements.fd_geometry := unit_geometry_1x2;
                 Elements.fd_weight := weight_i_1 |}
              field_1_i []
              eq_refl eq_refl FieldDetector_init_weight_i_1
              field_1_i_scalar
              (is_same_geometry_refl _))
    as (out & Hfw & _ & _ & Hent).
  exists {| Elements.fd_geometry := unit_geometry_1x2;
            Elements.fd_weight := weight_i_1 |}, out.
  assert (E4 : nth 0 (Tensor.data out) 0 = 4).
  { change (nth 0 (Tensor.data out) 0)
      with (nth (0 * 1 + 0) (Tensor.data out) 0).
    rewrite (Hent 0%nat 0%nat) by (simpl; lia). rewrite CxFacts.abs_square.
    unfold overlap, big, Cx.norm2, Cx.scale, Cx.mul, Cx.add, Cx.zero,
      Tensor.get3, Tensor.get_plane, PlanarGeometry.cell_area; simpl. ring. }
  assert (E0 : Rsqr (Cx.abs (conj_overlap weight_i_1 (Field.data field_1_i)
                       (PlanarGeometry.cell_area unit_geometry_1x2) 1 2 0 0)) = 0).
  { rewrite CxFacts.abs_square.
    unfold conj_overlap, big, Cx.norm2, Cx.scale, Cx.mul, Cx.add, Cx.conj,
      Cx.zero, Tensor.get3, Tensor.get_plane, PlanarGeometry.cell_area; simpl.
    ring. }
  repeat split.
  - exact FieldDetector_init_weight_i_1.
  - apply is_same_geometry_refl.
  - exact Hfw.
  - exact E4.
  - exact E0.
  - cbn [Elements.fd_geometry]. rewrite E4, E0. lra.
Qed.

Lemma IntensityDetector_init_weight_2_3 :
  Elements.IntensityDetector_init (PyTensor (RealTensor weight_2_3)) 0 (1, 1) (0, 0)
  = Ok {| Elements.id_geometry := unit_geometry_1x2;
          Elements.id_weight := weight_2_3 |}.
Proof.
  unfold Elements.IntensityDetector_init.
  cbn [Elements._validate_weight tt_dim tt_shape
       weight_2_3 Tensor.shape length Nat.eqb negb bind].
  unfold Elements.planar_shape_of_weight. cbn [tt_shape Tensor.shape tl].
  rewrite PlanarGeometry_init_unit by (simpl; lia). reflexivity.
Qed.

(** C6 (witness) - the theorem at a one-channel detector with weight
    [[2, 3]] over a 1 x 2 grid of unit cells and the field [[1, i]], which
    has no leading axes. *)
Lemma IntensityDetector_forward_weighted_sum_witness :
  exists out,
    Elements.IntensityDetector_forward no_geometry_str
      {| Elements.id_geometry := unit_geometry_1x2;
         Elements.id_weight := weight_2_3 |} (PyField field_1_i) = Ok out
    /\ Tensor.shape out = [1%nat]
    /\ length (Tensor.data out) = 1%nat
    /\ forall b c, (b < 1)%nat -> (c < 1)%nat ->
         nth (b * 1 + c) (Tensor.data out) 0
         = big 0 Rplus 1 (fun i => big 0 Rplus 2 (fun j =>
             Tensor.get3 0 weight_2_3 c i j
             * Tensor.get_plane 0 (Field.intensity field_1_i) b i j))
           * PlanarGeometry.cell_area unit_geometry_1x2.
Proof.
  apply (IntensityDetector_forward_weighted_sum no_geometry_str
           weight_2_3 1 1 2 0 (1, 1) (0, 0)
           {| Elements.id_geometry := unit_geometry_1x2;
              Elements.id_weight := weight_2_3 |} field_1_i []).
  - reflexivity.
  - reflexivity.
  - exact IntensityDetector_init_weight_2_3.
  - exact field_1_i_scalar.
  - apply is_same_geometry_refl.
Defined.

(* ===================================================================== *)
(** ** Geometry validation comes first in every [forward] *)
(* ===================================================================== *)

Section ValidationFirst.

Import Elements.

Variable geometry_str : PlanarGeometry.t -> string.
Variable polarized_modulate : Field.t -> Tensor.t Cx.C -> result Field.t.

Lemma bind_Raise {A B} (m : result A) (k : A -> result B) e :
  m = Raise e -> bind m k = Raise e.
Proof. intros ->. reflexivity. Qed.

(** C4 - [validate_field_geometry] raises a TypeError for an argument that
    is not a Field-family instance, raises a ValueError whose message holds
    the geometry strings of the field and of the element when the
    geometries differ, and returns normally otherwise; and whenever it
    raises, each of the five [forward] methods raises that same exception,
    whatever the profile or weight, so no transform has been performed and
    no new field or tensor is produced. *)
Theorem validate_field_geometry_first
    (self : PlanarGeometry.t) (x : pyobj) :
  (isinstance_Field x = false ->
     validate_field_geometry geometry_str self x
     = Raise (TypeError ("Expected field to be a Field, but got "
                         ++ type_name x ++ ".")))
  /\ (forall f, x = PyField f ->
        PlanarGeometry.is_same_geometry self (Field.geometry f) = false ->
        validate_field_geometry geometry_str self x
        = Raise (ValueError
                   ("Expected field to have same geometry as element:"
                    ++ nl ++ "Field geometry:   "
                    ++ geometry_str (Field.geometry f)
                    ++ nl ++ "Element geometry: " ++ geometry_str self)))
  /\ (forall f, x = PyField f ->
        PlanarGeometry.is_same_geometry self (Field.geometry f) = true ->
        validate_field_geometry geometry_str self x = Ok tt)
  /\ (forall e, validate_field_geometry geometry_str self x = Raise e ->
        (forall profile,
            ModulationElement_forward geometry_str
              {| me_geometry := self; modulation_profile := profile |} x
            = Raise e)
        /\ (forall profile,
              PolarizedModulationElement_forward geometry_str
                polarized_modulate
                {| pme_geometry := self;
                   polarized_modulation_profile := profile |} x
              = Raise e)
        /\ Detector_forward geometry_str {| det_geometry := self |} x
           = Raise e
        /\ (forall weight,
              IntensityDetector_forward geometry_str
                {| id_geometry := self; id_weight := weight |} x
              = Raise e)
        /\ (forall weight,
              FieldDetector_forward geometry_str
                {| fd_geometry := self; fd_weight := weight |} x
              = Raise e)).
Proof.
  split; [|split; [|split]].
  - intros Hx. destruct x; try reflexivity. discriminate.
  - intros f -> Hg. unfold validate_field_geometry. rewrite Hg. reflexivity.
  - intros f -> Hg. unfold validate_field_geometry. rewrite Hg. reflexivity.
  - intros e He. repeat split; intros;
      (unfold ModulationElement_forward, PolarizedModulationElement_forward,
         Detector_forward, IntensityDetector_forward, FieldDetector_forward;
       apply bind_Raise; exact He).
Qed.

End ValidationFirst.

(** C4 (witness) - a string is rejected with a TypeError and a field on a
    1 x 2 grid is rejected by an element on a 2 x 1 grid with a ValueError,
    by [validate_field_geometry] and by [FieldDetector.forward]. *)
Lemma validate_field_geometry_first_witness :
  Elements.validate_field_geometry no_geometry_str unit_geometry_1x2
    (PyStr "Wrong type")
  = Raise (TypeError "Expected field to be a Field, but got str.")
  /\ is_ValueError
       (Elements.validate_field_geometry no_geometry_str unit_geometry_2x1
          (PyField field_1_i)) = true
  /\ Elements.validate_field_geometry no_geometry_str unit_geometry_1x2
       (PyField field_1_i) = Ok tt
  /\ Elements.FieldDetector_forward no_geometry_str
       {| Elements.fd_geometry := unit_geometry_1x2;
          Elements.fd_weight := weight_i_1 |} (PyStr "Wrong type")
     = Raise (TypeError "Expected field to be a Field, but got str.").
Proof.
  destruct (validate_field_geometry_first no_geometry_str
              no_polarized_modulate unit_geometry_1x2 (PyStr "Wrong type"))
    as (Hty & _ & _ & Hfw).
  destruct (validate_field_geometry_first no_geometry_str
              no_polarized_modulate unit_geometry_2x1 (PyField field_1_i))
    as (_ & Hval & _ & _).
  destruct (validate_field_geometry_first no_geometry_str
              no_polarized_modulate unit_geometry_1x2 (PyField field_1_i))
    as (_ & _ & Hok & _).
  split; [|split; [|split]].
  - apply Hty. reflexivity.
  - rewrite (Hval field_1_i eq_refl); [reflexivity|].
    unfold PlanarGeometry.is_same_geometry. reflexivity.
  - apply (Hok field_1_i eq_refl).
    apply is_same_geometry_refl.
  - apply (Hfw _ (Hty eq_refl)).
Defined.

(* ===================================================================== *)
(** ** Field construction *)
(* ===================================================================== *)

Lemma cdouble_shape x : Tensor.shape (cdouble x) = tt_shape x.
Proof. destruct x; reflexivity. Qed.

Lemma trailing_length k (s : list nat) :
  (k <= length s)%nat -> length (Tensor.trailing k s) = k.
Proof. intros H. unfold Tensor.trailing. rewrite length_skipn. lia. Qed.

Lemma trailing_2_planar (s : list nat) :
  (2 <= length s)%nat ->
  Tensor.trailing 2 s = [fst (planar_shape s); snd (planar_shape s)].
Proof.
  intros H. pose proof (trailing_length 2 s H) as L.
  unfold planar_shape.
  destruct (Tensor.trailing 2 s) as [|a [|b [|c l]]]; try discriminate.
  reflexivity.
Qed.

(** The data check that accepts leading axes passes the repository's tests;
    the check for exactly two dimensions does not. *)
Lemma Field_validate_data_passes_tests :
  tests_of_Field_data Field_validate_data = true.
Proof. reflexivity. Qed.

Lemma Field_validate_data_exactly_2d_fails_tests :
  tests_of_Field_data Field_validate_data_exactly_2d = false.
Proof. reflexivity. Qed.

Lemma Rleb_pos_0 x : 0 < x -> Rleb x 0 = false.
Proof. intros H. apply Rleb_false. exact H. Qed.

Lemma PlanarGeometry_init_valid shape z spacing offset :
  (0 < fst shape)%nat -> (0 < snd shape)%nat ->
  0 < fst spacing -> 0 < snd spacing ->
  PlanarGeometry_init shape z spacing offset
  = Ok (PlanarGeometry.make shape z spacing offset).
Proof.
  intros H1 H2 H3 H4. unfold PlanarGeometry_init.
  apply Nat.ltb_lt in H1, H2. rewrite H1, H2.
  rewrite !Rleb_pos_0 by assumption. reflexivity.
Qed.

(** C3 (amended) - A Field's data tensor has at least two dimensions and
    its last two dimensions equal the geometry's shape; leading axes are
    accepted.  Constructing a Field from a non-tensor raises a TypeError,
    from a tensor with fewer than two dimensions a ValueError, and from a
    tensor with two or more dimensions and valid geometry arguments it
    succeeds, with the data upcast to complex. *)
Theorem Field_init_data_contract
    (data : pyobj) (wavelength z : R) (spacing offset : R * R) :
  ((forall x, data <> PyTensor x) ->
     is_TypeError (Field_init data wavelength z spacing offset) = true)
  /\ (forall x, data = PyTensor x -> (tt_dim x < 2)%nat ->
        is_ValueError (Field_init data wavelength z spacing offset) = true)
  /\ (forall x, data = PyTensor x -> (2 <= tt_dim x)%nat ->
        (0 < fst (planar_shape (tt_shape x)))%nat ->
        (0 < snd (planar_shape (tt_shape x)))%nat ->
        0 < fst spacing -> 0 < snd spacing -> 0 < wavelength ->
        exists f,
          Field_init data wavelength z spacing offset = Ok f
          /\ Field.data f = cdouble x)
  /\ (forall f, Field_init data wavelength z spacing offset = Ok f ->
        (2 <= Tensor.dim (Field.data f))%nat
        /\ Tensor.trailing 2 (Tensor.shape (Field.data f))
           = [fst (PlanarGeometry.shape (Field.geometry f));
              snd (PlanarGeometry.shape (Field.geometry f))]).
Proof.
  split; [|split; [|split]].
  - intros Hnt. unfold Field_init, Field_validate_data.
    destruct data; try reflexivity. exfalso. apply (Hnt x). reflexivity.
  - intros x -> Hd. unfold Field_init, Field_validate_data.
    apply Nat.ltb_lt in Hd. rewrite Hd. reflexivity.
  - intros x -> Hd H1 H2 H3 H4 H5. unfold Field_init, Field_validate_data.
    assert (E : Nat.ltb (tt_dim x) 2 = false) by (apply Nat.ltb_ge; exact Hd).
    rewrite E. cbn [bind].
    rewrite PlanarGeometry_init_valid by assumption. cbn [bind].
    rewrite Rleb_pos_0 by assumption.
    eexists; split; reflexivity.
  - intros f. unfold Field_init, Field_validate_data.
    destruct data; try discriminate.
    destruct (Nat.ltb (tt_dim x) 2) eqn:E; [discriminate|].
    apply Nat.ltb_ge in E. cbn [bind].
    destruct (PlanarGeometry_init _ _ _ _) as [g|] eqn:Hg; [|discriminate].
    apply PlanarGeometry_init_Ok in Hg. cbn [bind].
    destruct (Rleb wavelength 0); [discriminate|].
    intros [= <-]. cbn [Field.data Field.geometry].
    unfold Tensor.dim. rewrite cdouble_shape. subst g.
    cbn [PlanarGeometry.shape]. split; [exact E|].
    apply trailing_2_planar. exact E.
Qed.

(** C3 (witness) - the contract at [torch.ones(10, 11)], unit spacing and
    unit wavelength. *)
Lemma Field_init_data_contract_witness :
  exists f,
    Field_init (PyTensor (ones [10; 11]%nat)) 1 0 (1, 1) (0, 0) = Ok f
    /\ Field.data f = cdouble (ones [10; 11]%nat)
    /\ (2 <= Tensor.dim (Field.data f))%nat
    /\ Tensor.trailing 2 (Tensor.shape (Field.data f))
       = [fst (PlanarGeometry.shape (Field.geometry f));
          snd (PlanarGeometry.shape (Field.geometry f))].
Proof.
  destruct (Field_init_data_contract
              (PyTensor (ones [10; 11]%nat)) 1 0 (1, 1) (0, 0))
    as (_ & _ & Hok & Hinv).
  destruct (Hok (ones [10; 11]%nat) eq_refl) as (f & Hf & Hd).
  - unfold tt_dim; simpl; lia.
  - simpl; lia.
  - simpl; lia.
  - simpl; lra.
  - simpl; lra.
  - lra.
  - exists f. split; [exact Hf|]. split; [exact Hd|]. exact (Hinv f Hf).
Defined.

(** C3 (counterexample) - the Field of [test_elements.py], built from
    [torch.ones(3, 64, 64)] with spacing 1e-5 and wavelength 700e-9, is
    constructed without error although its data is 3-dimensional; its
    geometry's shape is the last two dimensions. *)
Lemma Field_init_accepts_3d_data :
  exists f,
    Field_init (PyTensor (ones [3; 64; 64]%nat))
      (7 / 10000000) 0 (1 / 100000, 1 / 100000) (0, 0) = Ok f
    /\ Tensor.dim (Field.data f) = 3%nat
    /\ Tensor.dim (Field.data f) <> 2%nat
    /\ PlanarGeometry.shape (Field.geometry f) = (64%nat, 64%nat)
    /\ is_ValueError
         (Field_init (PyTensor (ones [3; 64; 64]%nat))
            (7 / 10000000) 0 (1 / 100000, 1 / 100000) (0, 0)) = false.
Proof.
  assert (E : Field_init (PyTensor (ones [3; 64; 64]%nat))
                (7 / 10000000) 0 (1 / 100000, 1 / 100000) (0, 0)
              = Ok (Field.make Field.Field (cdouble (ones [3; 64; 64]%nat))
                      (PlanarGeometry.make (64%nat, 64%nat) 0
                         (1 / 100000, 1 / 100000) (0, 0))
                      (7 / 10000000))).
  { unfold Field_init. cbn [Field_validate_data ones tt_dim tt_shape
      Tensor.shape length Nat.ltb Nat.leb bind].
    rewrite PlanarGeometry_init_valid; [|simpl; lia|simpl; lia|simpl; lra|simpl; lra].
    cbn [bind]. rewrite Rleb_pos_0 by lra. reflexivity. }
  eexists. split; [exact E|]. rewrite E.
  repeat split. unfold Tensor.dim. simpl. lia.
Qed.

(* ===================================================================== *)
(** ** Scaling the data of a field *)
(* ===================================================================== *)

Lemma nth_map_fix {A} (g : A -> A) (l : list A) (k : nat) (d : A) :
  g d = d -> nth k (List.map g l) d = g (nth k l d).
Proof. intros H. rewrite <- H at 1. apply map_nth. Qed.

Lemma chunks_map {A B} (g : A -> B) n k (l : list A) :
  chunks n k (List.map g l) = List.map (List.map g) (chunks n k l).
Proof.
  revert l. induction k as [|k IH]; intros l; simpl; [reflexivity|].
  rewrite firstn_map, skipn_map, IH. reflexivity.
Qed.

Lemma flat_map_pointwise {A B} (F G : A -> list B) (l : list A) :
  (forall a, F a = G a) -> flat_map F l = flat_map G l.
Proof.
  intros H. induction l as [|a l IH]; simpl; [reflexivity|].
  rewrite H, IH. reflexivity.
Qed.

Lemma flat_map_of_map {A B C} (g : A -> B) (F : B -> list C) (l : list A) :
  flat_map F (List.map g l) = flat_map (fun a => F (g a)) l.
Proof.
  induction l as [|a l IH]; simpl; [reflexivity|]. rewrite IH. reflexivity.
Qed.

Lemma map_of_flat_map {A B C} (h : B -> C) (F : A -> list B) (l : list A) :
  List.map h (flat_map F l) = flat_map (fun a => List.map h (F a)) l.
Proof.
  induction l as [|a l IH]; simpl; [reflexivity|].
  rewrite map_app, IH. reflexivity.
Qed.

Lemma Rsum_scale c (l : list R) :
  fold_right Rplus 0 (List.map (Rmult c) l) = c * fold_right Rplus 0 l.
Proof.
  induction l as [|a l IH]; simpl; [ring|]. rewrite IH. ring.
Qed.

Lemma scale_zero k : Cx.scale k Cx.zero = Cx.zero.
Proof. apply CxFacts.eq_intro; unfold Cx.scale, Cx.zero; simpl; ring. Qed.

(** Scaling the data by a real [k] scales the intensity of a Field or a
    PolarizedField by [k * k], and that of a CoherenceField by [k]. *)
Lemma intensity_with_scaled_data (f : Field.t) (k : R) :
  Tensor.data
    (Field.intensity
       (Field.with_data f
          (List.map (Cx.scale k) (Tensor.data (Field.data f)))))
  = List.map
      (Rmult (match Field.klass f with
              | Field.CoherenceField => k
              | _ => k * k
              end))
      (Tensor.data (Field.intensity f)).
Proof.
  unfold Field.intensity, Field.with_data.
  cbn [Field.klass Field.data Tensor.shape Tensor.data].
  destruct (Field.klass f); cbn [Tensor.map Tensor.data Tensor.shape].
  - rewrite !map_map. apply map_ext. intros a. apply CxFacts.norm2_scale.
  - rewrite chunks_map, flat_map_of_map, map_of_flat_map.
    apply flat_map_pointwise. intros chunk.
    rewrite map_map. apply map_ext. intros q.
    unfold big. simpl.
    rewrite !nth_map_fix by apply scale_zero.
    rewrite !CxFacts.norm2_scale. ring.
  - rewrite chunks_map, flat_map_of_map, map_of_flat_map.
    apply flat_map_pointwise. intros chunk.
    rewrite map_map. apply map_ext. intros q.
    rewrite nth_map_fix by apply scale_zero. reflexivity.
Qed.

Lemma power_with_scaled_data (f : Field.t) (k : R) :
  Field.power
    (Field.with_data f (List.map (Cx.scale k) (Tensor.data (Field.data f))))
  = (match Field.klass f with
     | Field.CoherenceField => k
     | _ => k * k
     end) * Field.power f.
Proof.
  unfold Field.power. rewrite intensity_with_scaled_data, Rsum_scale.
  cbn [Field.with_data Field.geometry]. ring.
Qed.

(** C7 - For a field of strictly positive power and a target [P > 0],
    [normalize] returns a new field whose power is [P]; for a field of zero
    power it raises a ValueError and returns no field. *)
Theorem normalize_power (f : Field.t) (P : R) :
  (0 < Field.power f -> 0 < P ->
     exists f', normalize f P = Ok f' /\ Field.power f' = P)
  /\ (Field.power f = 0 -> is_ValueError (normalize f P) = true).
Proof.
  split.
  - intros Hp HP. unfold normalize.
    assert (E : Reqb (Field.power f) 0 = false) by (apply Reqb_false; lra).
    rewrite E. eexists; split; [reflexivity|].
    rewrite power_with_scaled_data.
    assert (Hr : 0 <= P / Field.power f).
    { apply Rlt_le, Rdiv_lt_0_compat; assumption. }
    destruct (Field.klass f).
    + rewrite sqrt_sqrt by exact Hr. field. lra.
    + rewrite sqrt_sqrt by exact Hr. field. lra.
    + field. lra.
  - intros H0. unfold normalize. rewrite H0, Reqb_refl. reflexivity.
Qed.

Lemma power_field_1_i : Field.power field_1_i = 2.
Proof.
  unfold Field.power, Field.intensity, PlanarGeometry.cell_area, Cx.norm2.
  simpl. ring.
Qed.

Lemma power_field_zero : Field.power field_zero = 0.
Proof.
  unfold Field.power, Field.intensity, PlanarGeometry.cell_area, Cx.norm2.
  simpl. ring.
Qed.

(** C7 (witness) - the field [[1, i]] on unit cells has power 2 and is
    normalized to power 5; the all-zero field is rejected. *)
Lemma normalize_power_witness :
  (exists f', normalize field_1_i 5 = Ok f' /\ Field.power f' = 5)
  /\ is_ValueError (normalize field_zero 5) = true.
Proof.
  split.
  - apply (proj1 (normalize_power field_1_i 5)).
    + rewrite power_field_1_i. lra.
    + lra.
  - apply (proj2 (normalize_power field_zero 5)).
    exact power_field_zero.
Defined.

(* ===================================================================== *)
(** ** Coherent fields and their mutual coherence *)
(* ===================================================================== *)

Lemma nth_map_seq {B} (F : nat -> B) (m k : nat) (d : B) :
  (k < m)%nat -> nth k (List.map F (seq 0 m)) d = F k.
Proof.
  intros Hk. rewrite nth_map_lt with (d := O) by (rewrite length_seq; exact Hk).
  rewrite seq_nth by exact Hk. reflexivity.
Qed.

Lemma map_seq_nth {A B} (g : A -> B) (l : list A) (d : A) :
  List.map (fun k => g (nth k l d)) (seq 0 (length l)) = List.map g l.
Proof.
  induction l as [|a l IH]; simpl; [reflexivity|].
  f_equal. rewrite <- seq_shift, map_map. exact IH.
Qed.

Lemma nth_combine_seq {A} (l : list A) (q : nat) (d : A) :
  (q < length l)%nat ->
  nth q (combine (seq 0 (length l)) l) (O, d) = (q, nth q l d).
Proof.
  intros Hq. rewrite combine_nth by apply length_seq.
  rewrite seq_nth by exact Hq. reflexivity.
Qed.

Lemma length_combine_seq {A} (l : list A) :
  length (combine (seq 0 (length l)) l) = length l.
Proof. rewrite length_combine, length_seq. lia. Qed.

(** A list of [p * n] entries that agrees entrywise with a table is that
    table. *)
Lemma flat_table_ext {A} (l : list A) (T : nat -> nat -> A) (p n : nat) (d : A) :
  length l = (p * n)%nat ->
  (forall i j, (i < p)%nat -> (j < n)%nat -> nth (i * n + j) l d = T i j) ->
  l = flat_map (fun i => List.map (T i) (seq 0 n)) (seq 0 p).
Proof.
  intros Hl Hn.
  assert (Hlen : length (flat_map (fun i => List.map (T i) (seq 0 n)) (seq 0 p))
                 = (p * n)%nat).
  { rewrite length_flat_map_rect with (n := n).
    - rewrite length_seq. reflexivity.
    - intros a. rewrite length_map, length_seq. reflexivity. }
  apply nth_ext with (d := d) (d' := d); [congruence|].
  intros Q HQ. rewrite Hl in HQ.
  assert (n <> 0)%nat by (intros ->; lia).
  assert (HQn : (Q = (Q / n) * n + Q mod n)%nat).
  { rewrite Nat.mul_comm. apply Nat.div_mod_eq. }
  assert (Hi : (Q / n < p)%nat).
  { apply Nat.Div0.div_lt_upper_bound. lia. }
  assert (Hj : (Q mod n < n)%nat) by (apply Nat.mod_upper_bound; assumption).
  rewrite HQn.
  rewrite Hn by assumption.
  rewrite nth_flat_map_rect with (n := n) (da := O);
    [|intros a; rewrite length_map, length_seq; reflexivity
     |rewrite length_seq; exact Hi|exact Hj].
  rewrite seq_nth by exact Hi.
  rewrite nth_map_seq by exact Hj. reflexivity.
Qed.

(** The data of [outer2d a b] as a table. *)
Lemma outer2d_table (a b : Tensor.t Cx.C) :
  Tensor.data (outer2d a b)
  = flat_map (fun i =>
      List.map (fun j => Cx.mul (nth i (Tensor.data a) Cx.zero)
                                (Cx.conj (nth j (Tensor.data b) Cx.zero)))
               (seq 0 (length (Tensor.data b))))
      (seq 0 (length (Tensor.data a))).
Proof.
  unfold outer2d. cbn [Tensor.data]. symmetry.
  rewrite flat_map_pointwise
    with (G := fun i => List.map (fun y => Cx.mul (nth i (Tensor.data a) Cx.zero)
                                                  (Cx.conj y))
                                 (Tensor.data b))
    by (intros i; apply map_seq_nth with (g := fun y => Cx.mul _ (Cx.conj y))).
  rewrite <- flat_map_of_map
    with (g := fun i => nth i (Tensor.data a) Cx.zero)
         (F := fun x => List.map (fun y => Cx.mul x (Cx.conj y)) (Tensor.data b)).
  rewrite map_seq_nth with (g := fun x => x). rewrite map_id. reflexivity.
Qed.

Lemma outer2d_length (a b : Tensor.t Cx.C) :
  length (Tensor.data (outer2d a b))
  = (length (Tensor.data a) * length (Tensor.data b))%nat.
Proof.
  unfold outer2d. cbn [Tensor.data].
  apply length_flat_map_rect. intros x. apply length_map.
Qed.

Lemma nth_outer2d (a b : Tensor.t Cx.C) (i j : nat) :
  (i < length (Tensor.data a))%nat -> (j < length (Tensor.data b))%nat ->
  nth (i * length (Tensor.data b) + j) (Tensor.data (outer2d a b)) Cx.zero
  = Cx.mul (nth i (Tensor.data a) Cx.zero)
           (Cx.conj (nth j (Tensor.data b) Cx.zero)).
Proof.
  intros Hi Hj. unfold outer2d. cbn [Tensor.data].
  rewrite nth_flat_map_rect with (n := length (Tensor.data b)) (da := Cx.zero);
    [|intros x; apply length_map|exact Hi|exact Hj].
  rewrite nth_map_lt with (d := Cx.zero) by exact Hj. reflexivity.
Qed.

Lemma coherent_pair_intensity (F G : Field.t) :
  coherent_pair F G -> Field.intensity G = Field.intensity F.
Proof.
  intros ((Hk & Hs & Hwf) & HkG & Hd & Hg & Hl).
  unfold Field.intensity. rewrite Hk, HkG, Hd.
  unfold Tensor.well_formed in Hwf. rewrite Hs, numel_2 in Hwf.
  set (H := fst (PlanarGeometry.shape (Field.geometry F))) in *.
  set (W := snd (PlanarGeometry.shape (Field.geometry F))) in *.
  unfold Tensor.map. rewrite Hs.
  cbn [outer2d Tensor.shape]. rewrite Hs.
  cbn [app Tensor.leading Tensor.trailing length Nat.sub skipn firstn].
  rewrite numel_2. f_equal.
  cbn [Tensor.numel fold_right chunks flat_map].
  rewrite app_nil_r.
  rewrite firstn_all2 by (rewrite outer2d_length, Hwf; lia).
  rewrite <- Hwf.
  rewrite <- map_seq_nth with (d := Cx.zero).
  apply map_ext_in. intros k Hk'. apply in_seq in Hk'.
  rewrite nth_outer2d by lia.
  apply CxFacts.mul_conj_re.
Qed.

Lemma div_mod_rect (i j n : nat) :
  (j < n)%nat -> ((i * n + j) / n = i /\ (i * n + j) mod n = j)%nat.
Proof.
  intros Hj. split.
  - rewrite Nat.div_add_l by lia. rewrite Nat.div_small by exact Hj. lia.
  - rewrite Nat.add_comm, Nat.Div0.mod_add. apply Nat.mod_small. exact Hj.
Qed.

(** Entry [q] of the data of a modulated scalar field. *)
Lemma nth_modulated (l : list Cx.C) (factor : nat -> Cx.C) (q : nat) :
  (q < length l)%nat ->
  nth q (Field.mul_entries factor l) Cx.zero
  = Cx.mul (nth q l Cx.zero) (factor q).
Proof.
  intros Hq. unfold Field.mul_entries.
  rewrite nth_map_lt with (d := (O, Cx.zero))
    by (rewrite length_combine_seq; exact Hq).
  rewrite nth_combine_seq by exact Hq. reflexivity.
Qed.

Lemma length_modulated (l : list Cx.C) (factor : nat -> Cx.C) :
  length (Field.mul_entries factor l) = length l.
Proof. unfold Field.mul_entries. rewrite length_map. apply length_combine_seq. Qed.

Lemma coherent_pair_shapes (F G : Field.t) :
  coherent_pair F G ->
  let H := fst (PlanarGeometry.shape (Field.geometry F)) in
  let W := snd (PlanarGeometry.shape (Field.geometry F)) in
  Tensor.shape (Field.data F) = [H; W]
  /\ Tensor.shape (Field.data G) = [H; W; H; W]
  /\ length (Tensor.data (Field.data F)) = (H * W)%nat
  /\ length (Tensor.data (Field.data G)) = (H * W * (H * W))%nat.
Proof.
  intros ((Hk & Hs & Hwf) & HkG & Hd & Hg & Hl) H W.
  unfold Tensor.well_formed in Hwf. rewrite Hs, numel_2 in Hwf.
  repeat split.
  - exact Hs.
  - rewrite Hd. unfold outer2d. cbn [Tensor.shape]. rewrite Hs. reflexivity.
  - exact Hwf.
  - rewrite Hd, outer2d_length, Hwf. reflexivity.
Qed.

(** Two lists of [n * n] entries that agree with the outer product of a
    list of [n] entries are the data of that outer product. *)
Lemma outer2d_data_ext (l : list Cx.C) (a : Tensor.t Cx.C) :
  length l = (length (Tensor.data a) * length (Tensor.data a))%nat ->
  (forall i j, (i < length (Tensor.data a))%nat ->
               (j < length (Tensor.data a))%nat ->
     nth (i * length (Tensor.data a) + j) l Cx.zero
     = Cx.mul (nth i (Tensor.data a) Cx.zero)
              (Cx.conj (nth j (Tensor.data a) Cx.zero))) ->
  l = Tensor.data (outer2d a a).
Proof.
  intros Hl Hn. rewrite outer2d_table.
  apply flat_table_ext with (d := Cx.zero); assumption.
Qed.

Lemma modulate_coherent_pair (F G : Field.t) (p : Tensor.t Cx.C) (F' : Field.t) :
  coherent_pair F G ->
  Field.modulate F p = Ok F' ->
  exists G', Field.modulate G p = Ok G' /\ coherent_pair F' G'.
Proof.
  intros HP HF.
  destruct (coherent_pair_shapes F G HP) as (HsF & HsG & HlF & HlG).
  destruct HP as ((Hk & Hs & Hwf) & HkG & Hd & Hg & Hl).
  set (H := fst (PlanarGeometry.shape (Field.geometry F))) in *.
  set (W := snd (PlanarGeometry.shape (Field.geometry F))) in *.
  unfold Field.modulate in *. rewrite HsF in HF. rewrite HsG.
  cbn [Tensor.trailing length Nat.sub skipn] in *.
  destruct (list_eq_dec Nat.eq_dec [H; W] (Tensor.shape p)) as [Hp|Hp];
    [|discriminate].
  rewrite Hk in HF. rewrite HkG.
  injection HF as <-.
  eexists; split; [reflexivity|].
  rewrite <- Hp, numel_2.
  unfold coherent_pair, Field.is_scalar2d, Field.with_data, Tensor.well_formed.
  cbn [Field.klass Field.data Field.geometry Field.wavelength
       Tensor.shape Tensor.data].
  rewrite length_modulated, HsF, numel_2.
  repeat split; try assumption.
  unfold outer2d at 1. cbn [Tensor.shape]. rewrite HsG.
  f_equal.
  apply outer2d_data_ext; cbn [Tensor.data]; rewrite !length_modulated.
  - rewrite HlG, HlF. reflexivity.
  - intros i j Hi Hj. rewrite HlF in *.
    assert (HQ : (i * (H * W) + j < H * W * (H * W))%nat) by nia.
    rewrite !nth_modulated by lia.
    destruct (div_mod_rect i j (H * W) Hj) as [-> ->].
    rewrite !Nat.mod_small by assumption.
    rewrite Hd. rewrite <- HlF at 1. rewrite nth_outer2d by lia.
    rewrite CxFacts.conj_mul. ring.
Qed.

Lemma Rsum_norm2_nonneg (l : list Cx.C) :
  0 <= fold_right Rplus 0 (List.map Cx.norm2 l).
Proof.
  induction l as [|a l IH]; simpl; [lra|].
  pose proof (CxFacts.norm2_nonneg a). lra.
Qed.

Lemma scalar_power_nonneg (F : Field.t) :
  Field.klass F = Field.Field ->
  0 < PlanarGeometry.cell_area (Field.geometry F) ->
  0 <= Field.power F.
Proof.
  intros Hk Ha. unfold Field.power, Field.intensity. rewrite Hk.
  cbn [Tensor.map Tensor.data].
  apply Rmult_le_pos; [apply Rsum_norm2_nonneg | lra].
Qed.

Lemma coherent_pair_power (F G : Field.t) :
  coherent_pair F G -> Field.power G = Field.power F.
Proof.
  intros HP. unfold Field.power.
  rewrite (coherent_pair_intensity F G HP).
  destruct HP as (_ & _ & _ & -> & _). reflexivity.
Qed.

Lemma normalize_coherent_pair (F G : Field.t) (P : R) (F' : Field.t) :
  coherent_pair F G ->
  0 < PlanarGeometry.cell_area (Field.geometry F) ->
  0 <= P ->
  normalize F P = Ok F' ->
  exists G', normalize G P = Ok G' /\ coherent_pair F' G'.
Proof.
  intros HP Ha HPos HF.
  pose proof (coherent_pair_power F G HP) as Hpw.
  destruct (coherent_pair_shapes F G HP) as (HsF & HsG & HlF & HlG).
  destruct HP as ((Hk & Hs & Hwf) & HkG & Hd & Hg & Hl).
  pose proof (scalar_power_nonneg F Hk Ha) as Hnn.
  unfold normalize in *. rewrite Hpw.
  destruct (Reqb (Field.power F) 0) eqn:E; [discriminate|].
  apply Reqb_false in E.
  rewrite Hk in HF. rewrite HkG. injection HF as <-.
  eexists; split; [reflexivity|].
  assert (Hr : 0 <= P / Field.power F).
  { apply Rmult_le_pos; [exact HPos|].
    apply Rlt_le, Rinv_0_lt_compat. lra. }
  set (r := P / Field.power F) in *.
  unfold coherent_pair, Field.is_scalar2d, Field.with_data, Tensor.well_formed.
  cbn [Field.klass Field.data Field.geometry Field.wavelength
       Tensor.shape Tensor.data].
  rewrite length_map.
  repeat split; try assumption.
  unfold outer2d at 1. cbn [Tensor.shape Tensor.data]. rewrite HsG, HsF.
  cbn [app]. f_equal.
  rewrite Hd. unfold outer2d. cbn [Tensor.data].
  rewrite map_of_flat_map, flat_map_of_map.
  apply flat_map_pointwise. intros x.
  rewrite !map_map. apply map_ext. intros y.
  apply CxFacts.eq_intro; unfold Cx.scale, Cx.mul, Cx.conj; simpl;
    rewrite <- (sqrt_sqrt r Hr) at 1; ring.
Qed.

Lemma Cx_conj_big n f :
  Cx.conj (big Cx.zero Cx.add n f)
  = big Cx.zero Cx.add n (fun k => Cx.conj (f k)).
Proof.
  revert f. induction n as [|n IH]; intros f.
  - rewrite !big_0. apply CxFacts.conj_zero.
  - rewrite !big_S, CxFacts.conj_add, IH. reflexivity.
Qed.

Lemma Cx_big_mul_r n f c :
  Cx.mul (big Cx.zero Cx.add n f) c
  = big Cx.zero Cx.add n (fun k => Cx.mul (f k) c).
Proof.
  apply big_mul_r; [exact CxFacts.mul_add_distr_r | exact CxFacts.mul_zero_l].
Qed.

Section PropagationFacts.

Variable default_spacing : R * R.
Variable propagator :
  PlanarGeometry.t -> R -> PlanarGeometry.t -> result (nat -> nat -> Cx.C).

Lemma length_apply_propagator K n m plane :
  length (apply_propagator K n m plane) = m.
Proof. unfold apply_propagator. rewrite length_map, length_seq. reflexivity. Qed.

Lemma nth_apply_propagator K n m plane u :
  (u < m)%nat ->
  nth u (apply_propagator K n m plane) Cx.zero
  = big Cx.zero Cx.add n (fun x => Cx.mul (K u x) (nth x plane Cx.zero)).
Proof.
  intros Hu. unfold apply_propagator.
  apply (nth_map_seq
           (fun u => big Cx.zero Cx.add n
                       (fun x => Cx.mul (K u x) (nth x plane Cx.zero)))).
  exact Hu.
Qed.

(** Propagating the coherence of a field [psi] over both coordinate pairs
    gives the coherence of the propagated field. *)
Lemma apply_propagator_outer K n m (psi : Tensor.t Cx.C) :
  length (Tensor.data psi) = n ->
  apply_propagator_second K n m
    (apply_propagator_first K n m (Tensor.data (outer2d psi psi)))
  = Tensor.data
      (outer2d
         (Tensor.make [m] (apply_propagator K n m (Tensor.data psi)))
         (Tensor.make [m] (apply_propagator K n m (Tensor.data psi)))).
Proof.
  intros Hn.
  apply outer2d_data_ext; cbn [Tensor.data];
    rewrite !length_apply_propagator.
  - unfold apply_propagator_second.
    rewrite length_flat_map_rect with (n := m).
    + rewrite length_seq. reflexivity.
    + intros a. rewrite length_map, length_seq. reflexivity.
  - intros i j Hi Hj.
    unfold apply_propagator_second.
    rewrite nth_flat_map_rect with (n := m) (da := O);
      [|intros a; rewrite length_map, length_seq; reflexivity
       |rewrite length_seq; exact Hi|exact Hj].
    rewrite seq_nth by exact Hi. rewrite nth_map_seq by exact Hj.
    cbn [Nat.add].
    rewrite !nth_apply_propagator by assumption.
    rewrite CxFacts.mul_comm, Cx_conj_big, Cx_big_mul_r.
    apply big_ext. intros x2 Hx2.
    unfold apply_propagator_first.
    rewrite nth_flat_map_rect with (n := n) (da := O);
      [|intros a; rewrite length_map, length_seq; reflexivity
       |rewrite length_seq; exact Hi|exact Hx2].
    rewrite seq_nth by exact Hi. rewrite nth_map_seq by exact Hx2.
    cbn [Nat.add].
    rewrite CxFacts.conj_mul.
    rewrite (CxFacts.mul_comm (Cx.mul (Cx.conj (K j x2)) _)).
    rewrite Cx_big_mul_r.
    rewrite (CxFacts.mul_comm (Cx.conj (K j x2))), Cx_big_mul_r.
    apply big_ext. intros x1 Hx1.
    rewrite <- Hn at 1. rewrite nth_outer2d by lia.
    ring.
Qed.

Lemma propagate_coherent_pair (F G : Field.t)
    (shape : nat * nat) (z : R) (spacing offset : option (R * R))
    (F' : Field.t) :
  coherent_pair F G ->
  propagate default_spacing propagator F shape z spacing offset = Ok F' ->
  exists G',
    propagate default_spacing propagator G shape z spacing offset = Ok G'
    /\ coherent_pair F' G'.
Proof.
  intros HP HF.
  destruct (coherent_pair_shapes F G HP) as (HsF & HsG & HlF & HlG).
  destruct HP as ((Hk & Hs & Hwf) & HkG & Hd & Hg & Hl).
  set (H := fst (PlanarGeometry.shape (Field.geometry F))) in *.
  set (W := snd (PlanarGeometry.shape (Field.geometry F))) in *.
  unfold propagate in *. rewrite Hg, Hl.
  destruct (PlanarGeometry_init shape z _ _) as [dst|] eqn:Hdst;
    [|discriminate].
  apply PlanarGeometry_init_Ok in Hdst. cbn [bind] in *.
  destruct (propagator _ _ dst) as [K|]; [|discriminate]. cbn [bind] in *.
  assert (Hc : Field.cells G = Field.cells F).
  { unfold Field.cells. rewrite Hg. reflexivity. }
  rewrite Hc. unfold Field.cells in *. fold H W in HF |- *.
  rewrite Hk in HF. rewrite HkG. rewrite HsF in HF. rewrite HsG.
  cbn [Tensor.leading length Nat.sub firstn Tensor.numel fold_right
       chunks flat_map app] in *.
  rewrite app_nil_r in *.
  rewrite firstn_all2 in HF by lia.
  rewrite firstn_all2 by lia.
  injection HF as <-.
  eexists; split; [reflexivity|].
  unfold coherent_pair, Field.is_scalar2d, Tensor.well_formed.
  cbn [Field.klass Field.data Field.geometry Field.wavelength
       Tensor.shape Tensor.data].
  rewrite length_apply_propagator, numel_2. subst dst.
  cbn [PlanarGeometry.shape].
  repeat split.
  unfold outer2d at 1. cbn [Tensor.shape Tensor.data app]. f_equal.
  rewrite Hd. rewrite apply_propagator_outer by exact HlF.
  reflexivity.
Qed.

End PropagationFacts.

Lemma coherent_pair_of (F : Field.t) :
  Field.is_scalar2d F -> coherent_pair F (CoherenceField_of F).
Proof. intros HF. repeat split; try apply HF. Qed.

(** C2 - For a scalar field and the CoherenceField built from the outer
    product of its data with itself, the intensities are equal; and after
    the same modulation, the same propagation (to any destination shape, z,
    spacing and offset) or normalization to the same target power, the
    results are again such a pair, so their intensities are equal too. *)
Theorem coherence_intensity_preserved
    (default_spacing : R * R)
    (propagator :
       PlanarGeometry.t -> R -> PlanarGeometry.t
       -> result (nat -> nat -> Cx.C))
    (F G : Field.t) :
  coherent_pair F G ->
  0 < PlanarGeometry.cell_area (Field.geometry F) ->
  Field.intensity G = Field.intensity F
  /\ (forall profile F',
        Field.modulate F profile = Ok F' ->
        exists G',
          Field.modulate G profile = Ok G'
          /\ coherent_pair F' G'
          /\ Field.intensity G' = Field.intensity F')
  /\ (forall shape z spacing offset F',
        propagate default_spacing propagator F shape z spacing offset = Ok F' ->
        exists G',
          propagate default_spacing propagator G shape z spacing offset = Ok G'
          /\ coherent_pair F' G'
          /\ Field.intensity G' = Field.intensity F')
  /\ (forall P F',
        0 <= P ->
        normalize F P = Ok F' ->
        exists G',
          normalize G P = Ok G'
          /\ coherent_pair F' G'
          /\ Field.intensity G' = Field.intensity F').
Proof.
  intros HP Ha. split; [|split; [|split]].
  - apply coherent_pair_intensity. exact HP.
  - intros profile F' HF.
    destruct (modulate_coherent_pair F G profile F' HP HF) as (G' & HG & HP').
    exists G'. split; [exact HG|]. split; [exact HP'|].
    apply coherent_pair_intensity. exact HP'.
  - intros shape z spacing offset F' HF.
    destruct (propagate_coherent_pair default_spacing propagator
                F G shape z spacing offset F' HP HF) as (G' & HG & HP').
    exists G'. split; [exact HG|]. split; [exact HP'|].
    apply coherent_pair_intensity. exact HP'.
  - intros P F' HPos HF.
    destruct (normalize_coherent_pair F G P F' HP Ha HPos HF)
      as (G' & HG & HP').
    exists G'. split; [exact HG|]. split; [exact HP'|].
    apply coherent_pair_intensity. exact HP'.
Qed.

Lemma cell_area_unit_1x2 : 0 < PlanarGeometry.cell_area unit_geometry_1x2.
Proof. unfold PlanarGeometry.cell_area. simpl. lra. Qed.

(** C2 (witness) - the theorem at the field [[1, i]] on unit cells and its
    coherence. *)
Lemma coherence_intensity_preserved_witness :
  Field.intensity (CoherenceField_of field_1_i) = Field.intensity field_1_i
  /\ (forall P F',
        0 <= P ->
        normalize field_1_i P = Ok F' ->
        exists G',
          normalize (CoherenceField_of field_1_i) P = Ok G'
          /\ coherent_pair F' G'
          /\ Field.intensity G' = Field.intensity F').
Proof.
  destruct (coherence_intensity_preserved (1, 1) identity_propagator
              field_1_i (CoherenceField_of field_1_i)
              (coherent_pair_of field_1_i field_1_i_scalar2d)
              cell_area_unit_1x2)
    as (Hi & _ & _ & Hn).
  split; [exact Hi | exact Hn].
Defined.


(* ===================================================================== *)
(** ** Padding of the angular-spectrum method *)
(* ===================================================================== *)

Lemma length_flat_map_rect_in {A B} (F : A -> list B) (n : nat) (l : list A) :
  (forall a, In a l -> length (F a) = n) ->
  length (flat_map F l) = (length l * n)%nat.
Proof.
  induction l as [|a l IH]; intros HF; simpl; [reflexivity|].
  rewrite length_app. rewrite HF by (simpl; auto).
  rewrite IH by (intros; apply HF; simpl; auto). reflexivity.
Qed.

Lemma nth_flat_map_rect_in {A B} (F : A -> list B) (n : nat) (da : A) (d : B) :
  forall (l : list A) (i j : nat),
    (forall a, In a l -> length (F a) = n) ->
    (i < length l)%nat -> (j < n)%nat ->
    nth (i * n + j) (flat_map F l) d = nth j (F (nth i l da)) d.
Proof.
  induction l as [|a l IH]; intros i j HF Hi Hj; simpl in Hi; [lia|].
  assert (Ha : length (F a) = n) by (apply HF; simpl; auto).
  destruct i as [|i]; simpl.
  - rewrite app_nth1 by (rewrite Ha; exact Hj). reflexivity.
  - rewrite app_nth2 by (rewrite Ha; lia).
    rewrite Ha. replace (n + i * n + j - n)%nat with (i * n + j)%nat by lia.
    apply IH; [intros; apply HF; simpl; auto|lia|exact Hj].
Qed.

Lemma chunks_rows_length {A} (w h : nat) (plane : list A) :
  length plane = (h * w)%nat ->
  forall row, In row (chunks w h plane) -> length row = w.
Proof.
  revert plane. induction h as [|h IH]; intros plane Hl row Hin;
    simpl in Hin; [contradiction|].
  destruct Hin as [<-|Hin].
  - rewrite length_firstn. simpl in Hl. lia.
  - apply (IH (skipn w plane)); [|exact Hin].
    rewrite length_skipn. simpl in Hl. lia.
Qed.

Lemma nth_zeros n k : nth k (ASM.zeros n) Cx.zero = Cx.zero.
Proof.
  unfold ASM.zeros. apply nth_repeat.
Qed.

Lemma length_zeros n : length (ASM.zeros n) = n.
Proof. apply repeat_length. Qed.

Lemma length_pad_row p (row : list Cx.C) :
  length (ASM.pad_row p row) = (p + length row + p)%nat.
Proof.
  unfold ASM.pad_row. rewrite !length_app, !length_zeros. lia.
Qed.

Lemma nth_pad_row p (row : list Cx.C) j :
  nth j (ASM.pad_row p row) Cx.zero
  = if (Nat.leb p j && Nat.ltb j (p + length row))%bool
    then nth (j - p) row Cx.zero else Cx.zero.
Proof.
  unfold ASM.pad_row.
  destruct (Nat.leb_spec p j) as [Hp|Hp]; cbn [andb].
  - rewrite app_nth2 by (rewrite length_zeros; lia). rewrite length_zeros.
    destruct (Nat.ltb_spec j (p + length row)) as [Hj|Hj].
    + rewrite app_nth1 by lia. reflexivity.
    + rewrite app_nth2 by lia. apply nth_zeros.
  - rewrite app_nth1 by (rewrite length_zeros; lia). apply nth_zeros.
Qed.

Lemma length_pad_plane p0 p1 h w (plane : list Cx.C) :
  length plane = (h * w)%nat ->
  length (ASM.pad_plane p0 p1 h w plane)
  = ((1 + 2 * p0) * h * ((1 + 2 * p1) * w))%nat.
Proof.
  intros Hl. unfold ASM.pad_plane.
  rewrite !length_app, !length_zeros.
  rewrite length_flat_map_rect_in with (n := ((1 + 2 * p1) * w)%nat).
  - rewrite chunks_length. lia.
  - intros row Hin. rewrite length_pad_row.
    rewrite (chunks_rows_length w h plane Hl row Hin). lia.
Qed.

Lemma nth_pad_plane p0 p1 h w (plane : list Cx.C) i j :
  length plane = (h * w)%nat ->
  (j < (1 + 2 * p1) * w)%nat ->
  nth (i * ((1 + 2 * p1) * w) + j) (ASM.pad_plane p0 p1 h w plane) Cx.zero
  = if (Nat.leb (p0 * h) i && Nat.ltb i ((p0 + 1) * h)
        && Nat.leb (p1 * w) j && Nat.ltb j ((p1 + 1) * w))%bool
    then nth ((i - p0 * h) * w + (j - p1 * w)) plane Cx.zero
    else Cx.zero.
Proof.
  intros Hl Hj. unfold ASM.pad_plane.
  set (W' := ((1 + 2 * p1) * w)%nat) in *.
  assert (Hrows : forall row, In row (chunks w h plane) ->
                    length (ASM.pad_row (p1 * w) row) = W').
  { intros row Hin. rewrite length_pad_row.
    rewrite (chunks_rows_length w h plane Hl row Hin). unfold W'. lia. }
  assert (Hmid : length (flat_map (ASM.pad_row (p1 * w)) (chunks w h plane))
                 = (h * W')%nat).
  { rewrite length_flat_map_rect_in with (n := W') by exact Hrows.
    rewrite chunks_length. reflexivity. }
  destruct (Nat.leb_spec (p0 * h) i) as [Hlo|Hlo]; cbn [andb].
  - rewrite app_nth2 by (rewrite length_zeros; nia).
    rewrite length_zeros.
    replace (i * W' + j - p0 * h * W')%nat
      with ((i - p0 * h) * W' + j)%nat by nia.
    destruct (Nat.ltb_spec i ((p0 + 1) * h)) as [Hhi|Hhi]; cbn [andb].
    + rewrite app_nth1 by (rewrite Hmid; nia).
      rewrite nth_flat_map_rect_in with (n := W') (da := []);
        [|exact Hrows|rewrite chunks_length; lia|exact Hj].
      rewrite nth_pad_row.
      rewrite chunks_nth by lia.
      rewrite firstn_skipn_length by (rewrite Hl; nia).
      replace (p1 * w + w)%nat with ((p1 + 1) * w)%nat by lia.
      destruct (Nat.leb (p1 * w) j && Nat.ltb j ((p1 + 1) * w))%bool eqn:E;
        [|reflexivity].
      apply andb_prop in E. destruct E as [E1 E2].
      apply Nat.leb_le in E1. apply Nat.ltb_lt in E2.
      apply nth_firstn_skipn. lia.
    + rewrite app_nth2 by (rewrite Hmid; nia). apply nth_zeros.
  - rewrite app_nth1 by (rewrite length_zeros; nia). apply nth_zeros.
Qed.

(** Zero padding by the pad factor is the central embedding into a zero
    grid of the padded size. *)
Lemma pad_is_embed (p : nat * nat) (x : Tensor.t Cx.C) (n0 n1 : nat) :
  Tensor.shape x = [n0; n1] -> Tensor.well_formed x ->
  ASM.pad p x = ASM.embed p x.
Proof.
  intros Hs Hwf. destruct p as [p0 p1].
  unfold Tensor.well_formed in Hwf. rewrite Hs, numel_2 in Hwf.
  unfold ASM.pad, ASM.embed, ASM.slice_assign, ASM.zeros2d. rewrite Hs.
  cbn [Tensor.trailing Tensor.leading length Nat.sub skipn firstn app
       Tensor.numel fold_right chunks flat_map Tensor.shape].
  rewrite app_nil_r. f_equal.
  rewrite firstn_all2 by lia.
  apply flat_table_ext with (d := Cx.zero).
  - apply length_pad_plane. exact Hwf.
  - intros i j Hi Hj.
    rewrite nth_pad_plane by assumption.
    unfold Tensor.get2. rewrite Hs. cbn [Tensor.shape Tensor.data].
    rewrite nth_zeros. reflexivity.
Qed.

Lemma pad_zero_factor (x : Tensor.t Cx.C) (n0 n1 : nat) :
  Tensor.shape x = [n0; n1] -> Tensor.well_formed x ->
  ASM.pad (O, O) x = x.
Proof.
  intros Hs Hwf. rewrite (pad_is_embed (O, O) x n0 n1 Hs Hwf).
  unfold Tensor.well_formed in Hwf. rewrite Hs, numel_2 in Hwf.
  unfold ASM.embed, ASM.slice_assign, ASM.zeros2d. rewrite Hs.
  cbn [Tensor.shape Nat.mul Nat.add].
  rewrite !Nat.add_0_r.
  destruct x as [s d]. cbn [Tensor.shape Tensor.data] in *. subst s.
  f_equal. symmetry.
  apply flat_table_ext with (d := Cx.zero); [exact Hwf|].
  intros i j Hi Hj.
  destruct (Nat.ltb_spec i n0); [|lia].
  destruct (Nat.ltb_spec j n1); [|lia].
  cbn [Nat.leb andb]. unfold Tensor.get2. cbn [Tensor.shape Tensor.data].
  rewrite !Nat.sub_0_r. reflexivity.
Qed.

Lemma padded_geometry_zero_factor (g : PlanarGeometry.t) :
  ASM.padded_geometry (O, O) g = g.
Proof.
  destruct g as [[a b] z s o]. unfold ASM.padded_geometry.
  cbn [fst snd PlanarGeometry.shape PlanarGeometry.z PlanarGeometry.spacing
       PlanarGeometry.offset Nat.mul Nat.add].
  rewrite !Nat.add_0_r. reflexivity.
Qed.

Lemma pad_shape_2d (p : nat * nat) (x : Tensor.t Cx.C) (n0 n1 : nat) :
  Tensor.shape x = [n0; n1] -> Tensor.well_formed x ->
  Tensor.shape (ASM.pad p x)
  = [((1 + 2 * fst p) * n0)%nat; ((1 + 2 * snd p) * n1)%nat]
  /\ Tensor.well_formed (ASM.pad p x).
Proof.
  intros Hs Hwf. destruct p as [p0 p1].
  unfold Tensor.well_formed in *. rewrite Hs, numel_2 in Hwf.
  unfold ASM.pad. rewrite Hs.
  cbn [Tensor.trailing Tensor.leading length Nat.sub skipn firstn app
       Tensor.numel fold_right chunks flat_map Tensor.shape Tensor.data
       fst snd].
  split; [reflexivity|].
  rewrite app_nil_r, firstn_all2 by lia.
  rewrite length_pad_plane by exact Hwf. lia.
Qed.

(** C8 - Angular-spectrum propagation of a field of shape (N0, N1) with pad
    factor (p0, p1) gives the same result, at the same destination plane,
    as propagation with pad factor 0 of the field whose data is the same
    data embedded centrally in a zero grid of size
    ((1 + 2 p0) N0, (1 + 2 p1) N1), with the same z, spacing, offset and
    wavelength. *)
Theorem asm_pad_factor_is_embedding
    (transform :
       Tensor.t Cx.C -> PlanarGeometry.t -> R -> PlanarGeometry.t
       -> result (Tensor.t Cx.C))
    (f : Field.t) (asm_pad_factor : nat * nat) (dst : PlanarGeometry.t) :
  Field.is_scalar2d f ->
  Tensor.shape (Field.data (ASM.embedded_field asm_pad_factor f))
  = [((1 + 2 * fst asm_pad_factor)
      * fst (PlanarGeometry.shape (Field.geometry f)))%nat;
     ((1 + 2 * snd asm_pad_factor)
      * snd (PlanarGeometry.shape (Field.geometry f)))%nat]
  /\ PlanarGeometry.spacing (Field.geometry (ASM.embedded_field asm_pad_factor f))
     = PlanarGeometry.spacing (Field.geometry f)
  /\ ASM.asm_propagation transform f asm_pad_factor dst
     = ASM.asm_propagation transform
         (ASM.embedded_field asm_pad_factor f) (O, O) dst.
Proof.
  intros (Hk & Hs & Hwf).
  destruct (pad_shape_2d asm_pad_factor (Field.data f) _ _ Hs Hwf)
    as (Hps & Hpwf).
  pose proof (pad_is_embed asm_pad_factor (Field.data f) _ _ Hs Hwf) as He.
  unfold ASM.embedded_field, ASM.asm_propagation.
  cbn [Field.data Field.geometry Field.wavelength Field.klass].
  rewrite <- He.
  split; [exact Hps|]. split; [reflexivity|].
  rewrite (pad_zero_factor _ _ _ Hps Hpwf).
  rewrite padded_geometry_zero_factor. reflexivity.
Qed.

(** C8 (witness) - the theorem at the field [[1, i]] and the pad factor
    (3, 2) of the test. *)
Lemma asm_pad_factor_is_embedding_witness :
  Tensor.shape (Field.data (ASM.embedded_field (3%nat, 2%nat) field_1_i))
  = [7%nat; 10%nat]
  /\ PlanarGeometry.spacing
       (Field.geometry (ASM.embedded_field (3%nat, 2%nat) field_1_i))
     = (1, 1)
  /\ ASM.asm_propagation crop_transform field_1_i (3%nat, 2%nat)
       unit_geometry_1x2
     = ASM.asm_propagation crop_transform
         (ASM.embedded_field (3%nat, 2%nat) field_1_i) (O, O)
         unit_geometry_1x2.
Proof.
  apply (asm_pad_factor_is_embedding crop_transform field_1_i
           (3%nat, 2%nat) unit_geometry_1x2).
  exact field_1_i_scalar2d.
Defined.

(* ===================================================================== *)
(** ** Profiles *)
(* ===================================================================== *)

Section ProfileFacts.

Import Profiles.

Lemma length_map2 {A B C} (f : A -> B -> C) (a : list A) (b : list B) :
  length a = length b -> length (map2 f a b) = length a.
Proof.
  intros H. unfold map2. rewrite length_map, length_combine. lia.
Qed.

Lemma nth_map2 {A B C} (f : A -> B -> C) (a : list A) (b : list B)
    (k : nat) (da : A) (db : B) (d : C) :
  length a = length b -> (k < length a)%nat ->
  nth k (map2 f a b) d = f (nth k a da) (nth k b db).
Proof.
  intros H Hk. unfold map2.
  rewrite nth_map_lt with (d := (da, db))
    by (rewrite length_combine; lia).
  rewrite combine_nth by exact H. reflexivity.
Qed.

Lemma meshgrid_length (g : PlanarGeometry.t) :
  length (fst (meshgrid g))
  = (fst (PlanarGeometry.shape g) * snd (PlanarGeometry.shape g))%nat
  /\ length (snd (meshgrid g))
     = (fst (PlanarGeometry.shape g) * snd (PlanarGeometry.shape g))%nat.
Proof.
  unfold meshgrid. destruct (PlanarGeometry.shape g) as [h w].
  cbn [fst snd]. split.
  - rewrite length_flat_map_rect with (n := w).
    + rewrite length_seq. reflexivity.
    + intros a. rewrite length_map, length_seq. reflexivity.
  - rewrite length_flat_map_rect with (n := w).
    + rewrite length_seq. reflexivity.
    + intros a. rewrite length_map, length_seq. reflexivity.
Qed.

Lemma nth_pairwise_diff (x : list R) (p q : nat) :
  (p < length x)%nat -> (q < length x)%nat ->
  nth (p * length x + q) (pairwise_diff x) 0 = nth p x 0 - nth q x 0.
Proof.
  intros Hp Hq. unfold pairwise_diff.
  rewrite nth_flat_map_rect with (n := length x) (da := 0);
    [|intros a; apply length_map|exact Hp|exact Hq].
  rewrite nth_map_lt with (d := 0) by exact Hq. reflexivity.
Qed.

Lemma length_pairwise_diff (x : list R) :
  length (pairwise_diff x) = (length x * length x)%nat.
Proof.
  unfold pairwise_diff. apply length_flat_map_rect.
  intros a. apply length_map.
Qed.

Lemma nth_outer2d_real (a : list XR.t) (p q : nat) :
  (p < length a)%nat -> (q < length a)%nat ->
  nth (p * length a + q) (outer2d_real a a) XR.NaN
  = XR.mul (nth p a XR.NaN) (nth q a XR.NaN).
Proof.
  intros Hp Hq. unfold outer2d_real.
  rewrite nth_flat_map_rect with (n := length a) (da := XR.NaN);
    [|intros u; apply length_map|exact Hp|exact Hq].
  rewrite nth_map_lt with (d := XR.NaN) by exact Hq. reflexivity.
Qed.

Lemma length_outer2d_real (a : list XR.t) :
  length (outer2d_real a a) = (length a * length a)%nat.
Proof.
  unfold outer2d_real. apply length_flat_map_rect.
  intros u. apply length_map.
Qed.



Lemma nth_pairwise_diff_n (x : list R) (n p q : nat) :
  length x = n -> (p < n)%nat -> (q < n)%nat ->
  nth (p * n + q) (pairwise_diff x) 0 = nth p x 0 - nth q x 0.
Proof. intros <- Hp Hq. apply nth_pairwise_diff; assumption. Qed.

End ProfileFacts.

(* ===================================================================== *)
(** ** Doubles as rounded reals *)
(* ===================================================================== *)

Section RoundedFacts.

Variable rnd : R -> XR.t.

Hypothesis rnd_not_nan : forall v, rnd v <> XR.NaN.

Lemma round_is_nan (a : XR.t) :
  XR.is_nan (Doubles.round rnd a) = XR.is_nan a.
Proof.
  destruct a; try reflexivity. cbn [Doubles.round XR.is_nan].
  destruct (rnd r) eqn:E; try reflexivity. elim (rnd_not_nan r E).
Qed.

Lemma rnd_is_nan (v : R) : XR.is_nan (rnd v) = false.
Proof. exact (round_is_nan (XR.Fin v)). Qed.

(** The square of a double that is not NaN is not NaN. *)
Lemma square_is_nan (q : XR.t) :
  XR.is_nan q = false ->
  XR.is_nan (Doubles.round rnd (XR.mul q q)) = false.
Proof.
  intros H. rewrite round_is_nan. destruct q; try reflexivity. discriminate H.
Qed.

(** A double that is not NaN, divided by a nonzero finite double, is not
    NaN. *)
Lemma div_is_nan (m : XR.t) (v : R) :
  XR.is_nan m = false -> v <> 0 ->
  XR.is_nan (Doubles.round rnd (XR.div m (XR.Fin v))) = false.
Proof.
  intros H Hv. rewrite round_is_nan.
  assert (E : Reqb v 0 = false) by (apply Reqb_false; exact Hv).
  destruct m; cbn [XR.div]; try rewrite E; try reflexivity.
  - destruct (Rleb 0 v); reflexivity.
  - destruct (Rleb 0 v); reflexivity.
  - discriminate H.
Qed.

End RoundedFacts.

(* ===================================================================== *)
(** ** The Airy profile *)
(* ===================================================================== *)

(** An entry of [t[mask] = value] where [t] and [mask] are computed
    elementwise from one tensor. *)
Lemma nth_masked_fill_map {A B} (f : A -> B) (m : A -> bool) (l : list A)
    (value : B) (k : nat) (d : A) (d' : B) :
  (k < length l)%nat ->
  nth k (Profiles.masked_fill (List.map f l) (List.map m l) value) d'
  = if m (nth k l d) then value else f (nth k l d).
Proof.
  intros Hk. unfold Profiles.masked_fill.
  rewrite nth_map2 with (da := d') (db := false)
    by (rewrite !length_map; lia).
  rewrite nth_map_lt with (d := d) by lia.
  rewrite nth_map_lt with (d := d) by lia. reflexivity.
Qed.

Section AiryFacts.

Variable rnd : R -> XR.t.

Let ops : Doubles.Ops XR.t := Doubles.rounded rnd.

Local Existing Instance ops.

Variable meshgrid_of :
  nat * nat -> XR.t * XR.t -> XR.t * XR.t -> result (list XR.t * list XR.t).

Variable bessel_j1 : XR.t -> XR.t.

(** C10 - Over doubles with any rounding that returns no NaN, and a
    [bessel_j1] that is finite at finite arguments: for a shape, spacing and
    offset that [PlanarGeometry] accepts, [airy] returns a tensor of the
    shape in which the entry at a grid point is exactly 1 where the computed
    radius [r] equals 0, and the computed value of [(2 J1(s) / s)^2] for
    [s = r / scale] elsewhere.  The entry is not NaN where the computed
    quotient [s] is a nonzero finite number.  Where [r] is not 0 and the
    quotient underflows to 0, the entry is NaN: [2 J1(0) / 0] is [0 / 0],
    and the assignment at [r == 0] does not reach that point. *)
Theorem airy_values
    (shape : nat * nat) (scale : XR.t) (spacing offset : XR.t * XR.t)
    (x y : list XR.t) :
  (forall v, rnd v <> XR.NaN) ->
  (forall v, exists u, bessel_j1 (XR.Fin v) = XR.Fin u) ->
  meshgrid_of shape spacing offset = Ok (x, y) ->
  length x = (fst shape * snd shape)%nat ->
  length y = (fst shape * snd shape)%nat ->
  exists t,
    Doubles.airy meshgrid_of bessel_j1 shape scale spacing offset
    = Ok t
    /\ Tensor.shape t = [fst shape; snd shape]
    /\ length (Tensor.data t) = (fst shape * snd shape)%nat
    /\ forall k, (k < fst shape * snd shape)%nat ->
         let xk := nth k x XR.NaN in
         let yk := nth k y XR.NaN in
         let r :=
           Doubles.d_sqrt
             (Doubles.d_add (Doubles.d_mul xk xk) (Doubles.d_mul yk yk)) in
         let s := Doubles.d_div r scale in
         let q :=
           Doubles.d_div
             (Doubles.d_mul Doubles.d_two (bessel_j1 s)) s in
         let e := nth k (Tensor.data t) XR.NaN in
         (Doubles.d_eqb r Doubles.d_zero = true -> e = XR.Fin 1)
         /\ (Doubles.d_eqb r Doubles.d_zero = false ->
             e = Doubles.d_mul q q)
         /\ (forall v, s = XR.Fin v -> v <> 0 -> XR.is_nan e = false)
         /\ (Doubles.d_eqb r Doubles.d_zero = false ->
             s = XR.Fin 0 -> rnd 0 = XR.Fin 0 ->
             bessel_j1 (XR.Fin 0) = XR.Fin 0 -> e = XR.NaN).
Proof.
  intros Hrnd Hj Hm Lx Ly. unfold Doubles.airy. rewrite Hm. cbn [bind fst snd].
  set (n := (fst shape * snd shape)%nat) in *.
  set (fr := fun x y : XR.t =>
               Doubles.d_sqrt
                 (Doubles.d_add (Doubles.d_mul x x) (Doubles.d_mul y y))).
  set (r := Profiles.map2 fr x y).
  rewrite map_map.
  assert (Lr : length r = n).
  { unfold r. rewrite length_map2; congruence. }
  eexists. split; [reflexivity|]. cbn [Tensor.shape Tensor.data].
  split; [reflexivity|]. split.
  { unfold Profiles.masked_fill.
    rewrite length_map2; rewrite !length_map; congruence. }
  intros k Hk. cbv zeta.
  rewrite nth_masked_fill_map with (d := XR.NaN) by lia.
  unfold r. rewrite nth_map2 with (da := XR.NaN) (db := XR.NaN) by lia.
  unfold fr.
  set (rk := Doubles.d_sqrt
               (Doubles.d_add
                  (Doubles.d_mul (nth k x XR.NaN) (nth k x XR.NaN))
                  (Doubles.d_mul (nth k y XR.NaN) (nth k y XR.NaN)))).
  set (s := Doubles.d_div rk scale).
  set (q := Doubles.d_div (Doubles.d_mul Doubles.d_two (bessel_j1 s)) s).
  split; [intros ->; reflexivity|].
  split; [intros ->; reflexivity|].
  split.
  - intros v Hs Hv.
    destruct (Doubles.d_eqb rk Doubles.d_zero); [reflexivity|].
    cbn [Doubles.d_mul Doubles.rounded]. apply square_is_nan; [exact Hrnd|].
    unfold q. rewrite Hs. cbn [Doubles.d_div Doubles.rounded].
    apply div_is_nan; [exact Hrnd| |exact Hv].
    destruct (Hj v) as [u ->].
    cbn [Doubles.d_mul Doubles.d_two Doubles.rounded XR.mul Doubles.round].
    apply rnd_is_nan. exact Hrnd.
  - intros -> Hs H0 Hj0. unfold q. rewrite Hs, Hj0.
    unfold ops.
    cbn [Doubles.d_mul Doubles.d_div Doubles.d_two Doubles.rounded XR.mul
         Doubles.round].
    replace (2 * 0) with 0 by ring. rewrite H0.
    cbn [XR.div]. rewrite Reqb_refl. reflexivity.
Qed.

End AiryFacts.
(* ===================================================================== *)
(** ** The Gaussian Schell model over doubles *)
(* ===================================================================== *)

Section DoublesBuffers.

Context {D : Type} {ops : Doubles.Ops D}.

Lemma Doubles_length_pairwise_diff (x : list D) :
  length (Doubles.pairwise_diff x) = (length x * length x)%nat.
Proof.
  unfold Doubles.pairwise_diff. apply length_flat_map_rect.
  intros a. apply length_map.
Qed.

Lemma Doubles_nth_pairwise_diff (x : list D) (n p q : nat) (d : D) :
  length x = n -> (p < n)%nat -> (q < n)%nat ->
  nth (p * n + q) (Doubles.pairwise_diff x) d
  = Doubles.d_sub (nth p x d) (nth q x d).
Proof.
  intros <- Hp Hq. unfold Doubles.pairwise_diff.
  rewrite nth_flat_map_rect with (n := length x) (da := d);
    [|intros a; apply length_map|exact Hp|exact Hq].
  rewrite nth_map_lt with (d := d) by exact Hq. reflexivity.
Qed.

Lemma Doubles_length_outer2d (a : list D) :
  length (Doubles.outer2d a a) = (length a * length a)%nat.
Proof.
  unfold Doubles.outer2d. apply length_flat_map_rect.
  intros u. apply length_map.
Qed.

Lemma Doubles_nth_outer2d (a : list D) (n p q : nat) (d : D) :
  length a = n -> (p < n)%nat -> (q < n)%nat ->
  nth (p * n + q) (Doubles.outer2d a a) d
  = Doubles.d_mul (nth p a d) (nth q a d).
Proof.
  intros <- Hp Hq. unfold Doubles.outer2d.
  rewrite nth_flat_map_rect with (n := length a) (da := d);
    [|intros u; apply length_map|exact Hp|exact Hq].
  rewrite nth_map_lt with (d := d) by exact Hq. reflexivity.
Qed.

Variable meshgrid_of :
  nat * nat -> D * D -> D * D -> result (list D * list D).


(** What a call of [schell_model] that returns has computed. *)
Lemma Doubles_schell_model_Ok
    (shape : nat * nat) intensity_func coherence_func
    (spacing offset : D * D) (x y : list D) (t : Tensor.t D) :
  meshgrid_of shape spacing offset = Ok (x, y) ->
  Doubles.schell_model meshgrid_of shape intensity_func coherence_func
    spacing offset = Ok t ->
  exists intensity coherence,
    intensity_func x y = Ok intensity
    /\ coherence_func (Doubles.pairwise_diff x) (Doubles.pairwise_diff y)
       = Ok coherence
    /\ t = Tensor.make [fst shape; snd shape; fst shape; snd shape]
             (Doubles.mul_coherence
                (List.map Doubles.d_sqrt
                   (Doubles.outer2d intensity intensity))
                coherence).
Proof.
  intros Hm. unfold Doubles.schell_model. rewrite Hm. cbn [bind fst snd].
  destruct (intensity_func x y) as [intensity|]; [|discriminate].
  cbn [bind].
  destruct (coherence_func _ _) as [coherence|]; [|discriminate].
  cbn [bind]. intros [= <-]. exists intensity, coherence.
  repeat split.
Qed.

Lemma Doubles_nth_sqrt_outer (a : list D) (n p q : nat) (d : D) :
  length a = n -> (p < n)%nat -> (q < n)%nat ->
  nth (p * n + q) (List.map Doubles.d_sqrt (Doubles.outer2d a a)) d
  = Doubles.d_sqrt (Doubles.d_mul (nth p a d) (nth q a d)).
Proof.
  intros L Hp Hq.
  rewrite nth_map_lt with (d := d)
    by (rewrite Doubles_length_outer2d, L; nia).
  rewrite Doubles_nth_outer2d by assumption. reflexivity.
Qed.

End DoublesBuffers.

Section RoundedArithmetic.

Variable rnd : R -> XR.t.

Hypothesis rnd_0 : rnd 0 = XR.Fin 0.
Hypothesis rnd_idem : forall u v, rnd u = XR.Fin v -> rnd v = XR.Fin v.






(** Zero divided by a double that is neither 0 nor NaN is 0. *)
Lemma round_zero_div (d : XR.t) :
  Doubles.xr_eqb d (XR.Fin 0) = false -> XR.is_nan d = false ->
  Doubles.round rnd (XR.div (XR.Fin 0) d) = XR.Fin 0.
Proof.
  intros Hd Hn. destruct d as [v| | |]; cbn [XR.div Doubles.round].
  - cbn [Doubles.xr_eqb] in Hd. rewrite Hd.
    apply Reqb_false in Hd. cbn [Doubles.round].
    replace (0 / v) with 0 by (field; exact Hd). exact rnd_0.
  - exact rnd_0.
  - exact rnd_0.
  - discriminate Hn.
Qed.


End RoundedArithmetic.

Section GaussianSchellDoubles.

Variable rnd : R -> XR.t.

Let ops : Doubles.Ops XR.t := Doubles.rounded rnd.

Local Existing Instance ops.

Variable meshgrid_of :
  nat * nat -> XR.t * XR.t -> XR.t * XR.t -> result (list XR.t * list XR.t).

Variable exp : XR.t -> XR.t.

End GaussianSchellDoubles.

(* ===================================================================== *)
(** ** The profiles on small grids *)
(* ===================================================================== *)

Lemma flush_below_1_keep (v : R) : 1 <= Rabs v -> flush_below_1 v = XR.Fin v.
Proof.
  intros H. unfold flush_below_1.
  replace (Rleb 1 (Rabs v)) with true by (symmetry; apply Rleb_true; exact H).
  reflexivity.
Qed.

Lemma flush_below_1_drop (v : R) : Rabs v < 1 -> flush_below_1 v = XR.Fin 0.
Proof.
  intros H. unfold flush_below_1.
  replace (Rleb 1 (Rabs v)) with false
    by (symmetry; apply Rleb_false; exact H).
  reflexivity.
Qed.

Lemma flush_below_1_not_nan (v : R) : flush_below_1 v <> XR.NaN.
Proof. unfold flush_below_1. destruct (Rleb 1 (Rabs v)); discriminate. Qed.



Section ExactExamples.

Local Existing Instance Doubles.exact.

Local Ltac fin_lists :=
  repeat match goal with
         | |- XR.Fin _ = XR.Fin _ => apply f_equal; lra
         | |- cons _ _ = cons _ _ => apply f_equal2
         | |- pair _ _ = pair _ _ => apply f_equal2
         | |- Ok _ = Ok _ => apply f_equal
         | |- nil = nil => reflexivity
         end.

Local Ltac eval_meshgrid :=
  unfold Doubles.meshgrid, Doubles.axis_coordinate;
  cbn [Nat.ltb Nat.leb andb fst snd Doubles.d_ltb Doubles.rounded
       Doubles.exact Doubles.xr_ltb Doubles.d_zero];
  rewrite Rleb_pos_0 by lra;
  cbn [negb andb seq flat_map List.map app Doubles.of_nat Doubles.d_add
       Doubles.d_sub Doubles.d_mul Doubles.d_div Doubles.d_one
       Doubles.d_two Doubles.d_zero Doubles.rounded Doubles.exact
       Doubles.round Doubles.xr_add Doubles.xr_opp XR.mul XR.div];
  replace (Reqb 2 0) with false by (symmetry; apply Reqb_false; lra);
  cbn [Doubles.round XR.mul Doubles.xr_add Doubles.xr_opp];
  fin_lists.

(** The grid of shape (1, 2) with unit spacing, centred at the origin, in
    exact arithmetic: the points [(0, -1/2)] and [(0, 1/2)]. *)
Lemma meshgrid_1x2_exact :
  Doubles.meshgrid (1%nat, 2%nat) (XR.Fin 1, XR.Fin 1) (XR.Fin 0, XR.Fin 0)
  = Ok ([XR.Fin 0; XR.Fin 0], [XR.Fin (- (1 / 2)); XR.Fin (1 / 2)]).
Proof. eval_meshgrid. Qed.

(** The grid of shape (1, 3): the points [(0, -1)], [(0, 0)] and
    [(0, 1)]. *)
Lemma meshgrid_1x3_exact :
  Doubles.meshgrid (1%nat, 3%nat) (XR.Fin 1, XR.Fin 1) (XR.Fin 0, XR.Fin 0)
  = Ok ([XR.Fin 0; XR.Fin 0; XR.Fin 0],
        [XR.Fin (- (1)); XR.Fin 0; XR.Fin 1]).
Proof. eval_meshgrid. Qed.

(** C10 (witness) - the theorem on the grid of the three points [(0, -1)],
    [(0, 0)] and [(0, 1)], with [x / 2] for [bessel_j1].  With exact
    arithmetic as the rounding and [scale = 1], the entry at the origin is
    1 and the entries at the two other points, where [r / scale = 1], are
    not NaN.  With the rounding that flushes magnitudes below 1 to zero and
    [scale = 4], [r = 1] at the first point and [r / scale] is flushed to
    0: the entry is NaN. *)
Lemma airy_values_witness :
  (exists t,
     Doubles.airy Doubles.meshgrid (XR.apply half_argument) (1%nat, 3%nat)
       (XR.Fin 1) (XR.Fin 1, XR.Fin 1) (XR.Fin 0, XR.Fin 0) = Ok t
     /\ Tensor.shape t = [1%nat; 3%nat]
     /\ XR.is_nan (nth 0 (Tensor.data t) XR.NaN) = false
     /\ nth 1 (Tensor.data t) XR.NaN = XR.Fin 1
     /\ XR.is_nan (nth 2 (Tensor.data t) XR.NaN) = false)
  /\ (exists t,
        Doubles.airy (ops := Doubles.rounded flush_below_1)
          Doubles.meshgrid (XR.apply half_argument) (1%nat, 3%nat)
          (XR.Fin 4) (XR.Fin 1, XR.Fin 1) (XR.Fin 0, XR.Fin 0) = Ok t
        /\ nth 0 (Tensor.data t) XR.NaN = XR.NaN).
Proof.
  assert (E1 : Reqb 1 0 = false) by (apply Reqb_false; lra).
  assert (S1 : sqrt (0 * 0 + 1 * 1) = 1).
  { replace (0 * 0 + 1 * 1) with 1 by lra. exact sqrt_1. }
  assert (S1' : sqrt (0 * 0 + - (1) * - (1)) = 1).
  { replace (0 * 0 + - (1) * - (1)) with 1 by lra. exact sqrt_1. }
  split.
  - destruct (airy_values XR.Fin Doubles.meshgrid (XR.apply half_argument)
                (1%nat, 3%nat) (XR.Fin 1) (XR.Fin 1, XR.Fin 1)
                (XR.Fin 0, XR.Fin 0)
                [XR.Fin 0; XR.Fin 0; XR.Fin 0]
                [XR.Fin (- (1)); XR.Fin 0; XR.Fin 1])
      as (t & E & S & _ & P).
    + intros v H. discriminate H.
    + intros v. exists (half_argument v). reflexivity.
    + exact meshgrid_1x3_exact.
    + reflexivity.
    + reflexivity.
    + exists t. split; [exact E|]. split; [exact S|].
      split; [|split].
      * destruct (P 0%nat) as (_ & _ & N & _); [simpl; lia|].
        apply (N (sqrt (0 * 0 + - (1) * - (1)) / 1)); [|rewrite S1'; lra].
        cbn [nth Doubles.d_div Doubles.d_sqrt Doubles.d_add Doubles.d_mul
             Doubles.rounded Doubles.exact Doubles.round XR.mul
             Doubles.xr_add XR.sqrt].
        replace (Rleb 0 (0 * 0 + - (1) * - (1))) with true
          by (symmetry; apply Rleb_true; lra).
        cbn [Doubles.round XR.div]. rewrite E1. reflexivity.
      * destruct (P 1%nat) as (O & _); [simpl; lia|]. apply O.
        cbn [nth Doubles.d_eqb Doubles.d_sqrt Doubles.d_add Doubles.d_mul
             Doubles.d_zero Doubles.rounded Doubles.exact Doubles.round
             XR.mul Doubles.xr_add XR.sqrt].
        replace (Rleb 0 (0 * 0 + 0 * 0)) with true
          by (symmetry; apply Rleb_true; lra).
        cbn [Doubles.round Doubles.xr_eqb]. apply Reqb_true.
        replace (0 * 0 + 0 * 0) with 0 by lra. exact sqrt_0.
      * destruct (P 2%nat) as (_ & _ & N & _); [simpl; lia|].
        apply (N (sqrt (0 * 0 + 1 * 1) / 1)); [|rewrite S1; lra].
        cbn [nth Doubles.d_div Doubles.d_sqrt Doubles.d_add Doubles.d_mul
             Doubles.rounded Doubles.exact Doubles.round XR.mul
             Doubles.xr_add XR.sqrt].
        replace (Rleb 0 (0 * 0 + 1 * 1)) with true
          by (symmetry; apply Rleb_true; lra).
        cbn [Doubles.round XR.div]. rewrite E1. reflexivity.
  - destruct (airy_values flush_below_1 Doubles.meshgrid
                (XR.apply half_argument)
                (1%nat, 3%nat) (XR.Fin 4) (XR.Fin 1, XR.Fin 1)
                (XR.Fin 0, XR.Fin 0)
                [XR.Fin 0; XR.Fin 0; XR.Fin 0]
                [XR.Fin (- (1)); XR.Fin 0; XR.Fin 1])
      as (t & E & _ & _ & P).
    + exact flush_below_1_not_nan.
    + intros v. exists (half_argument v). reflexivity.
    + exact meshgrid_1x3_exact.
    + reflexivity.
    + reflexivity.
    + exists t. split; [exact E|].
      destruct (P 0%nat) as (_ & _ & _ & N); [simpl; lia|].
      assert (F0 : flush_below_1 0 = XR.Fin 0)
        by (apply flush_below_1_drop; rewrite Rabs_R0; lra).
      assert (F1 : flush_below_1 1 = XR.Fin 1)
        by (apply flush_below_1_keep; rewrite Rabs_R1; lra).
      cbn [nth Doubles.d_sqrt Doubles.d_add Doubles.d_mul Doubles.d_div
           Doubles.d_eqb Doubles.d_zero Doubles.rounded Doubles.round
           XR.mul] in N.
      replace (0 * 0) with 0 in N by lra.
      replace (- (1) * - (1)) with 1 in N by lra.
      rewrite F0, F1 in N. cbn [Doubles.xr_add Doubles.round] in N.
      replace (0 + 1) with 1 in N by lra. rewrite F1 in N.
      cbn [XR.sqrt] in N.
      replace (Rleb 0 1) with true in N by (symmetry; apply Rleb_true; lra).
      cbn [Doubles.round] in N. rewrite sqrt_1, F1 in N.
      cbn [XR.div Doubles.xr_eqb] in N.
      replace (Reqb 4 0) with false in N
        by (symmetry; apply Reqb_false; lra).
      cbn [Doubles.round] in N. apply N.
      * exact E1.
      * apply flush_below_1_drop. rewrite Rabs_right by lra. lra.
      * reflexivity.
      * cbn [XR.apply]. f_equal. unfold half_argument. lra.
Defined.


End ExactExamples.

(* ===================================================================== *)
(** ** The profiles in binary64 *)
(* ===================================================================== *)

(** C10 (counterexample) - in binary64, with [scale = 1e308] and a spacing
    of [1e-20] on a grid of shape (1, 2): the two grid points lie at
    [y = -5e-21] and [y = 5e-21], so [r] is not 0 there; the quotient
    [r / scale] underflows to 0, and both entries of the tensor that [airy]
    returns are NaN.  Of [bessel_j1] only the value at 0 matters: every
    function with [J1(0) = 0] gives the same tensor. *)
Lemma airy_returns_nan :
  Doubles.d_ltb Doubles.d_zero F64.double_1e308 = true
  /\ Doubles.d_ltb Doubles.d_zero F64.double_1e_20 = true
  /\ (exists x y t,
        Doubles.meshgrid (1%nat, 2%nat) (F64.double_1e_20, F64.double_1e_20)
          (Doubles.d_zero, Doubles.d_zero) = Ok (x, y)
        /\ Doubles.airy Doubles.meshgrid F64.bessel_j1_near_0 (1%nat, 2%nat)
             F64.double_1e308 (F64.double_1e_20, F64.double_1e_20)
             (Doubles.d_zero, Doubles.d_zero) = Ok t
        /\ Tensor.shape t = [1%nat; 2%nat]
        /\ forall k, (k < 2)%nat ->
             let r :=
               Doubles.d_sqrt
                 (Doubles.d_add
                    (Doubles.d_mul (nth k x Doubles.d_zero)
                                   (nth k x Doubles.d_zero))
                    (Doubles.d_mul (nth k y Doubles.d_zero)
                                   (nth k y Doubles.d_zero))) in
             Doubles.d_eqb r Doubles.d_zero = false
             /\ Doubles.d_eqb (Doubles.d_div r F64.double_1e308)
                  Doubles.d_zero = true
             /\ Doubles.d_is_nan (nth k (Tensor.data t) Doubles.d_zero)
                = true)
  /\ forall bessel_j1 : PrimFloat.float -> PrimFloat.float,
       bessel_j1 Doubles.d_zero = Doubles.d_zero ->
       Doubles.airy Doubles.meshgrid bessel_j1 (1%nat, 2%nat)
         F64.double_1e308 (F64.double_1e_20, F64.double_1e_20)
         (Doubles.d_zero, Doubles.d_zero)
       = Doubles.airy Doubles.meshgrid F64.bessel_j1_near_0 (1%nat, 2%nat)
           F64.double_1e308 (F64.double_1e_20, F64.double_1e_20)
           (Doubles.d_zero, Doubles.d_zero).
Proof.
  split; [vm_compute; reflexivity|]. split; [vm_compute; reflexivity|].
  split.
  - eexists _, _, _. split; [vm_compute; reflexivity|].
    split; [vm_compute; reflexivity|]. split; [reflexivity|].
    intros [|[|k]] Hk; [vm_compute; auto|vm_compute; auto|lia].
  - intros j H. vm_compute. vm_compute in H. rewrite H. vm_compute.
    reflexivity.
Qed.


(* ===================================================================== *)
(** ** Detectors: construction, totals, bounds and scaling *)
(* ===================================================================== *)

Section DetectorConstruction.

Import Elements.

Lemma validate_weight_Ok weight x :
  _validate_weight weight = Ok x ->
  (weight = PyTensor x \/ weight = PyParam x) /\ tt_dim x = 3%nat.
Proof.
  unfold _validate_weight.
  destruct weight as [y|y| | |]; try discriminate;
    (destruct (Nat.eqb (tt_dim y) 3) eqn:E; cbn [negb]; [|discriminate];
     intros [= ->]; apply Nat.eqb_eq in E; split; [auto|exact E]).
Qed.

Lemma PlanarGeometry_init_positive shape z spacing offset g :
  PlanarGeometry_init shape z spacing offset = Ok g ->
  (0 < fst shape)%nat /\ (0 < snd shape)%nat
  /\ 0 < fst spacing /\ 0 < snd spacing.
Proof.
  unfold PlanarGeometry_init. intros H.
  destruct (Nat.ltb 0 (fst shape)) eqn:E1; [|discriminate].
  destruct (Nat.ltb 0 (snd shape)) eqn:E2; [|discriminate].
  cbn [andb] in H.
  destruct (Rleb (fst spacing) 0) eqn:E3; [discriminate|].
  destruct (Rleb (snd spacing) 0) eqn:E4; [discriminate|].
  apply Nat.ltb_lt in E1, E2. apply Rleb_false in E3, E4. auto.
Qed.

Lemma dim3_shape (x : TorchTensor) :
  tt_dim x = 3%nat -> exists C H W, tt_shape x = [C; H; W].
Proof.
  unfold tt_dim. destruct (tt_shape x) as [|C [|H [|W [|]]]]; try discriminate.
  intros _. exists C, H, W. reflexivity.
Qed.

Lemma double_shape x : Tensor.shape (double x) = tt_shape x.
Proof. destruct x; reflexivity. Qed.

(** What [IntensityDetector.__init__] establishes. *)
Lemma IntensityDetector_init_Ok weight z spacing offset det :
  IntensityDetector_init weight z spacing offset = Ok det ->
  exists x C H W,
    (weight = PyTensor x \/ weight = PyParam x)
    /\ tt_shape x = [C; H; W]
    /\ id_weight det = double x
    /\ id_geometry det = PlanarGeometry.make (H, W) z spacing offset
    /\ (0 < H)%nat /\ (0 < W)%nat
    /\ 0 < fst spacing /\ 0 < snd spacing.
Proof.
  unfold IntensityDetector_init. intros Hi.
  destruct (_validate_weight weight) as [x|] eqn:Hv; [|discriminate].
  cbn [bind] in Hi.
  destruct (validate_weight_Ok _ _ Hv) as [Hw Hd].
  destruct (dim3_shape x Hd) as (C & H & W & Hs).
  destruct (PlanarGeometry_init _ _ _ _) as [g|] eqn:Hg; [|discriminate].
  cbn [bind] in Hi. injection Hi as <-.
  assert (Hps : planar_shape_of_weight x = (H, W)).
  { unfold planar_shape_of_weight. rewrite Hs. reflexivity. }
  rewrite Hps in Hg.
  pose proof (PlanarGeometry_init_positive _ _ _ _ _ Hg) as (P1 & P2 & P3 & P4).
  apply PlanarGeometry_init_Ok in Hg.
  exists x, C, H, W. cbn [id_weight id_geometry fst snd] in *.
  repeat split; assumption.
Qed.

(** X1 - [IntensityDetector.__init__] rejects a weight that is not a tensor
    with a TypeError naming its type, and a tensor whose rank is not 3 with
    a ValueError naming its rank, whatever z, spacing and offset are; and
    every detector it returns holds a 3-D weight whose last two dimensions
    are the shape of the detector's geometry. *)
Theorem IntensityDetector_init_contract
    (weight : pyobj) (z : R) (spacing offset : R * R) :
  ((forall x, weight <> PyTensor x /\ weight <> PyParam x) ->
     IntensityDetector_init weight z spacing offset
     = Raise (TypeError ("Expected weight to be a tensor, but got "
                         ++ type_name weight)))
  /\ (forall x, weight = PyTensor x \/ weight = PyParam x ->
        tt_dim x <> 3%nat ->
        IntensityDetector_init weight z spacing offset
        = Raise (ValueError ("Expected weight to be a 3D tensor, but got "
                             ++ nat_to_string (tt_dim x) ++ "D")))
  /\ (forall det,
        IntensityDetector_init weight z spacing offset = Ok det ->
        exists C,
          Tensor.shape (id_weight det)
          = [C; fst (PlanarGeometry.shape (id_geometry det));
                snd (PlanarGeometry.shape (id_geometry det))]).
Proof.
  split; [|split].
  - intros Hn. unfold IntensityDetector_init, _validate_weight.
    destruct weight as [y|y| | |]; try reflexivity;
      exfalso; destruct (Hn y) as [H1 H2]; congruence.
  - intros x Hw Hd. unfold IntensityDetector_init, _validate_weight.
    apply Nat.eqb_neq in Hd.
    destruct Hw as [-> | ->]; rewrite Hd; reflexivity.
  - intros det Hi.
    destruct (IntensityDetector_init_Ok _ _ _ _ _ Hi)
      as (x & C & H & W & _ & Hs & Hw & Hg & _).
    exists C. rewrite Hw, Hg, double_shape, Hs. reflexivity.
Qed.

End DetectorConstruction.

(** X1 (witness) - a string and a 4-D tensor are rejected as in
    [test_intensity_detector]; the weight [[2, 3]] of shape (1, 1, 2) gives
    a detector on a 1 x 2 grid. *)
Lemma IntensityDetector_init_contract_witness :
  Elements.IntensityDetector_init (PyStr "not a tensor") 0 (1, 1) (0, 0)
  = Raise (TypeError "Expected weight to be a tensor, but got str")
  /\ Elements.IntensityDetector_init
       (PyTensor (ones [1; 2; 3; 4]%nat)) 0 (1, 1) (0, 0)
     = Raise (ValueError "Expected weight to be a 3D tensor, but got 4D")
  /\ exists C,
       Tensor.shape weight_2_3 = [C; 1%nat; 2%nat].
Proof.
  destruct (IntensityDetector_init_contract
              (PyStr "not a tensor") 0 (1, 1) (0, 0)) as (Hty & _ & _).
  destruct (IntensityDetector_init_contract
              (PyTensor (ones [1; 2; 3; 4]%nat)) 0 (1, 1) (0, 0))
    as (_ & Hval & _).
  destruct (IntensityDetector_init_contract
              (PyTensor (RealTensor weight_2_3)) 0 (1, 1) (0, 0))
    as (_ & _ & Hok).
  split; [|split].
  - apply Hty. intros x. split; discriminate.
  - apply (Hval (ones [1; 2; 3; 4]%nat)).
    + left. reflexivity.
    + unfold tt_dim. simpl. lia.
  - apply (Hok _ IntensityDetector_init_weight_2_3).
Defined.

Section DetectorValues.

Import Elements.

Variable geometry_str : PlanarGeometry.t -> string.

(** The entries of [IntensityDetector.forward] over the flattened grid. *)
Lemma IntensityDetector_forward_flat
    (det : IntensityDetector) (f : Field.t) (batch : list nat) (C H W : nat) :
  Tensor.shape (id_weight det) = [C; H; W] ->
  Tensor.well_formed (id_weight det) ->
  Field.is_scalar batch f ->
  PlanarGeometry.is_same_geometry (id_geometry det) (Field.geometry f) = true ->
  PlanarGeometry.shape (id_geometry det) = (H, W) ->
  exists out,
    IntensityDetector_forward geometry_str det (PyField f) = Ok out
    /\ Tensor.shape out = batch ++ [C]
    /\ length (Tensor.data out) = (Tensor.numel batch * C)%nat
    /\ forall b c, (b < Tensor.numel batch)%nat -> (c < C)%nat ->
         nth (b * C + c) (Tensor.data out) 0
         = big 0 Rplus (H * W)
             (fun q => Cx.norm2 (nth (b * (H * W) + q)
                                     (Tensor.data (Field.data f)) Cx.zero)
                       * nth (c * (H * W) + q) (Tensor.data (id_weight det)) 0)
           * PlanarGeometry.cell_area (id_geometry det).
Proof.
  intros Hw Wf [Hk [Hs Hf]] Hsame Hg.
  pose proof (is_same_geometry_shape _ _ Hsame) as Hshape.
  rewrite Hg in Hshape. rewrite <- Hshape in Hs. cbn [fst snd] in Hs.
  pose proof (well_formed_planes _ _ _ _ Hs Hf) as Lf.
  unfold IntensityDetector_forward.
  rewrite validate_same_geometry by exact Hsame.
  cbn [bind as_field].
  assert (Hi : Field.intensity f = Tensor.map Cx.norm2 (Field.data f)).
  { unfold Field.intensity. rewrite Hk. reflexivity. }
  rewrite Hi.
  rewrite (flatten_m2_planes (Tensor.map Cx.norm2 (Field.data f)) batch H W)
    by exact Hs.
  rewrite (flatten_m2_planes (id_weight det) [C] H W) by exact Hw.
  cbn [bind app Tensor.map Tensor.data].
  unfold Tensor.well_formed in Wf. rewrite Hw, numel_3 in Wf.
  destruct (linear_entry 0 Rplus Rmult
              (Tensor.make (batch ++ [(H * W)%nat])
                 (List.map Cx.norm2 (Tensor.data (Field.data f))))
              (Tensor.make [C; (H * W)%nat] (Tensor.data (id_weight det)))
              batch C (H * W)%nat)
    as (out & Hlin & Hsh & Hlen & Hent);
    try reflexivity.
  { cbn [Tensor.data]. rewrite length_map. exact Lf. }
  { exact Wf. }
  rewrite Hlin. cbn [bind].
  eexists; split; [reflexivity|].
  cbn [Tensor.map Tensor.shape Tensor.data].
  rewrite length_map. repeat split; try assumption.
  intros b c Hb Hc.
  rewrite nth_map_lt with (d := 0) by nia.
  f_equal. rewrite Hent by assumption. cbn [Tensor.data].
  apply big_ext. intros q Hq.
  rewrite nth_map_lt with (d := Cx.zero) by (rewrite Lf; nia).
  reflexivity.
Qed.

End DetectorValues.

Section DetectorTotals.

Import Elements.

Variable geometry_str : PlanarGeometry.t -> string.

Lemma Rbig_mul_r n f c :
  big 0 Rplus n f * c = big 0 Rplus n (fun k => f k * c).
Proof. apply big_mul_r; intros; ring. Qed.

Lemma Rbig_nonneg n f :
  (forall k, (k < n)%nat -> 0 <= f k) -> 0 <= big 0 Rplus n f.
Proof.
  revert f. induction n as [|n IH]; intros f Hf.
  - rewrite big_0. lra.
  - rewrite big_S.
    assert (0 <= f 0%nat) by (apply Hf; lia).
    assert (0 <= big 0 Rplus n (fun k => f (S k)))
      by (apply IH; intros; apply Hf; lia).
    lra.
Qed.

Lemma nth_rect_index (n k len : nat) :
  (n <> 0)%nat -> (k < len * n)%nat ->
  exists b c, (k = b * n + c /\ b < len /\ c < n)%nat.
Proof.
  intros Hn Hk. exists (k / n)%nat, (k mod n)%nat. repeat split.
  - rewrite Nat.mul_comm. apply Nat.div_mod_eq.
  - apply Nat.Div0.div_lt_upper_bound. lia.
  - apply Nat.mod_upper_bound. exact Hn.
Qed.

(** X3 - For a detector built by [IntensityDetector.__init__] from a weight
    without negative entries, every value that [forward] returns for a
    scalar field of matching geometry is non-negative. *)
Theorem IntensityDetector_forward_nonneg
    (w : Tensor.t R) (z : R) (spacing offset : R * R)
    (det : IntensityDetector) (f : Field.t) (batch : list nat) :
  Tensor.well_formed w ->
  Forall (fun v => 0 <= v) (Tensor.data w) ->
  IntensityDetector_init (PyTensor (RealTensor w)) z spacing offset = Ok det ->
  Field.is_scalar batch f ->
  PlanarGeometry.is_same_geometry (id_geometry det) (Field.geometry f) = true ->
  exists out,
    IntensityDetector_forward geometry_str det (PyField f) = Ok out
    /\ Forall (fun v => 0 <= v) (Tensor.data out).
Proof.
  intros Wf Hpos Hi Hf Hsame.
  destruct (IntensityDetector_init_Ok _ _ _ _ _ Hi)
    as (x & C & H & W & Hx & Hs & Hw & Hg & _ & _ & P3 & P4).
  assert (x = RealTensor w) by (destruct Hx; congruence). subst x.
  cbn [tt_shape double] in Hs, Hw.
  destruct (IntensityDetector_forward_flat geometry_str det f batch C H W)
    as (out & Hout & Hsh & Hlen & Hent); try assumption.
  { rewrite Hw. exact Hs. }
  { rewrite Hw. exact Wf. }
  { rewrite Hg. reflexivity. }
  exists out. split; [exact Hout|].
  apply Forall_forall. intros v Hv.
  destruct (In_nth _ _ 0 Hv) as (k & Hk & <-).
  rewrite Hlen in Hk.
  destruct (Nat.eq_dec C 0) as [->|HC]; [lia|].
  destruct (nth_rect_index C k _ HC Hk) as (b & c & -> & Hb & Hc).
  rewrite Hent by assumption.
  apply Rmult_le_pos.
  - apply Rbig_nonneg. intros q Hq. apply Rmult_le_pos.
    + apply CxFacts.norm2_nonneg.
    + rewrite Hw.
      unfold Tensor.well_formed in Wf. rewrite Hs, numel_3 in Wf.
      rewrite Forall_forall in Hpos. apply Hpos. apply nth_In.
      rewrite Wf. nia.
  - rewrite Hg. unfold PlanarGeometry.cell_area.
    cbn [PlanarGeometry.spacing]. apply Rlt_le, Rmult_lt_0_compat; assumption.
Qed.

End DetectorTotals.

(** X3 (witness) - the theorem at the weight [[2, 3]] over a 1 x 2 grid of
    unit cells and the field [[1, i]]. *)
Lemma IntensityDetector_forward_nonneg_witness :
  exists out,
    Elements.IntensityDetector_forward no_geometry_str
      {| Elements.id_geometry := unit_geometry_1x2;
         Elements.id_weight := weight_2_3 |} (PyField field_1_i) = Ok out
    /\ Forall (fun v => 0 <= v) (Tensor.data out).
Proof.
  apply (IntensityDetector_forward_nonneg no_geometry_str
           weight_2_3 0 (1, 1) (0, 0)
           {| Elements.id_geometry := unit_geometry_1x2;
              Elements.id_weight := weight_2_3 |} field_1_i []).
  - reflexivity.
  - repeat constructor; simpl; lra.
  - exact IntensityDetector_init_weight_2_3.
  - exact field_1_i_scalar.
  - apply is_same_geometry_refl.
Defined.

Section DetectorPartition.

Import Elements.

Variable geometry_str : PlanarGeometry.t -> string.

Lemma Rbig_add n (f g : nat -> R) :
  big 0 Rplus n (fun k => f k + g k) = big 0 Rplus n f + big 0 Rplus n g.
Proof.
  revert f g. induction n as [|n IH]; intros f g.
  - rewrite !big_0. ring.
  - rewrite !big_S, IH. ring.
Qed.

Lemma Rbig_exchange n m (f : nat -> nat -> R) :
  big 0 Rplus n (fun i => big 0 Rplus m (fun j => f i j))
  = big 0 Rplus m (fun j => big 0 Rplus n (fun i => f i j)).
Proof.
  revert f. induction n as [|n IH]; intros f.
  - rewrite big_0. symmetry.
    rewrite big_ext with (g := fun _ => 0) by (intros; apply big_0).
    clear f. induction m as [|m IHm]; [reflexivity|].
    rewrite big_S, IHm. ring.
  - rewrite big_S, IH.
    rewrite big_ext
      with (f := fun j => big 0 Rplus (S n) (fun i => f i j))
           (g := fun j => f 0%nat j + big 0 Rplus n (fun i => f (S i) j))
      by (intros; apply big_S).
    rewrite Rbig_add. reflexivity.
Qed.

(** X2 - When the channels of the weight sum to 1 at every grid cell, the
    values that [IntensityDetector.forward] returns for a plane of the
    field data add up, over the channels, to the total of the per-cell
    powers that [Detector.forward] returns for that plane: the channels
    share out the power of the field. *)
Theorem IntensityDetector_partition_of_unity
    (w : Tensor.t R) (C H W : nat) (z : R) (spacing offset : R * R)
    (det : IntensityDetector) (f : Field.t) (batch : list nat) :
  Tensor.shape w = [C; H; W] ->
  Tensor.well_formed w ->
  (forall i j, (i < H)%nat -> (j < W)%nat ->
     big 0 Rplus C (fun c => Tensor.get3 0 w c i j) = 1) ->
  IntensityDetector_init (PyTensor (RealTensor w)) z spacing offset = Ok det ->
  Field.is_scalar batch f ->
  PlanarGeometry.is_same_geometry (id_geometry det) (Field.geometry f) = true ->
  exists out cells,
    IntensityDetector_forward geometry_str det (PyField f) = Ok out
    /\ Detector_forward geometry_str {| det_geometry := id_geometry det |}
         (PyField f) = Ok cells
    /\ Tensor.shape out = batch ++ [C]
    /\ Tensor.shape cells = batch ++ [H; W]
    /\ forall b, (b < Tensor.numel batch)%nat ->
         big 0 Rplus C (fun c => nth (b * C + c) (Tensor.data out) 0)
         = big 0 Rplus (H * W)
             (fun q => nth (b * (H * W) + q) (Tensor.data cells) 0).
Proof.
  intros Hw Wf Hone Hi Hf Hsame.
  destruct (IntensityDetector_init_Ok _ _ _ _ _ Hi)
    as (x & C' & H' & W' & Hx & Hs & Hdw & Hg & _).
  assert (x = RealTensor w) by (destruct Hx; congruence). subst x.
  cbn [tt_shape double] in Hs, Hdw. rewrite Hw in Hs.
  injection Hs as <- <- <-.
  destruct (IntensityDetector_forward_flat geometry_str det f batch C H W)
    as (out & Hout & Hsh & Hlen & Hent); try assumption.
  { rewrite Hdw. exact Hw. }
  { rewrite Hdw. exact Wf. }
  { rewrite Hg. reflexivity. }
  pose proof (is_same_geometry_shape _ _ Hsame) as Hshape.
  rewrite Hg in Hshape. cbn [PlanarGeometry.shape] in Hshape.
  destruct Hf as [Hk [Hsf Hwf]].
  rewrite <- Hshape in Hsf. cbn [fst snd] in Hsf.
  pose proof (well_formed_planes _ _ _ _ Hsf Hwf) as Lf.
  exists out. eexists. split; [exact Hout|]. split.
  { unfold Detector_forward. cbn [det_geometry].
    rewrite validate_same_geometry by exact Hsame. reflexivity. }
  split; [exact Hsh|].
  assert (Hint : Field.intensity f = Tensor.map Cx.norm2 (Field.data f)).
  { unfold Field.intensity. rewrite Hk. reflexivity. }
  rewrite Hint. cbn [Tensor.map Tensor.shape Tensor.data].
  split; [exact Hsf|].
  intros b Hb.
  rewrite big_ext
    with (g := fun c => big 0 Rplus (H * W)
                (fun q => Cx.norm2 (nth (b * (H * W) + q)
                                        (Tensor.data (Field.data f)) Cx.zero)
                          * nth (c * (H * W) + q) (Tensor.data w) 0
                          * PlanarGeometry.cell_area (id_geometry det))).
  2:{ intros c Hc. rewrite Hent by assumption.
      rewrite Rbig_mul_r, Hdw. reflexivity. }
  rewrite Rbig_exchange.
  apply big_ext. intros q Hq.
  rewrite nth_map_lt with (d := 0) by (rewrite length_map, Lf; nia).
  rewrite nth_map_lt with (d := Cx.zero) by (rewrite Lf; nia).
  rewrite big_ext
    with (g := fun c => nth (c * (H * W) + q) (Tensor.data w) 0
                       * (Cx.norm2 (nth (b * (H * W) + q)
                                        (Tensor.data (Field.data f)) Cx.zero)
                          * PlanarGeometry.cell_area (id_geometry det)))
    by (intros; ring).
  rewrite <- Rbig_mul_r.
  assert (HW0 : (W <> 0)%nat) by (intros ->; lia).
  specialize (Hone (q / W)%nat (q mod W)%nat).
  rewrite big_ext
    with (g := fun c => nth (c * (H * W) + q) (Tensor.data w) 0) in Hone.
  2:{ intros c Hc. unfold Tensor.get3. rewrite Hw. f_equal.
      pose proof (Nat.div_mod_eq q W). nia. }
  rewrite Hone.
  - ring.
  - apply Nat.Div0.div_lt_upper_bound. lia.
  - apply Nat.mod_upper_bound. exact HW0.
Qed.

End DetectorPartition.

Lemma dot_mul_l (c : Cx.C) (row w : list Cx.C) :
  dot Cx.zero Cx.add Cx.mul (List.map (Cx.mul c) row) w
  = Cx.mul c (dot Cx.zero Cx.add Cx.mul row w).
Proof.
  revert w. induction row as [|a row IH]; intros w; simpl.
  - rewrite CxFacts.mul_zero_r. reflexivity.
  - destruct w as [|b w].
    + rewrite CxFacts.mul_zero_r. reflexivity.
    + rewrite IH. ring.
Qed.

(** [linear] commutes with multiplying the input by a constant. *)
Lemma linear_mul_l (c : Cx.C) (x w : Tensor.t Cx.C) :
  Tensor.linear Cx.zero Cx.add Cx.mul (Tensor.map (Cx.mul c) x) w
  = out <- Tensor.linear Cx.zero Cx.add Cx.mul x w ;;
    Ok (Tensor.map (Cx.mul c) out).
Proof.
  unfold Tensor.linear. cbn [Tensor.map Tensor.shape Tensor.data].
  destruct (Tensor.shape w) as [|a [|n [|]]]; try reflexivity.
  destruct (Tensor.trailing 1 (Tensor.shape x)) as [|n' [|]]; try reflexivity.
  destruct (Nat.eqb n n'); [|reflexivity].
  cbn [bind]. f_equal. unfold Tensor.map.
  cbn [Tensor.shape Tensor.data]. f_equal.
  rewrite chunks_map, flat_map_of_map, map_of_flat_map.
  apply flat_map_pointwise. intros row.
  rewrite map_map. apply map_ext. intros wr. apply dot_mul_l.
Qed.

Lemma flatten_m2_map {A B} (g : A -> B) (x : Tensor.t A) :
  Tensor.flatten_m2 (Tensor.map g x)
  = y <- Tensor.flatten_m2 x ;; Ok (Tensor.map g y).
Proof.
  unfold Tensor.flatten_m2. cbn [Tensor.map Tensor.shape Tensor.data].
  destruct (Tensor.trailing 2 (Tensor.shape x)) as [|h [|w [|]]];
    reflexivity.
Qed.

Section DetectorScaling.

Import Elements.

Variable geometry_str : PlanarGeometry.t -> string.

(** X4 - Multiplying the field data by a complex constant [c] multiplies every
    output of [FieldDetector.forward] by [|c|^2]; a failing call fails in
    the same way.  In particular a global phase factor, [|c| = 1], leaves
    the output unchanged. *)
Theorem FieldDetector_forward_scaled_field
    (det : FieldDetector) (f : Field.t) (c : Cx.C) :
  FieldDetector_forward geometry_str det
    (PyField (Field.with_data f
                (List.map (Cx.mul c) (Tensor.data (Field.data f)))))
  = out <- FieldDetector_forward geometry_str det (PyField f) ;;
    Ok (Tensor.map (Rmult (Cx.norm2 c)) out).
Proof.
  unfold FieldDetector_forward, validate_field_geometry.
  cbn [Field.with_data Field.geometry as_field].
  destruct (negb (PlanarGeometry.is_same_geometry _ _)); [reflexivity|].
  cbn [bind Field.data].
  change (Field.data
            (Field.with_data f
               (List.map (Cx.mul c) (Tensor.data (Field.data f)))))
    with (Tensor.map (Cx.mul c) (Field.data f)).
  rewrite flatten_m2_map.
  destruct (Tensor.flatten_m2 (Field.data f)) as [xf|]; [|reflexivity].
  cbn [bind].
  destruct (Tensor.flatten_m2 (fd_weight det)) as [wf|]; [|reflexivity].
  cbn [bind].
  rewrite linear_mul_l.
  destruct (Tensor.linear _ _ _ xf wf) as [out|]; [|reflexivity].
  cbn [bind]. f_equal. unfold Tensor.map.
  cbn [Tensor.shape Tensor.data]. f_equal.
  rewrite !map_map. apply map_ext. intros z.
  rewrite !CxFacts.abs_square, !CxFacts.norm2_scale, CxFacts.norm2_mul. ring.
Qed.

End DetectorScaling.

Section CauchySchwarz.

Lemma two_mul_le_sum (u p q : R) :
  0 <= p -> 0 <= q -> u * u <= p * q -> 2 * u <= p + q.
Proof.
  intros Hp Hq Hu.
  destruct (Rle_dec (2 * u) (p + q)) as [L|L]; [exact L|].
  exfalso. apply Rnot_le_lt in L.
  assert (0 <= p + q) by lra.
  assert (H1 : 0 < (2 * u - (p + q)) * (2 * u + (p + q)))
    by (apply Rmult_lt_0_compat; lra).
  assert (H2 : 0 <= (p - q) * (p - q)) by apply Rle_0_sqr.
  nra.
Qed.

Lemma norm2_add_mul_le (m s : Cx.C) (A B P Q : R) :
  0 <= A -> 0 <= B -> 0 <= P -> 0 <= Q ->
  Cx.norm2 m = A * B -> Cx.norm2 s <= P * Q ->
  Cx.norm2 (Cx.add m s) <= (A + P) * (B + Q).
Proof.
  destruct m as [m1 m2], s as [s1 s2].
  unfold Cx.norm2, Cx.add. cbn [Cx.re Cx.im fst snd].
  intros HA HB HP HQ Hm Hs.
  assert (Hu : (m1 * s1 + m2 * s2) * (m1 * s1 + m2 * s2)
               <= (A * Q) * (P * B)).
  { assert (0 <= (m1 * s2 - m2 * s1) * (m1 * s2 - m2 * s1))
      by apply Rle_0_sqr.
    assert ((m1 * s1 + m2 * s2) * (m1 * s1 + m2 * s2)
            <= (m1 * m1 + m2 * m2) * (s1 * s1 + s2 * s2)) by nra.
    assert (0 <= A * B) by (apply Rmult_le_pos; assumption).
    assert ((A * B) * (s1 * s1 + s2 * s2) <= (A * B) * (P * Q))
      by (apply Rmult_le_compat_l; assumption).
    rewrite Hm in *. nra. }
  pose proof (two_mul_le_sum _ (A * Q) (P * B)
                (Rmult_le_pos _ _ HA HQ) (Rmult_le_pos _ _ HP HB) Hu).
  nra.
Qed.

Lemma Rbig_norm2_nonneg n (a : nat -> Cx.C) :
  0 <= big 0 Rplus n (fun q => Cx.norm2 (a q)).
Proof.
  revert a. induction n as [|n IH]; intros a.
  - rewrite big_0. lra.
  - rewrite big_S. pose proof (CxFacts.norm2_nonneg (a 0%nat)).
    pose proof (IH (fun k => a (S k))). lra.
Qed.

(** The Cauchy-Schwarz inequality for the product-sum of [linear]. *)
Lemma Cx_Cauchy_Schwarz n (a b : nat -> Cx.C) :
  Cx.norm2 (big Cx.zero Cx.add n (fun q => Cx.mul (a q) (b q)))
  <= big 0 Rplus n (fun q => Cx.norm2 (a q))
     * big 0 Rplus n (fun q => Cx.norm2 (b q)).
Proof.
  revert a b. induction n as [|n IH]; intros a b.
  - rewrite !big_0. unfold Cx.norm2, Cx.zero. simpl. lra.
  - rewrite !big_S.
    apply norm2_add_mul_le.
    + apply CxFacts.norm2_nonneg.
    + apply CxFacts.norm2_nonneg.
    + apply (Rbig_norm2_nonneg n (fun k => a (S k))).
    + apply (Rbig_norm2_nonneg n (fun k => b (S k))).
    + apply CxFacts.norm2_mul.
    + apply (IH (fun k => a (S k)) (fun k => b (S k))).
Qed.

End CauchySchwarz.

Section FieldDetectorValues.

Import Elements.

Variable geometry_str : PlanarGeometry.t -> string.

(** What the constructor inherited by [FieldDetector] establishes. *)
Lemma FieldDetector_init_Ok weight z spacing offset det :
  FieldDetector_init weight z spacing offset = Ok det ->
  exists x C H W,
    (weight = PyTensor x \/ weight = PyParam x)
    /\ tt_shape x = [C; H; W]
    /\ fd_weight det = cdouble x
    /\ fd_geometry det = PlanarGeometry.make (H, W) z spacing offset
    /\ (0 < H)%nat /\ (0 < W)%nat
    /\ 0 < fst spacing /\ 0 < snd spacing.
Proof.
  unfold FieldDetector_init. intros Hi.
  destruct (_validate_weight weight) as [x|] eqn:Hv; [|discriminate].
  cbn [bind] in Hi.
  destruct (validate_weight_Ok _ _ Hv) as [Hw Hd].
  destruct (dim3_shape x Hd) as (C & H & W & Hs).
  destruct (PlanarGeometry_init _ _ _ _) as [g|] eqn:Hg; [|discriminate].
  cbn [bind] in Hi. injection Hi as <-.
  assert (Hps : planar_shape_of_weight x = (H, W)).
  { unfold planar_shape_of_weight. rewrite Hs. reflexivity. }
  rewrite Hps in Hg.
  pose proof (PlanarGeometry_init_positive _ _ _ _ _ Hg) as (P1 & P2 & P3 & P4).
  apply PlanarGeometry_init_Ok in Hg.
  exists x, C, H, W. cbn [fd_weight fd_geometry fst snd] in *.
  repeat split; assumption.
Qed.

(** The entries of [FieldDetector.forward] over the flattened grid. *)
Lemma FieldDetector_forward_flat_data
    (det : FieldDetector) (f : Field.t) (batch : list nat) (C H W : nat) :
  Tensor.shape (fd_weight det) = [C; H; W] ->
  Tensor.well_formed (fd_weight det) ->
  Tensor.shape (Field.data f)
  = batch ++ [fst (PlanarGeometry.shape (Field.geometry f));
              snd (PlanarGeometry.shape (Field.geometry f))] ->
  Tensor.well_formed (Field.data f) ->
  PlanarGeometry.is_same_geometry (fd_geometry det) (Field.geometry f) = true ->
  PlanarGeometry.shape (fd_geometry det) = (H, W) ->
  exists out,
    FieldDetector_forward geometry_str det (PyField f) = Ok out
    /\ Tensor.shape out = batch ++ [C]
    /\ length (Tensor.data out) = (Tensor.numel batch * C)%nat
    /\ forall b c, (b < Tensor.numel batch)%nat -> (c < C)%nat ->
         nth (b * C + c) (Tensor.data out) 0
         = Cx.norm2
             (Cx.scale (PlanarGeometry.cell_area (fd_geometry det))
                (big Cx.zero Cx.add (H * W)
                   (fun q => Cx.mul
                       (nth (b * (H * W) + q) (Tensor.data (Field.data f)) Cx.zero)
                       (nth (c * (H * W) + q) (Tensor.data (fd_weight det))
                            Cx.zero)))).
Proof.
  intros Hw Wf Hs Hf Hsame Hg.
  pose proof (is_same_geometry_shape _ _ Hsame) as Hshape.
  rewrite Hg in Hshape. rewrite <- Hshape in Hs. cbn [fst snd] in Hs.
  pose proof (well_formed_planes _ _ _ _ Hs Hf) as Lf.
  unfold FieldDetector_forward.
  rewrite validate_same_geometry by exact Hsame.
  cbn [bind as_field].
  rewrite (flatten_m2_planes (Field.data f) batch H W) by exact Hs.
  rewrite (flatten_m2_planes (fd_weight det) [C] H W) by exact Hw.
  cbn [bind app].
  unfold Tensor.well_formed in Wf. rewrite Hw, numel_3 in Wf.
  destruct (linear_entry Cx.zero Cx.add Cx.mul
              (Tensor.make (batch ++ [(H * W)%nat]) (Tensor.data (Field.data f)))
              (Tensor.make [C; (H * W)%nat] (Tensor.data (fd_weight det)))
              batch C (H * W)%nat)
    as (out & Hlin & Hsh & Hlen & Hent);
    try reflexivity; try assumption.
  rewrite Hlin. cbn [bind].
  eexists; split; [reflexivity|].
  cbn [Tensor.map Tensor.shape Tensor.data].
  rewrite !length_map. repeat split; try assumption.
  intros b c Hb Hc.
  rewrite nth_map_lt with (d := 0) by (rewrite !length_map; nia).
  rewrite nth_map_lt with (d := Cx.zero) by (rewrite length_map; nia).
  rewrite nth_map_lt with (d := Cx.zero) by nia.
  rewrite CxFacts.abs_square. f_equal. f_equal.
  rewrite Hent by assumption. reflexivity.
Qed.

(** The same for a scalar [Field]. *)
Lemma FieldDetector_forward_flat
    (det : FieldDetector) (f : Field.t) (batch : list nat) (C H W : nat) :
  Tensor.shape (fd_weight det) = [C; H; W] ->
  Tensor.well_formed (fd_weight det) ->
  Field.is_scalar batch f ->
  PlanarGeometry.is_same_geometry (fd_geometry det) (Field.geometry f) = true ->
  PlanarGeometry.shape (fd_geometry det) = (H, W) ->
  exists out,
    FieldDetector_forward geometry_str det (PyField f) = Ok out
    /\ Tensor.shape out = batch ++ [C]
    /\ length (Tensor.data out) = (Tensor.numel batch * C)%nat
    /\ forall b c, (b < Tensor.numel batch)%nat -> (c < C)%nat ->
         nth (b * C + c) (Tensor.data out) 0
         = Cx.norm2
             (Cx.scale (PlanarGeometry.cell_area (fd_geometry det))
                (big Cx.zero Cx.add (H * W)
                   (fun q => Cx.mul
                       (nth (b * (H * W) + q) (Tensor.data (Field.data f)) Cx.zero)
                       (nth (c * (H * W) + q) (Tensor.data (fd_weight det))
                            Cx.zero)))).
Proof.
  intros Hw Wf [_ [Hs Hf]] Hsame Hg.
  apply FieldDetector_forward_flat_data; assumption.
Qed.

(** X5 - The output of [FieldDetector.forward] obeys the Cauchy-Schwarz
    bound: for every plane [b] of the field data and every channel [c] it
    lies between 0 and the product of the squared norm of the weight
    channel, [sum |w[c,i,j]|^2 * cell_area], and the power of the plane,
    [sum |psi[b,i,j]|^2 * cell_area]. *)
Theorem FieldDetector_forward_Cauchy_Schwarz
    (w : Tensor.t Cx.C) (C H W : nat) (z : R) (spacing offset : R * R)
    (det : FieldDetector) (f : Field.t) (batch : list nat) :
  Tensor.shape w = [C; H; W] ->
  Tensor.well_formed w ->
  FieldDetector_init (PyTensor (ComplexTensor w)) z spacing offset = Ok det ->
  Field.is_scalar batch f ->
  PlanarGeometry.is_same_geometry (fd_geometry det) (Field.geometry f) = true ->
  exists out,
    FieldDetector_forward geometry_str det (PyField f) = Ok out
    /\ forall b c, (b < Tensor.numel batch)%nat -> (c < C)%nat ->
         0 <= nth (b * C + c) (Tensor.data out) 0
         /\ nth (b * C + c) (Tensor.data out) 0
            <= (big 0 Rplus (H * W)
                  (fun q => Cx.norm2 (nth (c * (H * W) + q) (Tensor.data w)
                                          Cx.zero))
                * PlanarGeometry.cell_area (fd_geometry det))
               * (big 0 Rplus (H * W)
                    (fun q => Cx.norm2 (nth (b * (H * W) + q)
                                            (Tensor.data (Field.data f)) Cx.zero))
                  * PlanarGeometry.cell_area (fd_geometry det)).
Proof.
  intros Hw Wf Hi Hf Hsame.
  destruct (FieldDetector_init_Ok _ _ _ _ _ Hi)
    as (x & C' & H' & W' & Hx & Hs & Hfw & Hg & _).
  assert (x = ComplexTensor w) by (destruct Hx; congruence). subst x.
  cbn [tt_shape cdouble] in Hs, Hfw. rewrite Hw in Hs.
  injection Hs as <- <- <-.
  destruct (FieldDetector_forward_flat det f batch C H W)
    as (out & Hout & _ & _ & Hent); try assumption.
  { rewrite Hfw. exact Hw. }
  { rewrite Hfw. exact Wf. }
  { rewrite Hg. reflexivity. }
  exists out. split; [exact Hout|].
  intros b c Hb Hc. rewrite Hent by assumption.
  split; [apply CxFacts.norm2_nonneg|].
  rewrite CxFacts.norm2_scale, Hfw.
  set (a := PlanarGeometry.cell_area (fd_geometry det)).
  pose proof (Cx_Cauchy_Schwarz (H * W)
                (fun q => nth (b * (H * W) + q) (Tensor.data (Field.data f)) Cx.zero)
                (fun q => nth (c * (H * W) + q) (Tensor.data w) Cx.zero)) as CS.
  cbv beta in CS.
  assert (0 <= a * a) by apply Rle_0_sqr.
  apply (Rmult_le_compat_l (a * a)) in CS; [|assumption].
  lra.
Qed.

Lemma conj_of_real (x : R) : Cx.conj (Cx.of_real x) = Cx.of_real x.
Proof. apply CxFacts.eq_intro; unfold Cx.conj, Cx.of_real; simpl; ring. Qed.

Lemma conj_nth_of_real (l : list R) (k : nat) :
  Cx.conj (nth k (List.map Cx.of_real l) Cx.zero)
  = nth k (List.map Cx.of_real l) Cx.zero.
Proof.
  change Cx.zero with (Cx.of_real 0). rewrite map_nth. apply conj_of_real.
Qed.

(** X6 - For a detector built from a real weight tensor, the value that
    [FieldDetector.forward] returns is also the squared magnitude of the
    conjugate-weighted overlap: on real weights the two forms of the
    overlap agree. *)
Theorem FieldDetector_forward_real_weight
    (w : Tensor.t R) (C H W : nat) (z : R) (spacing offset : R * R)
    (det : FieldDetector) (f : Field.t) (batch : list nat) :
  Tensor.shape w = [C; H; W] ->
  Tensor.well_formed w ->
  FieldDetector_init (PyTensor (RealTensor w)) z spacing offset = Ok det ->
  Field.is_scalar batch f ->
  PlanarGeometry.is_same_geometry (fd_geometry det) (Field.geometry f) = true ->
  exists out,
    FieldDetector_forward geometry_str det (PyField f) = Ok out
    /\ Tensor.shape out = batch ++ [C]
    /\ forall b c, (b < Tensor.numel batch)%nat -> (c < C)%nat ->
         nth (b * C + c) (Tensor.data out) 0
         = Rsqr (Cx.abs (conj_overlap (fd_weight det) (Field.data f)
                           (PlanarGeometry.cell_area (fd_geometry det))
                           H W b c))
         /\ nth (b * C + c) (Tensor.data out) 0
            = Rsqr (Cx.abs (overlap (fd_weight det) (Field.data f)
                              (PlanarGeometry.cell_area (fd_geometry det))
                              H W b c)).
Proof.
  intros Hw Wf Hi Hf Hsame.
  destruct (FieldDetector_init_Ok _ _ _ _ _ Hi)
    as (x & C' & H' & W' & Hx & Hs & Hfw & Hg & _).
  assert (x = RealTensor w) by (destruct Hx; congruence). subst x.
  cbn [tt_shape cdouble] in Hs, Hfw. rewrite Hw in Hs.
  injection Hs as <- <- <-.
  assert (Hsw : Tensor.shape (fd_weight det) = [C; H; W]).
  { rewrite Hfw. exact Hw. }
  assert (Lw : length (Tensor.data w) = (C * (H * W))%nat).
  { unfold Tensor.well_formed in Wf. rewrite Wf, Hw. apply numel_3. }
  destruct (FieldDetector_forward_flat det f batch C H W)
    as (out & Hout & Hsh & _ & Hent); try assumption.
  { rewrite Hfw. unfold Tensor.well_formed.
    cbn [Tensor.map Tensor.shape Tensor.data]. rewrite length_map. exact Wf. }
  { rewrite Hg. reflexivity. }
  exists out. split; [exact Hout|]. split; [exact Hsh|].
  intros b c Hb Hc. rewrite Hent by assumption.
  destruct Hf as [_ [Hsf _]].
  pose proof (is_same_geometry_shape _ _ Hsame) as Hshape.
  rewrite Hg in Hshape. cbn [PlanarGeometry.shape] in Hshape.
  rewrite <- Hshape in Hsf. cbn [fst snd] in Hsf.
  assert (E : Cx.scale (PlanarGeometry.cell_area (fd_geometry det))
                (big Cx.zero Cx.add (H * W)
                   (fun q => Cx.mul
                       (nth (b * (H * W) + q) (Tensor.data (Field.data f)) Cx.zero)
                       (nth (c * (H * W) + q) (Tensor.data (fd_weight det))
                            Cx.zero)))
              = overlap (fd_weight det) (Field.data f)
                  (PlanarGeometry.cell_area (fd_geometry det)) H W b c).
  { rewrite Cx_scale_big.
    rewrite big_flatten; [|exact CxFacts.add_assoc|exact CxFacts.add_zero_l].
    unfold overlap.
    apply big_ext; intros i _. apply big_ext; intros j _.
    unfold Tensor.get3, Tensor.get_plane. rewrite Hsw, Hsf.
    rewrite trailing_app by reflexivity.
    rewrite CxFacts.mul_comm. do 3 f_equal; lia. }
  rewrite E, !CxFacts.abs_square. split; [|reflexivity].
  f_equal. unfold overlap, conj_overlap.
  apply big_ext; intros i Hi'. apply big_ext; intros j Hj.
  do 2 f_equal.
  unfold Tensor.get3. rewrite Hsw, Hfw.
  cbn [Tensor.map Tensor.data].
  symmetry. apply conj_nth_of_real.
Qed.

End FieldDetectorValues.

Lemma IntensityDetector_init_weight_halves :
  Elements.IntensityDetector_init (PyTensor (RealTensor weight_halves))
    0 (1, 1) (0, 0)
  = Ok {| Elements.id_geometry := unit_geometry_1x2;
          Elements.id_weight := weight_halves |}.
Proof.
  unfold Elements.IntensityDetector_init.
  cbn [Elements._validate_weight tt_dim tt_shape
       weight_halves Tensor.shape length Nat.eqb negb bind].
  unfold Elements.planar_shape_of_weight. cbn [tt_shape Tensor.shape tl].
  rewrite PlanarGeometry_init_unit by (simpl; lia). reflexivity.
Qed.

(** X2 (witness) - the theorem at the two-channel weight that gives the
    left cell of a 1 x 2 grid to channel 0 and the right cell to channel 1,
    and the field [[1, i]]. *)
Lemma IntensityDetector_partition_of_unity_witness :
  exists out cells,
    Elements.IntensityDetector_forward no_geometry_str
      {| Elements.id_geometry := unit_geometry_1x2;
         Elements.id_weight := weight_halves |} (PyField field_1_i) = Ok out
    /\ Elements.Detector_forward no_geometry_str
         {| Elements.det_geometry := unit_geometry_1x2 |} (PyField field_1_i)
       = Ok cells
    /\ Tensor.shape out = [2%nat]
    /\ Tensor.shape cells = [1%nat; 2%nat]
    /\ forall b, (b < 1)%nat ->
         big 0 Rplus 2 (fun c => nth (b * 2 + c) (Tensor.data out) 0)
         = big 0 Rplus (1 * 2)
             (fun q => nth (b * (1 * 2) + q) (Tensor.data cells) 0).
Proof.
  apply (IntensityDetector_partition_of_unity no_geometry_str
           weight_halves 2 1 2 0 (1, 1) (0, 0)
           {| Elements.id_geometry := unit_geometry_1x2;
              Elements.id_weight := weight_halves |} field_1_i []).
  - reflexivity.
  - reflexivity.
  - intros i j Hi Hj.
    destruct i as [|i]; [|lia].
    destruct j as [|[|j]]; [| |lia];
      unfold big, Tensor.get3, weight_halves;
      cbn [Tensor.shape Tensor.data seq List.map fold_right
           Nat.mul Nat.add nth]; lra.
  - exact IntensityDetector_init_weight_halves.
  - exact field_1_i_scalar.
  - apply is_same_geometry_refl.
Defined.

(** X5 (witness) - the theorem at the one-channel detector with weight
    [[i, 1]] and the field [[1, i]]. *)
Lemma FieldDetector_forward_Cauchy_Schwarz_witness :
  exists out,
    Elements.FieldDetector_forward no_geometry_str
      {| Elements.fd_geometry := unit_geometry_1x2;
         Elements.fd_weight := weight_i_1 |} (PyField field_1_i) = Ok out
    /\ forall b c, (b < 1)%nat -> (c < 1)%nat ->
         0 <= nth (b * 1 + c) (Tensor.data out) 0
         /\ nth (b * 1 + c) (Tensor.data out) 0
            <= (big 0 Rplus (1 * 2)
                  (fun q => Cx.norm2 (nth (c * (1 * 2) + q)
                                          (Tensor.data weight_i_1) Cx.zero))
                * PlanarGeometry.cell_area unit_geometry_1x2)
               * (big 0 Rplus (1 * 2)
                    (fun q => Cx.norm2 (nth (b * (1 * 2) + q)
                                            (Tensor.data (Field.data field_1_i))
                                            Cx.zero))
                  * PlanarGeometry.cell_area unit_geometry_1x2).
Proof.
  apply (FieldDetector_forward_Cauchy_Schwarz no_geometry_str
           weight_i_1 1 1 2 0 (1, 1) (0, 0)
           {| Elements.fd_geometry := unit_geometry_1x2;
              Elements.fd_weight := weight_i_1 |} field_1_i []).
  - reflexivity.
  - reflexivity.
  - exact FieldDetector_init_weight_i_1.
  - exact field_1_i_scalar.
  - apply is_same_geometry_refl.
Defined.

Lemma FieldDetector_init_weight_2_3 :
  Elements.FieldDetector_init (PyTensor (RealTensor weight_2_3)) 0 (1, 1) (0, 0)
  = Ok {| Elements.fd_geometry := unit_geometry_1x2;
          Elements.fd_weight := Tensor.map Cx.of_real weight_2_3 |}.
Proof.
  unfold Elements.FieldDetector_init.
  cbn [Elements._validate_weight tt_dim tt_shape
       weight_2_3 Tensor.shape length Nat.eqb negb bind].
  unfold Elements.planar_shape_of_weight. cbn [tt_shape Tensor.shape tl].
  rewrite PlanarGeometry_init_unit by (simpl; lia). reflexivity.
Qed.

(** X6 (witness) - the theorem at the real weight [[2, 3]] over a 1 x 2
    grid of unit cells and the field [[1, i]]. *)
Lemma FieldDetector_forward_real_weight_witness :
  exists out,
    Elements.FieldDetector_forward no_geometry_str
      {| Elements.fd_geometry := unit_geometry_1x2;
         Elements.fd_weight := Tensor.map Cx.of_real weight_2_3 |}
      (PyField field_1_i) = Ok out
    /\ Tensor.shape out = [1%nat]
    /\ forall b c, (b < 1)%nat -> (c < 1)%nat ->
         nth (b * 1 + c) (Tensor.data out) 0
         = Rsqr (Cx.abs (conj_overlap (Tensor.map Cx.of_real weight_2_3)
                           (Field.data field_1_i)
                           (PlanarGeometry.cell_area unit_geometry_1x2)
                           1 2 b c))
         /\ nth (b * 1 + c) (Tensor.data out) 0
            = Rsqr (Cx.abs (overlap (Tensor.map Cx.of_real weight_2_3)
                              (Field.data field_1_i)
                              (PlanarGeometry.cell_area unit_geometry_1x2)
                              1 2 b c)).
Proof.
  apply (FieldDetector_forward_real_weight no_geometry_str
           weight_2_3 1 1 2 0 (1, 1) (0, 0)
           {| Elements.fd_geometry := unit_geometry_1x2;
              Elements.fd_weight := Tensor.map Cx.of_real weight_2_3 |}
           field_1_i []).
  - reflexivity.
  - reflexivity.
  - exact FieldDetector_init_weight_2_3.
  - exact field_1_i_scalar.
  - apply is_same_geometry_refl.
Defined.

(* ===================================================================== *)
(** ** Coherence profiles: the Schell model *)
(* ===================================================================== *)

Section SchellModelValues.

Import Profiles.

Lemma nth_outer2d_real_n (a : list XR.t) (n p q : nat) :
  length a = n -> (p < n)%nat -> (q < n)%nat ->
  nth (p * n + q) (outer2d_real a a) XR.NaN
  = XR.mul (nth p a XR.NaN) (nth q a XR.NaN).
Proof. intros <- Hp Hq. apply nth_outer2d_real; assumption. Qed.

(** X9 - [schell_model] computes the formula of its docstring.  For an
    intensity function and a coherence function that are evaluated point by
    point, with the intensity nowhere negative, the entry for the cells [p]
    and [q] (in row-major order) is
    [sqrt(I(x_p, y_p) * I(x_q, y_q)) * mu(x_p - x_q, y_p - y_q)]; so the
    entry for [(p, p)] is [I(x_p, y_p) * mu(0, 0)]. *)
Theorem schell_model_pointwise
    (shape : nat * nat) (I mu : R -> R -> R) (spacing offset : R * R) :
  (0 < fst shape)%nat -> (0 < snd shape)%nat ->
  0 < fst spacing -> 0 < snd spacing ->
  (forall x y, 0 <= I x y) ->
  let g := PlanarGeometry.make shape 0 spacing offset in
  let x k := nth k (fst (meshgrid g)) 0 in
  let y k := nth k (snd (meshgrid g)) 0 in
  let n := (fst shape * snd shape)%nat in
  exists t,
    schell_model shape
      (fun x y => Ok (map2 (fun x y => XR.Fin (I x y)) x y))
      (fun x y => Ok (Doubles (map2 (fun x y => XR.Fin (mu x y)) x y)))
      spacing offset = Ok t
    /\ Tensor.shape t = [fst shape; snd shape; fst shape; snd shape]
    /\ length (Tensor.data t) = (n * n)%nat
    /\ (forall p q, (p < n)%nat -> (q < n)%nat ->
          nth (p * n + q) (Tensor.data t) XR.NaN
          = XR.Fin (sqrt (I (x p) (y p) * I (x q) (y q))
                    * mu (x p - x q) (y p - y q)))
    /\ (forall p, (p < n)%nat ->
          nth (p * n + p) (Tensor.data t) XR.NaN
          = XR.Fin (I (x p) (y p) * mu 0 0)).
Proof.
  intros H1 H2 H3 H4 HI g x y n.
  unfold schell_model.
  rewrite PlanarGeometry_init_valid by assumption. cbn [bind]. fold g.
  destruct (meshgrid_length g) as [Lx Ly].
  cbn [PlanarGeometry.shape g] in Lx, Ly. fold n in Lx, Ly.
  unfold x, y. clear x y.
  destruct (meshgrid g) as [xs ys]. cbn [fst snd] in *. cbn [bind].
  set (Is := map2 (fun x y => XR.Fin (I x y)) xs ys).
  assert (LI : length Is = n).
  { unfold Is. rewrite length_map2; congruence. }
  assert (Lso : length (List.map XR.sqrt (outer2d_real Is Is)) = (n * n)%nat).
  { rewrite length_map, length_outer2d_real, LI. reflexivity. }
  assert (Ldx : length (pairwise_diff xs) = (n * n)%nat)
    by (rewrite length_pairwise_diff, Lx; reflexivity).
  assert (Ldy : length (pairwise_diff ys) = (n * n)%nat)
    by (rewrite length_pairwise_diff, Ly; reflexivity).
  assert (Hentry : forall p q, (p < n)%nat -> (q < n)%nat ->
            nth (p * n + q)
              (mul_coherence (List.map XR.sqrt (outer2d_real Is Is))
                 (Doubles (map2 (fun x y => XR.Fin (mu x y))
                                (pairwise_diff xs) (pairwise_diff ys)))) XR.NaN
            = XR.Fin (sqrt (I (nth p xs 0) (nth p ys 0)
                            * I (nth q xs 0) (nth q ys 0))
                      * mu (nth p xs 0 - nth q xs 0)
                           (nth p ys 0 - nth q ys 0))).
  { intros p q Hp Hq.
    assert (HQ : (p * n + q < n * n)%nat) by nia.
    unfold mul_coherence.
    rewrite nth_map2 with (da := XR.NaN) (db := XR.NaN);
      [|rewrite Lso, length_map2; congruence|rewrite Lso; exact HQ].
    rewrite nth_map_lt with (d := XR.NaN)
      by (rewrite length_outer2d_real, LI; exact HQ).
    rewrite nth_outer2d_real_n by assumption.
    unfold Is. rewrite !nth_map2 with (da := 0) (db := 0) by lia.
    rewrite !nth_pairwise_diff_n with (n := n) by assumption.
    cbn [XR.mul XR.sqrt].
    assert (E : Rleb 0 (I (nth p xs 0) (nth p ys 0)
                        * I (nth q xs 0) (nth q ys 0)) = true).
    { apply Rleb_true. apply Rmult_le_pos; apply HI. }
    rewrite E. reflexivity. }
  eexists; split; [reflexivity|].
  cbn [Tensor.shape Tensor.data].
  split; [reflexivity|]. split.
  { unfold mul_coherence. rewrite length_map2; [exact Lso|].
    rewrite Lso, length_map2; congruence. }
  split.
  - exact Hentry.
  - intros p Hp. rewrite Hentry by assumption. f_equal.
    rewrite sqrt_square by apply HI.
    rewrite !Rminus_diag. reflexivity.
Qed.

End SchellModelValues.

Section SchellModelFacts.

Import Profiles.

(** [gaussian_schell_model] sees its two widths only through their
    squares. *)
Lemma gaussian_schell_model_squares
    (shape : nat * nat) (w0 w0' cw cw' : R) (spacing offset : R * R) :
  w0 * w0 = w0' * w0' -> cw * cw = cw' * cw' ->
  gaussian_schell_model shape w0 cw spacing offset
  = gaussian_schell_model shape w0' cw' spacing offset.
Proof.
  intros Ew Ec. unfold gaussian_schell_model.
  assert (Ez : Reqb cw 0 = Reqb cw' 0).
  { destruct (Reqb cw' 0) eqn:E.
    - apply Reqb_true in E. apply Reqb_true. subst cw'.
      rewrite Rmult_0_l in Ec. apply Rmult_integral in Ec. tauto.
    - apply Reqb_false in E. apply Reqb_false. intros ->.
      rewrite Rmult_0_l in Ec. symmetry in Ec.
      apply Rmult_integral in Ec. tauto. }
  rewrite Ew, Ec, Ez. reflexivity.
Qed.

(** X7 - [gaussian_schell_model] never looks at the signs of
    [waist_radius] and [coherence_width]: both enter through their squares
    and through the test [coherence_width == 0], so negating either gives
    the same result, be it a tensor or an error. *)
Theorem gaussian_schell_model_ignores_signs
    (shape : nat * nat) (w0 cw : R) (spacing offset : R * R) :
  gaussian_schell_model shape (- w0) cw spacing offset
  = gaussian_schell_model shape w0 cw spacing offset
  /\ gaussian_schell_model shape w0 (- cw) spacing offset
     = gaussian_schell_model shape w0 cw spacing offset.
Proof.
  split; apply gaussian_schell_model_squares; ring.
Qed.

(** X8 - With a valid shape and spacing, [gaussian_schell_model] with
    [waist_radius = 0] raises ZeroDivisionError, whatever the coherence
    width is: the peak intensity [2 / (pi * waist_radius ** 2)] is a division
    of two Python floats. *)
Theorem gaussian_schell_model_zero_waist
    (shape : nat * nat) (cw : R) (spacing offset : R * R) :
  (0 < fst shape)%nat -> (0 < snd shape)%nat ->
  0 < fst spacing -> 0 < snd spacing ->
  exists msg,
    gaussian_schell_model shape 0 cw spacing offset
    = Raise (ZeroDivisionError msg).
Proof.
  intros H1 H2 H3 H4.
  unfold gaussian_schell_model, schell_model.
  rewrite PlanarGeometry_init_valid by assumption. cbn [bind].
  destruct (meshgrid _) as [x y].
  unfold float_div.
  assert (E : Reqb (PI * (0 * 0)) 0 = true) by (apply Reqb_true; ring).
  rewrite E. cbn [bind]. eexists. reflexivity.
Qed.

End SchellModelFacts.

(** X8 (witness) - a single grid point with unit spacing and unit
    coherence width. *)
Lemma gaussian_schell_model_zero_waist_witness :
  exists msg,
    Profiles.gaussian_schell_model (1%nat, 1%nat) 0 1 (1, 1) (0, 0)
    = Raise (ZeroDivisionError msg).
Proof.
  apply (gaussian_schell_model_zero_waist (1%nat, 1%nat) 1 (1, 1) (0, 0)).
  - simpl; lia.
  - simpl; lia.
  - simpl; lra.
  - simpl; lra.
Defined.

(** X9 (witness) - the theorem on a 1 x 2 grid of unit cells for the
    constant intensity 1 and the constant coherence 1. *)
Lemma schell_model_pointwise_witness :
  let g := PlanarGeometry.make (1%nat, 2%nat) 0 (1, 1) (0, 0) in
  let x k := nth k (fst (Profiles.meshgrid g)) 0 in
  let y k := nth k (snd (Profiles.meshgrid g)) 0 in
  exists t,
    Profiles.schell_model (1%nat, 2%nat)
      (fun x y => Ok (Profiles.map2 (fun _ _ => XR.Fin 1) x y))
      (fun x y => Ok (Profiles.Doubles
                        (Profiles.map2 (fun _ _ => XR.Fin 1) x y)))
      (1, 1) (0, 0) = Ok t
    /\ Tensor.shape t = [1%nat; 2%nat; 1%nat; 2%nat]
    /\ length (Tensor.data t) = 4%nat
    /\ (forall p q, (p < 2)%nat -> (q < 2)%nat ->
          nth (p * 2 + q) (Tensor.data t) XR.NaN
          = XR.Fin (sqrt (1 * 1) * 1))
    /\ (forall p, (p < 2)%nat ->
          nth (p * 2 + p) (Tensor.data t) XR.NaN = XR.Fin (1 * 1)).
Proof.
  apply (schell_model_pointwise (1%nat, 2%nat)
           (fun _ _ => 1) (fun _ _ => 1) (1, 1) (0, 0)).
  - simpl; lia.
  - simpl; lia.
  - simpl; lra.
  - simpl; lra.
  - intros; lra.
Defined.


Section SymmetricRounding.

Variable rnd : R -> XR.t.

Hypothesis rnd_opp : forall v, rnd (- v) = Doubles.xr_opp (rnd v).

Lemma XR_mul_comm (a b : XR.t) : XR.mul a b = XR.mul b a.
Proof.
  destruct a, b; cbn [XR.mul]; try reflexivity.
  rewrite Rmult_comm. reflexivity.
Qed.

Lemma round_opp (z : XR.t) :
  Doubles.round rnd (Doubles.xr_opp z) = Doubles.xr_opp (Doubles.round rnd z).
Proof. destruct z; try reflexivity. apply rnd_opp. Qed.

(** [b - a] is the opposite of [a - b]. *)
Lemma round_sub_swap (a b : XR.t) :
  Doubles.round rnd (Doubles.xr_add b (Doubles.xr_opp a))
  = Doubles.xr_opp (Doubles.round rnd (Doubles.xr_add a (Doubles.xr_opp b))).
Proof.
  rewrite <- round_opp. f_equal.
  destruct a, b; cbn [Doubles.xr_add Doubles.xr_opp]; try reflexivity.
  f_equal. ring.
Qed.

Lemma xr_eqb_opp_0 (d : XR.t) :
  Doubles.xr_eqb (Doubles.xr_opp d) (XR.Fin 0) = Doubles.xr_eqb d (XR.Fin 0).
Proof.
  destruct d as [v| | |]; try reflexivity.
  cbn [Doubles.xr_opp Doubles.xr_eqb].
  destruct (Reqb v 0) eqn:E.
  - apply Reqb_true in E. apply Reqb_true. lra.
  - apply Reqb_false in E. apply Reqb_false. lra.
Qed.

Lemma XR_mul_opp_opp (d : XR.t) :
  XR.mul (Doubles.xr_opp d) (Doubles.xr_opp d) = XR.mul d d.
Proof.
  destruct d; cbn [Doubles.xr_opp XR.mul]; try reflexivity.
  f_equal. ring.
Qed.

End SymmetricRounding.

Section SchellSymmetry.

Variable rnd : R -> XR.t.

Let ops : Doubles.Ops XR.t := Doubles.rounded rnd.

Local Existing Instance ops.

Variable meshgrid_of :
  nat * nat -> XR.t * XR.t -> XR.t * XR.t -> result (list XR.t * list XR.t).

Variable exp : XR.t -> XR.t.

(** X10 - The tensor that [gaussian_schell_model] returns is symmetric
    under the exchange of its two points: over doubles with any rounding
    that commutes with the change of sign, the entry for the cells [p] and
    [q] is the entry for [q] and [p], bit for bit, for every waist radius
    and every coherence width, zero or not. *)
Theorem gaussian_schell_model_symmetric
    (shape : nat * nat) (waist_radius coherence_width : XR.t)
    (spacing offset : XR.t * XR.t) (x y : list XR.t) (t : Tensor.t XR.t) :
  (forall v, rnd (- v) = Doubles.xr_opp (rnd v)) ->
  meshgrid_of shape spacing offset = Ok (x, y) ->
  length x = (fst shape * snd shape)%nat ->
  length y = (fst shape * snd shape)%nat ->
  Doubles.gaussian_schell_model meshgrid_of exp shape waist_radius
    coherence_width spacing offset = Ok t ->
  let n := (fst shape * snd shape)%nat in
  length (Tensor.data t) = (n * n)%nat
  /\ forall p q, (p < n)%nat -> (q < n)%nat ->
       nth (p * n + q) (Tensor.data t) XR.NaN
       = nth (q * n + p) (Tensor.data t) XR.NaN.
Proof.
  intros rnd_opp Hm Lx Ly Ht n.
  unfold Doubles.gaussian_schell_model in Ht.
  destruct (Doubles_schell_model_Ok _ _ _ _ _ _ _ _ _ Hm Ht)
    as (I & c & HI & Hc & ->).
  cbn [Tensor.data]. clear Ht.
  assert (LI : length I = n).
  { destruct (Doubles.py_square waist_radius) as [w2|]; [|discriminate HI].
    cbn [bind] in HI.
    destruct (Doubles.py_div _ _) as [peak|]; [|discriminate HI].
    cbn [bind] in HI. injection HI as <-.
    rewrite length_map2 by (rewrite Lx, Ly; reflexivity). exact Lx. }
  clear HI.
  assert (Lso : length (List.map Doubles.d_sqrt (Doubles.outer2d I I))
                = (n * n)%nat).
  { rewrite length_map, Doubles_length_outer2d, LI. reflexivity. }
  assert (Ldx : length (Doubles.pairwise_diff x) = (n * n)%nat).
  { rewrite Doubles_length_pairwise_diff, Lx. reflexivity. }
  assert (Ldy : length (Doubles.pairwise_diff y) = (n * n)%nat).
  { rewrite Doubles_length_pairwise_diff, Ly. reflexivity. }
  assert (Ld : length (Doubles.pairwise_diff x)
               = length (Doubles.pairwise_diff y)) by congruence.
  assert (Eroot : forall p q, (p < n)%nat -> (q < n)%nat ->
            nth (p * n + q)
              (List.map Doubles.d_sqrt (Doubles.outer2d I I)) XR.NaN
            = nth (q * n + p)
                (List.map Doubles.d_sqrt (Doubles.outer2d I I)) XR.NaN).
  { intros p q Hp' Hq'. rewrite !Doubles_nth_sqrt_outer by assumption.
    unfold ops. cbn [Doubles.d_mul Doubles.d_sqrt Doubles.rounded].
    rewrite XR_mul_comm. reflexivity. }
  assert (Esub : forall (z : list XR.t) p q,
            length z = n -> (p < n)%nat -> (q < n)%nat ->
            nth (q * n + p) (Doubles.pairwise_diff z) XR.NaN
            = Doubles.xr_opp
                (nth (p * n + q) (Doubles.pairwise_diff z) XR.NaN)).
  { intros z p q Lz Hp' Hq'.
    rewrite !Doubles_nth_pairwise_diff with (n := n) by assumption.
    unfold ops. cbn [Doubles.d_sub Doubles.rounded].
    apply round_sub_swap. exact rnd_opp. }
  assert (HQ : forall p q, (p < n)%nat -> (q < n)%nat ->
            (p * n + q < n * n)%nat) by (intros; nia).
  destruct (Doubles.d_eqb coherence_width Doubles.d_zero).
  - injection Hc as <-. unfold Doubles.mul_coherence.
    match goal with
    | |- context [Profiles.map2 _ _ (Profiles.map2 ?g _ _)] =>
        set (mask := Profiles.map2 g (Doubles.pairwise_diff x)
                       (Doubles.pairwise_diff y))
    end.
    assert (Lmask : length mask = (n * n)%nat).
    { unfold mask. rewrite length_map2 by exact Ld. exact Ldx. }
    split.
    { rewrite length_map2 by congruence. exact Lso. }
    intros p q Hp' Hq'.
    rewrite !nth_map2 with (da := XR.NaN) (db := false)
      by (first [congruence | rewrite Lso; apply HQ; assumption]).
    unfold mask.
    rewrite !nth_map2 with (da := XR.NaN) (db := XR.NaN)
      by (first [exact Ld | rewrite Ldx; apply HQ; assumption]).
    rewrite (Eroot p q) by assumption.
    rewrite (Esub x p q), (Esub y p q) by assumption.
    unfold ops. cbn [Doubles.d_eqb Doubles.d_zero Doubles.rounded].
    rewrite !xr_eqb_opp_0. reflexivity.
  - destruct (Doubles.py_square coherence_width) as [c2|];
      [|discriminate Hc].
    cbn [bind] in Hc. injection Hc as <-. unfold Doubles.mul_coherence.
    match goal with
    | |- context [Profiles.map2 _ _ (Profiles.map2 ?g _ _)] =>
        set (coherence := Profiles.map2 g (Doubles.pairwise_diff x)
                            (Doubles.pairwise_diff y))
    end.
    assert (Lc : length coherence = (n * n)%nat).
    { unfold coherence. rewrite length_map2 by exact Ld. exact Ldx. }
    split.
    { rewrite length_map2 by congruence. exact Lso. }
    intros p q Hp' Hq'.
    rewrite !nth_map2 with (da := XR.NaN) (db := XR.NaN)
      by (first [congruence | rewrite Lso; apply HQ; assumption]).
    unfold coherence.
    rewrite !nth_map2 with (da := XR.NaN) (db := XR.NaN)
      by (first [exact Ld | rewrite Ldx; apply HQ; assumption]).
    rewrite (Eroot p q) by assumption.
    rewrite (Esub x p q), (Esub y p q) by assumption.
    unfold ops. cbn [Doubles.d_mul Doubles.rounded].
    rewrite !XR_mul_opp_opp. reflexivity.
Qed.

End SchellSymmetry.

Section ExactSchell.

Local Existing Instance Doubles.exact.

(** With exact arithmetic as the rounding, a unit waist and a unit
    coherence width, [gaussian_schell_model] returns on the grid of two
    points at [y = -1/2] and [y = 1/2]. *)
Lemma gaussian_schell_model_exact_1x2 :
  exists t,
    Doubles.gaussian_schell_model Doubles.meshgrid XR.exp
      (1%nat, 2%nat) (XR.Fin 1) (XR.Fin 1)
      (XR.Fin 1, XR.Fin 1) (XR.Fin 0, XR.Fin 0) = Ok t.
Proof.
  pose proof PI_RGT_0 as Hpi.
  assert (A1 : Reqb (PI * (1 * 1)) 0 = false) by (apply Reqb_false; lra).
  assert (E1 : Reqb 1 0 = false) by (apply Reqb_false; lra).
  unfold Doubles.gaussian_schell_model, Doubles.schell_model.
  rewrite meshgrid_1x2_exact. cbn [bind fst snd].
  unfold Doubles.py_square, Doubles.py_div.
  cbn [Doubles.d_mul Doubles.d_is_inf Doubles.d_eqb Doubles.d_pi
       Doubles.d_zero Doubles.rounded Doubles.exact Doubles.round XR.mul
       Doubles.xr_is_inf Doubles.xr_eqb andb negb bind].
  rewrite A1. cbn [bind]. rewrite E1. cbn [bind].
  eexists. reflexivity.
Qed.

(** X10 (witness) - the theorem on that grid: the two entries for the pair
    of different points are equal. *)
Lemma gaussian_schell_model_symmetric_witness :
  exists t,
    Doubles.gaussian_schell_model Doubles.meshgrid XR.exp
      (1%nat, 2%nat) (XR.Fin 1) (XR.Fin 1)
      (XR.Fin 1, XR.Fin 1) (XR.Fin 0, XR.Fin 0) = Ok t
    /\ length (Tensor.data t) = 4%nat
    /\ nth 1 (Tensor.data t) XR.NaN = nth 2 (Tensor.data t) XR.NaN.
Proof.
  destruct gaussian_schell_model_exact_1x2 as [t Ht].
  exists t. split; [exact Ht|].
  destruct (gaussian_schell_model_symmetric XR.Fin Doubles.meshgrid XR.exp
              (1%nat, 2%nat) (XR.Fin 1) (XR.Fin 1)
              (XR.Fin 1, XR.Fin 1) (XR.Fin 0, XR.Fin 0)
              [XR.Fin 0; XR.Fin 0] [XR.Fin (- (1 / 2)); XR.Fin (1 / 2)] t
              (fun v => eq_refl) meshgrid_1x2_exact eq_refl eq_refl Ht)
    as [L P].
  split; [exact L|].
  apply (P 0%nat 1%nat); simpl; lia.
Defined.

End ExactSchell.

(* ===================================================================== *)
(** ** The sinc profile *)
(* ===================================================================== *)

Section SincDoubles.

Variable rnd : R -> XR.t.

Let ops : Doubles.Ops XR.t := Doubles.rounded rnd.

Local Existing Instance ops.

Variable meshgrid_of :
  nat * nat -> XR.t * XR.t -> XR.t * XR.t -> result (list XR.t * list XR.t).

Variable torch_sinc : XR.t -> XR.t.

Variable Vector2 : Type.

Variable initialize_scale : Vector2 -> result (XR.t * XR.t).

(** X11 - Over doubles with any rounding that returns no NaN, and a
    [torch.sinc] that is finite at finite arguments: for a shape, spacing
    and offset that [PlanarGeometry] accepts and a scale that
    [initialize_tensor] accepts as the two factors [a] and [b], [sinc]
    returns a tensor of the shape whose entry at a grid point is the
    computed product of [torch.sinc] at the computed quotients [x / a] and
    [y / b].  The entry is not NaN where both quotients are finite.  With
    [torch.sinc(0) = 1] and a rounding that keeps 0 and 1, the entry at a
    grid point with [x = y = 0] is exactly 1, for factors that are neither
    0 nor NaN. *)
Theorem sinc_values
    (shape : nat * nat) (scale : Vector2) (a b : XR.t)
    (spacing offset : XR.t * XR.t) (x y : list XR.t) :
  (forall v, rnd v <> XR.NaN) ->
  (forall v, exists u, torch_sinc (XR.Fin v) = XR.Fin u) ->
  meshgrid_of shape spacing offset = Ok (x, y) ->
  length x = (fst shape * snd shape)%nat ->
  length y = (fst shape * snd shape)%nat ->
  initialize_scale scale = Ok (a, b) ->
  exists t,
    Doubles.sinc meshgrid_of torch_sinc Vector2 initialize_scale
      shape scale spacing offset = Ok t
    /\ Tensor.shape t = [fst shape; snd shape]
    /\ length (Tensor.data t) = (fst shape * snd shape)%nat
    /\ forall k, (k < fst shape * snd shape)%nat ->
         let u := Doubles.d_div (nth k x XR.NaN) a in
         let v := Doubles.d_div (nth k y XR.NaN) b in
         let e := nth k (Tensor.data t) XR.NaN in
         e = Doubles.d_mul (torch_sinc u) (torch_sinc v)
         /\ ((exists u' v', u = XR.Fin u' /\ v = XR.Fin v') ->
             XR.is_nan e = false)
         /\ (nth k x XR.NaN = XR.Fin 0 -> nth k y XR.NaN = XR.Fin 0 ->
             Doubles.d_eqb a Doubles.d_zero = false ->
             Doubles.d_is_nan a = false ->
             Doubles.d_eqb b Doubles.d_zero = false ->
             Doubles.d_is_nan b = false ->
             rnd 0 = XR.Fin 0 -> rnd 1 = XR.Fin 1 ->
             torch_sinc (XR.Fin 0) = XR.Fin 1 ->
             e = XR.Fin 1).
Proof.
  intros Hrnd Hs Hm Lx Ly Hi. unfold Doubles.sinc.
  rewrite Hm. cbn [bind fst snd]. rewrite Hi. cbn [bind fst snd].
  eexists. split; [reflexivity|]. cbn [Tensor.shape Tensor.data].
  split; [reflexivity|]. split.
  { rewrite length_map2; congruence. }
  intros k Hk. cbv zeta.
  rewrite nth_map2 with (da := XR.NaN) (db := XR.NaN) by lia.
  split; [reflexivity|]. split.
  - intros (u' & v' & -> & ->).
    destruct (Hs u') as [s1 ->]. destruct (Hs v') as [s2 ->].
    unfold ops. cbn [Doubles.d_mul Doubles.rounded XR.mul Doubles.round].
    apply rnd_is_nan. exact Hrnd.
  - intros -> -> Ha Na Hb Nb H0 H1 Hs0. revert Ha Na Hb Nb. unfold ops.
    cbn [Doubles.d_div Doubles.d_mul Doubles.d_eqb Doubles.d_is_nan
         Doubles.d_zero Doubles.rounded].
    intros Ha Na Hb Nb.
    rewrite !round_zero_div by assumption. rewrite Hs0.
    cbn [XR.mul Doubles.round]. rewrite Rmult_1_r. exact H1.
Qed.

End SincDoubles.

Section ExactSinc.

Local Existing Instance Doubles.exact.

(** X11 (witness) - the theorem on the grid of the three points [(0, -1)],
    [(0, 0)] and [(0, 1)], with exact arithmetic as the rounding, the
    normalized sinc for [torch.sinc] and the scale (2, 2): the entry at the
    first point is [sinc(0) * sinc(-1/2)] and is not NaN, and the entry at
    the origin is 1. *)
Lemma sinc_values_witness :
  exists t,
    Doubles.sinc Doubles.meshgrid (XR.apply Profiles.torch_sinc)
      (XR.t * XR.t)%type initialize_scale_pair
      (1%nat, 3%nat) (XR.Fin 2, XR.Fin 2)
      (XR.Fin 1, XR.Fin 1) (XR.Fin 0, XR.Fin 0) = Ok t
    /\ Tensor.shape t = [1%nat; 3%nat]
    /\ nth 0 (Tensor.data t) XR.NaN
       = XR.Fin (Profiles.torch_sinc (0 / 2)
                 * Profiles.torch_sinc (- (1) / 2))
    /\ XR.is_nan (nth 0 (Tensor.data t) XR.NaN) = false
    /\ nth 1 (Tensor.data t) XR.NaN = XR.Fin 1.
Proof.
  assert (E2 : Reqb 2 0 = false) by (apply Reqb_false; lra).
  assert (Hi : initialize_scale_pair (XR.Fin 2, XR.Fin 2)
               = Ok (XR.Fin 2, XR.Fin 2)).
  { unfold initialize_scale_pair. cbn [fst snd Doubles.xr_ltb].
    rewrite Rleb_pos_0 by lra. reflexivity. }
  destruct (sinc_values XR.Fin Doubles.meshgrid
              (XR.apply Profiles.torch_sinc) (XR.t * XR.t)%type
              initialize_scale_pair (1%nat, 3%nat)
              (XR.Fin 2, XR.Fin 2) (XR.Fin 2) (XR.Fin 2)
              (XR.Fin 1, XR.Fin 1) (XR.Fin 0, XR.Fin 0)
              [XR.Fin 0; XR.Fin 0; XR.Fin 0]
              [XR.Fin (- (1)); XR.Fin 0; XR.Fin 1])
    as (t & E & S & _ & P).
  - intros v H. discriminate H.
  - intros v. exists (Profiles.torch_sinc v). reflexivity.
  - exact meshgrid_1x3_exact.
  - reflexivity.
  - reflexivity.
  - exact Hi.
  - exists t. split; [exact E|]. split; [exact S|].
    destruct (P 0%nat) as (V0 & N0 & _); [simpl; lia|].
    destruct (P 1%nat) as (_ & _ & O1); [simpl; lia|].
    cbn [nth Doubles.d_div Doubles.d_mul Doubles.rounded Doubles.exact
         Doubles.round XR.div] in V0, N0.
    rewrite E2 in V0, N0.
    cbn [XR.apply XR.mul Doubles.round] in V0, N0.
    split; [exact V0|]. split.
    + apply N0. eexists _, _. split; reflexivity.
    + apply O1; try reflexivity; try exact E2.
      cbn [XR.apply]. f_equal. unfold Profiles.torch_sinc.
      rewrite Reqb_refl. reflexivity.
Defined.

End ExactSinc.

(* ===================================================================== *)
(** ** The detector test: block weights on a field of unit modulus *)
(* ===================================================================== *)

Section DetectorBlocks.

Import Elements.

Variable geometry_str : PlanarGeometry.t -> string.

Lemma Rbig_indicator (n a : nat) :
  big 0 Rplus n (fun k => if Nat.ltb k a then 1 else 0) = INR (Nat.min a n).
Proof.
  revert a. induction n as [|n IH]; intros a.
  - rewrite big_0, Nat.min_0_r. reflexivity.
  - rewrite big_S. destruct a as [|a].
    + rewrite big_ext with (g := fun k => if Nat.ltb k 0 then 1 else 0)
        by reflexivity.
      rewrite IH. simpl. ring.
    + rewrite big_ext with (g := fun k => if Nat.ltb k a then 1 else 0)
        by reflexivity.
      rewrite IH.
      change (Nat.min (S a) (S n)) with (S (Nat.min a n)).
      rewrite S_INR. simpl. ring.
Qed.

Lemma Rbig_mul_l n f c :
  c * big 0 Rplus n f = big 0 Rplus n (fun k => c * f k).
Proof.
  rewrite Rmult_comm, Rbig_mul_r. apply big_ext. intros; ring.
Qed.

Lemma Rbig_block (H W a b : nat) :
  big 0 Rplus H (fun i => big 0 Rplus W (fun j =>
    if (Nat.ltb i a && Nat.ltb j b)%bool then 1 else 0))
  = INR (Nat.min a H * Nat.min b W).
Proof.
  rewrite big_ext
    with (g := fun i => (if Nat.ltb i a then 1 else 0) * INR (Nat.min b W)).
  - rewrite <- Rbig_mul_r, Rbig_indicator, mult_INR. reflexivity.
  - intros i _. rewrite <- Rbig_indicator, Rbig_mul_l.
    apply big_ext. intros j _.
    destruct (Nat.ltb i a), (Nat.ltb j b); simpl; ring.
Qed.

Lemma block_weights_length (H W : nat) (blocks : list (nat * nat)) :
  length (Tensor.data (block_weights H W blocks))
  = (length blocks * (H * W))%nat.
Proof.
  unfold block_weights. cbn [Tensor.data].
  apply length_flat_map_rect. intros ab.
  rewrite length_flat_map_rect with (n := W).
  - rewrite length_seq. reflexivity.
  - intros i. rewrite length_map, length_seq. reflexivity.
Qed.

Lemma block_weights_entry (H W : nat) (blocks : list (nat * nat))
    (c i j : nat) :
  (c < length blocks)%nat -> (i < H)%nat -> (j < W)%nat ->
  nth (c * (H * W) + (i * W + j)) (Tensor.data (block_weights H W blocks)) 0
  = if (Nat.ltb i (fst (nth c blocks (O, O)))
        && Nat.ltb j (snd (nth c blocks (O, O))))%bool
    then 1 else 0.
Proof.
  intros Hc Hi Hj. unfold block_weights. cbn [Tensor.data].
  rewrite nth_flat_map_rect with (n := (H * W)%nat) (da := (O, O));
    [| |exact Hc|nia].
  2:{ intros ab. rewrite length_flat_map_rect with (n := W).
      - rewrite length_seq. reflexivity.
      - intros k. rewrite length_map, length_seq. reflexivity. }
  rewrite nth_flat_map_rect with (n := W) (da := O);
    [| |rewrite length_seq; exact Hi|exact Hj].
  2:{ intros k. rewrite length_map, length_seq. reflexivity. }
  rewrite seq_nth by exact Hi.
  rewrite nth_map_seq by exact Hj. reflexivity.
Qed.

(** X12 - The rule behind [test_intensity_detector]: on a scalar field
    without leading axes whose entries all have modulus 1, a detector whose
    channel [c] is 1 on the block [[:a, :b]] of the grid and 0 elsewhere
    returns, for that channel, the number of cells of the block,
    [min(a, H) * min(b, W)], times the cell area. *)
Theorem IntensityDetector_counts_block_cells
    (H W : nat) (blocks : list (nat * nat)) (z : R) (spacing offset : R * R)
    (det : IntensityDetector) (f : Field.t) :
  IntensityDetector_init (PyTensor (RealTensor (block_weights H W blocks)))
    z spacing offset = Ok det ->
  Field.is_scalar [] f ->
  (forall q, (q < H * W)%nat ->
     Cx.norm2 (nth q (Tensor.data (Field.data f)) Cx.zero) = 1) ->
  PlanarGeometry.is_same_geometry (id_geometry det) (Field.geometry f) = true ->
  exists out,
    IntensityDetector_forward geometry_str det (PyField f) = Ok out
    /\ Tensor.shape out = [length blocks]
    /\ forall c, (c < length blocks)%nat ->
         nth c (Tensor.data out) 0
         = INR (Nat.min (fst (nth c blocks (O, O))) H
                * Nat.min (snd (nth c blocks (O, O))) W)
           * (fst spacing * snd spacing).
Proof.
  intros Hi Hf Hone Hsame.
  destruct (IntensityDetector_init_Ok _ _ _ _ _ Hi)
    as (x & C & H' & W' & Hx & Hs & Hdw & Hg & _).
  assert (x = RealTensor (block_weights H W blocks))
    by (destruct Hx; congruence).
  subst x. cbn [double] in Hdw.
  cbn [tt_shape block_weights Tensor.shape] in Hs.
  injection Hs as <- <- <-.
  destruct (IntensityDetector_forward_flat geometry_str det f []
              (length blocks) H W)
    as (out & Hout & Hsh & Hlen & Hent); try assumption.
  { rewrite Hdw. reflexivity. }
  { rewrite Hdw. unfold Tensor.well_formed.
    rewrite block_weights_length. cbn [block_weights Tensor.shape].
    rewrite numel_3. reflexivity. }
  { rewrite Hg. reflexivity. }
  exists out. split; [exact Hout|]. split; [exact Hsh|].
  intros c Hc.
  replace c with (0 * length blocks + c)%nat at 1 by lia.
  rewrite Hent by (simpl; lia).
  rewrite Hg. unfold PlanarGeometry.cell_area. cbn [PlanarGeometry.spacing].
  f_equal.
  rewrite big_flatten; [|intros; ring|intros; ring].
  rewrite <- Rbig_block.
  apply big_ext; intros i Hi'. apply big_ext; intros j Hj.
  rewrite Hdw, block_weights_entry by assumption.
  cbn [Nat.mul Nat.add]. rewrite Hone by nia. ring.
Qed.

End DetectorBlocks.

Lemma test_ones_field_scalar : Field.is_scalar [] test_ones_field.
Proof.
  split; [reflexivity|]. split; [reflexivity|].
  unfold Tensor.well_formed, test_ones_field.
  cbn [Field.data Tensor.data Tensor.shape].
  rewrite repeat_length, numel_2. reflexivity.
Qed.

Lemma IntensityDetector_init_test_weight :
  Elements.IntensityDetector_init
    (PyTensor (RealTensor
       (block_weights 100 100 [(50%nat, 60%nat); (40%nat, 30%nat)])))
    0 (1, 1) (0, 0)
  = Ok {| Elements.id_geometry :=
            PlanarGeometry.make (100%nat, 100%nat) 0 (1, 1) (0, 0);
          Elements.id_weight :=
            block_weights 100 100 [(50%nat, 60%nat); (40%nat, 30%nat)] |}.
Proof.
  unfold Elements.IntensityDetector_init.
  rewrite validate_weight_3d by reflexivity. cbn [bind].
  change (Elements.planar_shape_of_weight
            (RealTensor
               (block_weights 100 100 [(50%nat, 60%nat); (40%nat, 30%nat)])))
    with (100%nat, 100%nat).
  rewrite PlanarGeometry_init_unit by (cbn [fst snd]; lia). reflexivity.
Qed.

(** X12 (witness) - [test_intensity_detector] itself: the all-ones field
    on a 100 x 100 grid of unit cells and the blocks [[:50, :60]] and
    [[:40, :30]] give 3000 and 1200. *)
Lemma IntensityDetector_counts_block_cells_witness :
  exists out,
    Elements.IntensityDetector_forward no_geometry_str
      {| Elements.id_geometry :=
           PlanarGeometry.make (100%nat, 100%nat) 0 (1, 1) (0, 0);
         Elements.id_weight :=
           block_weights 100 100 [(50%nat, 60%nat); (40%nat, 30%nat)] |}
      (PyField test_ones_field) = Ok out
    /\ Tensor.shape out = [2%nat]
    /\ nth 0 (Tensor.data out) 0 = 3000
    /\ nth 1 (Tensor.data out) 0 = 1200.
Proof.
  destruct (IntensityDetector_counts_block_cells no_geometry_str
              100 100 [(50%nat, 60%nat); (40%nat, 30%nat)] 0 (1, 1) (0, 0)
              {| Elements.id_geometry :=
                   PlanarGeometry.make (100%nat, 100%nat) 0 (1, 1) (0, 0);
                 Elements.id_weight :=
                   block_weights 100 100
                     [(50%nat, 60%nat); (40%nat, 30%nat)] |}
              test_ones_field)
    as (out & Hout & Hsh & Hent).
  - exact IntensityDetector_init_test_weight.
  - exact test_ones_field_scalar.
  - intros q Hq. unfold test_ones_field. cbn [Field.data Tensor.data].
    rewrite nth_repeat_lt by exact Hq.
    unfold Cx.norm2, Cx.one. simpl. ring.
  - apply is_same_geometry_refl.
  - exists out. split; [exact Hout|]. split; [exact Hsh|]. split.
    + rewrite (Hent 0%nat) by (simpl; lia).
      cbn [nth fst snd]. rewrite INR_IZR_INZ.
      replace (Z.of_nat (Nat.min 50 100 * Nat.min 60 100)) with 3000%Z
        by (vm_compute; reflexivity).
      ring.
    + rewrite (Hent 1%nat) by (simpl; lia).
      cbn [nth fst snd]. rewrite INR_IZR_INZ.
      replace (Z.of_nat (Nat.min 40 100 * Nat.min 30 100)) with 1200%Z
        by (vm_compute; reflexivity).
      ring.
Defined.

(* ===================================================================== *)
(** ** Mode sorting with a [FieldDetector] *)
(* ===================================================================== *)

Section DetectorModes.

Import Elements.

Variable geometry_str : PlanarGeometry.t -> string.

Lemma Cx_big_of_real n (f : nat -> R) :
  big Cx.zero Cx.add n (fun q => Cx.of_real (f q))
  = Cx.of_real (big 0 Rplus n f).
Proof.
  revert f. induction n as [|n IH]; intros f.
  - reflexivity.
  - rewrite !big_S, IH.
    apply CxFacts.eq_intro; unfold Cx.add, Cx.of_real; simpl; ring.
Qed.

Lemma nth_of_real (l : list R) (k : nat) :
  nth k (List.map Cx.of_real l) Cx.zero = Cx.of_real (nth k l 0).
Proof. change Cx.zero with (Cx.of_real 0). apply map_nth. Qed.

(** X13 - The rule behind [test_hermite_gaussian_orthogonality]: when the
    channels of a real weight are orthonormal for the sum over the cells
    weighted by the cell area, and the field is channel [k] of that weight,
    [FieldDetector.forward] returns 1 for channel [k] and 0 for every other
    channel. *)
Theorem FieldDetector_orthonormal_modes
    (w : Tensor.t R) (C H W k : nat) (z : R) (spacing offset : R * R)
    (det : FieldDetector) (f : Field.t) :
  Tensor.shape w = [C; H; W] ->
  Tensor.well_formed w ->
  (forall c c', (c < C)%nat -> (c' < C)%nat ->
     big 0 Rplus (H * W)
       (fun q => nth (c * (H * W) + q) (Tensor.data w) 0
                 * nth (c' * (H * W) + q) (Tensor.data w) 0)
     * (fst spacing * snd spacing)
     = if Nat.eqb c c' then 1 else 0) ->
  FieldDetector_init (PyTensor (RealTensor w)) z spacing offset = Ok det ->
  Field.is_scalar [] f ->
  PlanarGeometry.is_same_geometry (fd_geometry det) (Field.geometry f) = true ->
  (k < C)%nat ->
  (forall q, (q < H * W)%nat ->
     nth q (Tensor.data (Field.data f)) Cx.zero
     = Cx.of_real (nth (k * (H * W) + q) (Tensor.data w) 0)) ->
  exists out,
    FieldDetector_forward geometry_str det (PyField f) = Ok out
    /\ Tensor.shape out = [C]
    /\ forall c, (c < C)%nat ->
         nth c (Tensor.data out) 0 = if Nat.eqb c k then 1 else 0.
Proof.
  intros Hw Wf Horth Hi Hf Hsame Hk Hdata.
  destruct (FieldDetector_init_Ok _ _ _ _ _ Hi)
    as (x & C' & H' & W' & Hx & Hs & Hfw & Hg & _).
  assert (x = RealTensor w) by (destruct Hx; congruence). subst x.
  cbn [tt_shape cdouble] in Hs, Hfw. rewrite Hw in Hs.
  injection Hs as <- <- <-.
  destruct (FieldDetector_forward_flat geometry_str det f [] C H W)
    as (out & Hout & Hsh & _ & Hent); try assumption.
  { rewrite Hfw. exact Hw. }
  { rewrite Hfw. unfold Tensor.well_formed.
    cbn [Tensor.map Tensor.shape Tensor.data]. rewrite length_map. exact Wf. }
  { rewrite Hg. reflexivity. }
  exists out. split; [exact Hout|]. split; [exact Hsh|].
  intros c Hc.
  replace c with (0 * C + c)%nat at 1 by lia.
  rewrite Hent by (simpl; lia).
  rewrite Hg. unfold PlanarGeometry.cell_area. cbn [PlanarGeometry.spacing].
  rewrite big_ext
    with (g := fun q => Cx.of_real
                          (nth (c * (H * W) + q) (Tensor.data w) 0
                           * nth (k * (H * W) + q) (Tensor.data w) 0)).
  2:{ intros q Hq. cbn [Nat.mul Nat.add]. rewrite Hdata by exact Hq.
      rewrite Hfw. cbn [Tensor.map Tensor.data]. rewrite nth_of_real.
      apply CxFacts.eq_intro; unfold Cx.mul, Cx.of_real; simpl; ring. }
  rewrite Cx_big_of_real.
  specialize (Horth c k Hc Hk).
  set (s := big 0 Rplus (H * W) _) in *.
  unfold Cx.norm2, Cx.scale, Cx.of_real. cbn [Cx.re Cx.im fst snd].
  replace (fst spacing * snd spacing * s * (fst spacing * snd spacing * s)
           + fst spacing * snd spacing * 0 * (fst spacing * snd spacing * 0))
    with ((s * (fst spacing * snd spacing))
          * (s * (fst spacing * snd spacing))) by ring.
  rewrite Horth. destruct (Nat.eqb c k); ring.
Qed.

End DetectorModes.

Lemma field_0_1_scalar : Field.is_scalar [] field_0_1.
Proof. repeat split. Qed.

Lemma FieldDetector_init_weight_halves :
  Elements.FieldDetector_init (PyTensor (RealTensor weight_halves))
    0 (1, 1) (0, 0)
  = Ok {| Elements.fd_geometry := unit_geometry_1x2;
          Elements.fd_weight := Tensor.map Cx.of_real weight_halves |}.
Proof.
  unfold Elements.FieldDetector_init.
  rewrite validate_weight_3d by reflexivity. cbn [bind].
  unfold Elements.planar_shape_of_weight. cbn [tt_shape Tensor.shape tl weight_halves].
  rewrite PlanarGeometry_init_unit by (simpl; lia). reflexivity.
Qed.

(** X13 (witness) - the two cells of a 1 x 2 grid of unit cells as modes,
    and the field that is the second of them: the detector returns
    [[0, 1]]. *)
Lemma FieldDetector_orthonormal_modes_witness :
  exists out,
    Elements.FieldDetector_forward no_geometry_str
      {| Elements.fd_geometry := unit_geometry_1x2;
         Elements.fd_weight := Tensor.map Cx.of_real weight_halves |}
      (PyField field_0_1) = Ok out
    /\ Tensor.shape out = [2%nat]
    /\ forall c, (c < 2)%nat ->
         nth c (Tensor.data out) 0 = if Nat.eqb c 1 then 1 else 0.
Proof.
  apply (FieldDetector_orthonormal_modes no_geometry_str
           weight_halves 2 1 2 1 0 (1, 1) (0, 0)
           {| Elements.fd_geometry := unit_geometry_1x2;
              Elements.fd_weight := Tensor.map Cx.of_real weight_halves |}
           field_0_1).
  - reflexivity.
  - reflexivity.
  - intros c c' Hc Hc'.
    destruct c as [|[|c]]; [| |lia];
      (destruct c' as [|[|c']]; [| |lia]);
      unfold big, weight_halves;
      cbn [Tensor.data seq List.map fold_right Nat.mul Nat.add nth
           Nat.eqb fst snd]; lra.
  - exact FieldDetector_init_weight_halves.
  - exact field_0_1_scalar.
  - apply is_same_geometry_refl.
  - lia.
  - intros q Hq.
    destruct q as [|[|q]]; [| |simpl in Hq; lia]; reflexivity.
Defined.

(* ===================================================================== *)
(** ** Modulation elements in one plane *)
(* ===================================================================== *)

Section ModulationFacts.

Import Elements.

Variable geometry_str : PlanarGeometry.t -> string.

Lemma mul_entries_from_twice (f g : nat -> Cx.C) :
  forall (l : list Cx.C) (s : nat),
    List.map (fun qv => Cx.mul (snd qv) (g (fst qv)))
      (combine
         (seq s (length
                   (List.map (fun qv => Cx.mul (snd qv) (f (fst qv)))
                      (combine (seq s (length l)) l))))
         (List.map (fun qv => Cx.mul (snd qv) (f (fst qv)))
            (combine (seq s (length l)) l)))
    = List.map (fun qv => Cx.mul (snd qv) (Cx.mul (f (fst qv)) (g (fst qv))))
        (combine (seq s (length l)) l).
Proof.
  induction l as [|a l IH]; intros s; [reflexivity|].
  cbn [length seq combine List.map fst snd]. f_equal.
  - symmetry. apply CxFacts.mul_assoc.
  - apply IH.
Qed.

Lemma mul_entries_twice (f g : nat -> Cx.C) (l : list Cx.C) :
  Field.mul_entries g (Field.mul_entries f l)
  = Field.mul_entries (fun q => Cx.mul (f q) (g q)) l.
Proof. unfold Field.mul_entries. apply mul_entries_from_twice. Qed.

Lemma mul_entries_ext (f g : nat -> Cx.C) (l : list Cx.C) :
  (forall q, f q = g q) -> Field.mul_entries f l = Field.mul_entries g l.
Proof.
  intros E. unfold Field.mul_entries. apply map_ext. intros [q v].
  cbn [fst snd]. rewrite E. reflexivity.
Qed.

(** X14 - Two modulation elements in the plane of a field, whose profiles
    both have the planar shape of its data, act in either order with the
    same result: [forward] of the first and then of the second returns the
    field that the opposite order returns.  It has the geometry and the
    shape of the input; for a Field or PolarizedField its data is the
    input data multiplied, cell by cell, by both profiles. *)
Theorem ModulationElement_forward_commute
    (e1 e2 : ModulationElement) (f : Field.t) :
  PlanarGeometry.is_same_geometry (me_geometry e1) (Field.geometry f) = true ->
  PlanarGeometry.is_same_geometry (me_geometry e2) (Field.geometry f) = true ->
  Tensor.trailing 2 (Tensor.shape (Field.data f))
  = Tensor.shape (modulation_profile e1) ->
  Tensor.trailing 2 (Tensor.shape (Field.data f))
  = Tensor.shape (modulation_profile e2) ->
  exists f',
    (f1 <- ModulationElement_forward geometry_str e1 (PyField f) ;;
     ModulationElement_forward geometry_str e2 (PyField f1)) = Ok f'
    /\ (f2 <- ModulationElement_forward geometry_str e2 (PyField f) ;;
        ModulationElement_forward geometry_str e1 (PyField f2)) = Ok f'
    /\ Field.geometry f' = Field.geometry f
    /\ Tensor.shape (Field.data f') = Tensor.shape (Field.data f)
    /\ (Field.klass f <> Field.CoherenceField ->
        forall q, (q < length (Tensor.data (Field.data f)))%nat ->
          let n := Tensor.numel (Tensor.shape (modulation_profile e1)) in
          nth q (Tensor.data (Field.data f')) Cx.zero
          = Cx.mul
              (Cx.mul (nth q (Tensor.data (Field.data f)) Cx.zero)
                 (nth (q mod n) (Tensor.data (modulation_profile e1))
                      Cx.zero))
              (nth (q mod n) (Tensor.data (modulation_profile e2))
                   Cx.zero)).
Proof.
  intros S1 S2 E1 E2.
  assert (Hfw : forall e g,
            PlanarGeometry.is_same_geometry (me_geometry e) (Field.geometry g)
            = true ->
            ModulationElement_forward geometry_str e (PyField g)
            = Field.modulate g (modulation_profile e)).
  { intros e g Sg. unfold ModulationElement_forward.
    rewrite validate_same_geometry by exact Sg. reflexivity. }
  rewrite (Hfw e1 f S1), (Hfw e2 f S2).
  unfold Field.modulate at 1 2.
  destruct (list_eq_dec Nat.eq_dec
              (Tensor.trailing 2 (Tensor.shape (Field.data f)))
              (Tensor.shape (modulation_profile e1))) as [_|N];
    [|contradiction].
  destruct (list_eq_dec Nat.eq_dec
              (Tensor.trailing 2 (Tensor.shape (Field.data f)))
              (Tensor.shape (modulation_profile e2))) as [_|N];
    [|contradiction].
  cbn [bind]. rewrite (Hfw e2) by exact S2. rewrite (Hfw e1) by exact S1.
  unfold Field.modulate, Field.with_data.
  cbn [Field.klass Field.data Field.geometry Field.wavelength
       Tensor.shape Tensor.data].
  destruct (list_eq_dec Nat.eq_dec
              (Tensor.trailing 2 (Tensor.shape (Field.data f)))
              (Tensor.shape (modulation_profile e1))) as [_|N];
    [|contradiction].
  destruct (list_eq_dec Nat.eq_dec
              (Tensor.trailing 2 (Tensor.shape (Field.data f)))
              (Tensor.shape (modulation_profile e2))) as [_|N];
    [|contradiction].
  eexists. split; [reflexivity|].
  cbn [Field.klass Field.data Field.geometry Tensor.shape Tensor.data].
  split; [|split; [reflexivity|split; [reflexivity|]]].
  - do 3 f_equal.
    rewrite !mul_entries_twice. apply mul_entries_ext. intros q.
    rewrite <- E1, <- E2. apply CxFacts.mul_comm.
  - intros Hk q Hq. cbv zeta.
    rewrite nth_modulated by (rewrite length_modulated; exact Hq).
    rewrite nth_modulated by exact Hq.
    rewrite <- E1, <- E2.
    destruct (Field.klass f); [reflexivity|reflexivity|congruence].
Qed.

End ModulationFacts.

(** X14 (witness) - the theorem at the field [[1, i]] and two different
    elements, with the profiles [[1, i]] and [[i, 2]]: either order returns
    the field [[i, -2]]. *)
Lemma ModulationElement_forward_commute_witness :
  let e1 := {| Elements.me_geometry := unit_geometry_1x2;
               Elements.modulation_profile := Field.data field_1_i |} in
  let e2 := {| Elements.me_geometry := unit_geometry_1x2;
               Elements.modulation_profile := profile_i_2 |} in
  exists f',
    (f1 <- Elements.ModulationElement_forward no_geometry_str e1
             (PyField field_1_i) ;;
     Elements.ModulationElement_forward no_geometry_str e2 (PyField f1))
    = Ok f'
    /\ (f2 <- Elements.ModulationElement_forward no_geometry_str e2
                (PyField field_1_i) ;;
        Elements.ModulationElement_forward no_geometry_str e1 (PyField f2))
       = Ok f'
    /\ Field.geometry f' = unit_geometry_1x2
    /\ Tensor.shape (Field.data f') = [1%nat; 2%nat]
    /\ nth 0 (Tensor.data (Field.data f')) Cx.zero = (0, 1)
    /\ nth 1 (Tensor.data (Field.data f')) Cx.zero = (- (2), 0).
Proof.
  intros e1 e2.
  destruct (ModulationElement_forward_commute no_geometry_str e1 e2 field_1_i)
    as (f' & H1 & H2 & Hg & Hs & Hv).
  - apply is_same_geometry_refl.
  - apply is_same_geometry_refl.
  - reflexivity.
  - reflexivity.
  - exists f'. split; [exact H1|]. split; [exact H2|].
    split; [exact Hg|]. split; [exact Hs|].
    assert (Hk : Field.klass field_1_i <> Field.CoherenceField)
      by discriminate.
    split.
    + rewrite (Hv Hk 0%nat) by (simpl; lia).
      unfold Cx.mul. simpl. f_equal; ring.
    + rewrite (Hv Hk 1%nat) by (simpl; lia).
      unfold Cx.mul. simpl. f_equal; ring.
Defined.

Section PhaseMask.

Import Elements.

Variable geometry_str : PlanarGeometry.t -> string.

Lemma norm2_mul_entries (factor : nat -> Cx.C) (l : list Cx.C) :
  (forall q, (q < length l)%nat -> Cx.norm2 (factor q) = 1) ->
  List.map Cx.norm2 (Field.mul_entries factor l) = List.map Cx.norm2 l.
Proof.
  intros Hone.
  apply nth_ext with (d := 0) (d' := 0).
  - rewrite !length_map. apply length_modulated.
  - intros q Hq. rewrite length_map, length_modulated in Hq.
    rewrite nth_map_lt with (d := Cx.zero)
      by (rewrite length_modulated; exact Hq).
    rewrite nth_map_lt with (d := Cx.zero) by exact Hq.
    rewrite nth_modulated by exact Hq.
    rewrite CxFacts.norm2_mul, Hone by exact Hq. ring.
Qed.

(** X15 - A phase mask is invisible to the intensity detectors behind it:
    when every entry of the modulation profile has modulus 1,
    [ModulationElement.forward] returns a field for which [Detector.forward]
    and [IntensityDetector.forward] give what they give for the field
    before the mask, be it values or an error. *)
Theorem phase_mask_invisible_to_detectors
    (e : ModulationElement) (det : Detector) (idet : IntensityDetector)
    (f : Field.t) (batch : list nat) :
  Field.is_scalar batch f ->
  PlanarGeometry.is_same_geometry (me_geometry e) (Field.geometry f) = true ->
  Tensor.shape (modulation_profile e)
  = [fst (PlanarGeometry.shape (Field.geometry f));
     snd (PlanarGeometry.shape (Field.geometry f))] ->
  Tensor.well_formed (modulation_profile e) ->
  Forall (fun v => Cx.norm2 v = 1) (Tensor.data (modulation_profile e)) ->
  exists f',
    ModulationElement_forward geometry_str e (PyField f) = Ok f'
    /\ Detector_forward geometry_str det (PyField f')
       = Detector_forward geometry_str det (PyField f)
    /\ IntensityDetector_forward geometry_str idet (PyField f')
       = IntensityDetector_forward geometry_str idet (PyField f).
Proof.
  intros [Hk [Hs Hwf]] Hsame Hp Wp Hone.
  unfold ModulationElement_forward.
  rewrite validate_same_geometry by exact Hsame.
  cbn [bind as_field]. unfold Field.modulate.
  rewrite Hs, trailing_app by reflexivity.
  destruct (list_eq_dec Nat.eq_dec _ _) as [_|N]; [|symmetry in Hp; contradiction].
  eexists; split; [reflexivity|].
  set (f' := Field.with_data f _).
  assert (Hg : Field.geometry f' = Field.geometry f) by reflexivity.
  assert (Hint : Field.intensity f' = Field.intensity f).
  { unfold f', Field.intensity, Field.with_data.
    cbn [Field.klass Field.data Tensor.shape Tensor.data].
    rewrite Hk. unfold Tensor.map. cbn [Tensor.shape Tensor.data].
    f_equal. apply norm2_mul_entries.
    intros q Hq.
    pose proof (well_formed_planes _ _ _ _ Hs Hwf) as Lf.
    unfold Tensor.well_formed in Wp. rewrite Hp in Wp.
    rewrite Hp. rewrite numel_2 in *.
    rewrite Forall_forall in Hone. apply Hone. apply nth_In.
    rewrite Wp. apply Nat.mod_upper_bound.
    intros E0. rewrite E0 in Lf. lia. }
  split.
  - unfold Detector_forward, validate_field_geometry. rewrite Hg.
    destruct (negb _); cbn [bind as_field]; [reflexivity|].
    rewrite Hint. reflexivity.
  - unfold IntensityDetector_forward, validate_field_geometry. rewrite Hg.
    destruct (negb _); cbn [bind as_field]; [reflexivity|].
    rewrite Hint. reflexivity.
Qed.

End PhaseMask.

(** X15 (witness) - the phase mask [[1, i]] in front of the field
    [[1, i]], a [Detector] on the 1 x 2 grid and the intensity detector
    with weight [[2, 3]]. *)
Lemma phase_mask_invisible_to_detectors_witness :
  exists f',
    Elements.ModulationElement_forward no_geometry_str
      {| Elements.me_geometry := unit_geometry_1x2;
         Elements.modulation_profile := Field.data field_1_i |}
      (PyField field_1_i) = Ok f'
    /\ Elements.Detector_forward no_geometry_str
         {| Elements.det_geometry := unit_geometry_1x2 |} (PyField f')
       = Elements.Detector_forward no_geometry_str
           {| Elements.det_geometry := unit_geometry_1x2 |}
           (PyField field_1_i)
    /\ Elements.IntensityDetector_forward no_geometry_str
         {| Elements.id_geometry := unit_geometry_1x2;
            Elements.id_weight := weight_2_3 |} (PyField f')
       = Elements.IntensityDetector_forward no_geometry_str
           {| Elements.id_geometry := unit_geometry_1x2;
              Elements.id_weight := weight_2_3 |} (PyField field_1_i).
Proof.
  apply (phase_mask_invisible_to_detectors no_geometry_str
           {| Elements.me_geometry := unit_geometry_1x2;
              Elements.modulation_profile := Field.data field_1_i |}
           {| Elements.det_geometry := unit_geometry_1x2 |}
           {| Elements.id_geometry := unit_geometry_1x2;
              Elements.id_weight := weight_2_3 |}
           field_1_i []).
  - exact field_1_i_scalar.
  - apply is_same_geometry_refl.
  - reflexivity.
  - reflexivity.
  - repeat constructor; unfold Cx.norm2; simpl; ring.
Defined.

(* ===================================================================== *)
(** ** The summed weight that [visualize] shows *)
(* ===================================================================== *)

Section VisualizeFacts.

Import Elements.

Variable geometry_str : PlanarGeometry.t -> string.
Variable Figure Kwargs : Type.
Variable _visualize :
  PlanarGeometry.t -> Tensor.t R -> list Z -> Kwargs -> result Figure.

(** X16 - [IntensityDetector.visualize] with [sum_weight=True] draws the
    map [m] of shape (H, W) whose entry at a cell is the sum of the weights
    of all channels at that cell, and without it draws the weight itself;
    [m] is the weight of the total response of the detector: for every
    plane of a scalar field of matching geometry, the outputs of [forward]
    summed over the channels equal the sum over the cells of
    [m * intensity], times the cell area. *)
Theorem IntensityDetector_summed_weight
    (w : Tensor.t R) (C H W : nat) (z : R) (spacing offset : R * R)
    (det : IntensityDetector) (f : Field.t) (batch : list nat) :
  Tensor.shape w = [C; H; W] ->
  Tensor.well_formed w ->
  IntensityDetector_init (PyTensor (RealTensor w)) z spacing offset = Ok det ->
  Field.is_scalar batch f ->
  PlanarGeometry.is_same_geometry (id_geometry det) (Field.geometry f) = true ->
  exists m out,
    (forall index kwargs,
       IntensityDetector_visualize Figure Kwargs _visualize det index true kwargs
       = _visualize (id_geometry det) m index kwargs
       /\ IntensityDetector_visualize Figure Kwargs _visualize det index false
            kwargs
          = _visualize (id_geometry det) w index kwargs)
    /\ Tensor.shape m = [H; W]
    /\ (forall i j, (i < H)%nat -> (j < W)%nat ->
          Tensor.get2 0 m i j
          = big 0 Rplus C (fun c => Tensor.get3 0 w c i j))
    /\ IntensityDetector_forward geometry_str det (PyField f) = Ok out
    /\ forall b, (b < Tensor.numel batch)%nat ->
         big 0 Rplus C (fun c => nth (b * C + c) (Tensor.data out) 0)
         = big 0 Rplus H (fun i => big 0 Rplus W (fun j =>
             Tensor.get2 0 m i j
             * Tensor.get_plane 0 (Field.intensity f) b i j))
           * PlanarGeometry.cell_area (id_geometry det).
Proof.
  intros Hw Wf Hi Hf Hsame.
  destruct (IntensityDetector_init_Ok _ _ _ _ _ Hi)
    as (x & C' & H' & W' & Hx & Hs & Hdw & Hg & _).
  assert (x = RealTensor w) by (destruct Hx; congruence). subst x.
  cbn [tt_shape double] in Hs, Hdw. rewrite Hw in Hs.
  injection Hs as <- <- <-.
  destruct (IntensityDetector_forward_flat geometry_str det f batch C H W)
    as (out & Hout & Hsh & Hlen & Hent); try assumption.
  { rewrite Hdw. exact Hw. }
  { rewrite Hdw. exact Wf. }
  { rewrite Hg. reflexivity. }
  assert (Hm : sum_dim0 w
               = Tensor.make [H; W]
                   (List.map
                      (fun q => big 0 Rplus C
                         (fun c => nth (c * (H * W) + q) (Tensor.data w) 0))
                      (seq 0 (H * W)))).
  { unfold sum_dim0. rewrite Hw, numel_2. reflexivity. }
  assert (Hmq : forall i j, (i < H)%nat -> (j < W)%nat ->
            Tensor.get2 0 (sum_dim0 w) i j
            = big 0 Rplus C (fun c => Tensor.get3 0 w c i j)).
  { intros i j Hi' Hj. rewrite Hm. unfold Tensor.get2, Tensor.get3.
    cbn [Tensor.shape Tensor.data]. rewrite Hw.
    rewrite nth_map_seq by nia.
    apply big_ext. intros c _. f_equal. lia. }
  exists (sum_dim0 w), out.
  split.
  { intros index kwargs. unfold IntensityDetector_visualize.
    rewrite Hdw. split; reflexivity. }
  split; [rewrite Hm; reflexivity|].
  split; [exact Hmq|].
  split; [exact Hout|].
  intros b Hb.
  pose proof (is_same_geometry_shape _ _ Hsame) as Hshape.
  rewrite Hg in Hshape. cbn [PlanarGeometry.shape] in Hshape.
  destruct Hf as [Hk [Hsf Hwf]].
  rewrite <- Hshape in Hsf. cbn [fst snd] in Hsf.
  pose proof (well_formed_planes _ _ _ _ Hsf Hwf) as Lf.
  assert (Hint : Field.intensity f = Tensor.map Cx.norm2 (Field.data f)).
  { unfold Field.intensity. rewrite Hk. reflexivity. }
  rewrite big_ext
    with (g := fun c => big 0 Rplus (H * W)
                (fun q => Cx.norm2 (nth (b * (H * W) + q)
                                        (Tensor.data (Field.data f)) Cx.zero)
                          * nth (c * (H * W) + q) (Tensor.data w) 0
                          * PlanarGeometry.cell_area (id_geometry det))).
  2:{ intros c Hc. rewrite Hent by assumption.
      rewrite Rbig_mul_r, Hdw. reflexivity. }
  rewrite Rbig_exchange.
  assert (Hflat :
    big 0 Rplus H (fun i => big 0 Rplus W (fun j =>
      Tensor.get2 0 (sum_dim0 w) i j
      * Tensor.get_plane 0 (Field.intensity f) b i j))
    = big 0 Rplus (H * W)
        (fun q => nth q (Tensor.data (sum_dim0 w)) 0
                  * Cx.norm2 (nth (b * (H * W) + q)
                                  (Tensor.data (Field.data f)) Cx.zero))).
  { rewrite big_flatten; [|intros; ring|intros; ring].
    apply big_ext; intros i Hi'. apply big_ext; intros j Hj.
    assert (Eq : ((b * H + i) * W + j = b * (H * W) + (i * W + j))%nat)
      by lia.
    assert (Hq : (i * W + j < H * W)%nat) by nia.
    assert (Hbq : (b * (H * W) + (i * W + j)
                   < Tensor.numel batch * (H * W))%nat) by nia.
    unfold Tensor.get2, Tensor.get_plane. rewrite Hm at 1.
    rewrite Hint. cbn [Tensor.map Tensor.shape Tensor.data]. rewrite Hsf.
    rewrite trailing_app by reflexivity. rewrite Eq.
    rewrite nth_map_lt with (d := Cx.zero) (l := Tensor.data (Field.data f))
      by (rewrite Lf; exact Hbq).
    rewrite Hm. reflexivity. }
  rewrite Hflat, Rbig_mul_r.
  apply big_ext. intros q Hq.
  rewrite Hm. cbn [Tensor.data]. rewrite nth_map_seq by exact Hq.
  rewrite !Rbig_mul_r.
  apply big_ext. intros c Hc. ring.
Qed.

End VisualizeFacts.

(** X16 (witness) - the theorem at the two-channel weight that gives the
    left cell of a 1 x 2 grid to channel 0 and the right cell to channel 1,
    and the field [[1, i]]. *)
Lemma IntensityDetector_summed_weight_witness :
  let det := {| Elements.id_geometry := unit_geometry_1x2;
                Elements.id_weight := weight_halves |} in
  exists m out,
    (forall index kwargs,
       Elements.IntensityDetector_visualize (Tensor.t R) unit show_data det
         index true kwargs
       = show_data unit_geometry_1x2 m index kwargs
       /\ Elements.IntensityDetector_visualize (Tensor.t R) unit show_data det
            index false kwargs
          = show_data unit_geometry_1x2 weight_halves index kwargs)
    /\ Tensor.shape m = [1%nat; 2%nat]
    /\ (forall i j, (i < 1)%nat -> (j < 2)%nat ->
          Tensor.get2 0 m i j
          = big 0 Rplus 2 (fun c => Tensor.get3 0 weight_halves c i j))
    /\ Elements.IntensityDetector_forward no_geometry_str det
         (PyField field_1_i) = Ok out
    /\ forall b, (b < 1)%nat ->
         big 0 Rplus 2 (fun c => nth (b * 2 + c) (Tensor.data out) 0)
         = big 0 Rplus 1 (fun i => big 0 Rplus 2 (fun j =>
             Tensor.get2 0 m i j
             * Tensor.get_plane 0 (Field.intensity field_1_i) b i j))
           * PlanarGeometry.cell_area unit_geometry_1x2.
Proof.
  intros det.
  apply (IntensityDetector_summed_weight no_geometry_str
           (Tensor.t R) unit show_data
           weight_halves 2 1 2 0 (1, 1) (0, 0) det field_1_i []).
  - reflexivity.
  - reflexivity.
  - exact IntensityDetector_init_weight_halves.
  - exact field_1_i_scalar.
  - apply is_same_geometry_refl.
Defined.

(* ===================================================================== *)
(** ** [FieldDetector.forward] on the other classes of field *)
(* ===================================================================== *)

Section FieldDetectorClasses.

Import Elements.

Variable geometry_str : PlanarGeometry.t -> string.

(** X17 - [FieldDetector.forward] does not look at the class of the field:
    every axis of the data in front of the two planar ones, the
    polarization axis of a PolarizedField included, is a batch axis.  For
    data of shape [batch ++ [H, W]] the output has shape [batch ++ [C]],
    one value for every plane of the data and every channel: the squared
    magnitude of the overlap of that plane with the channel.  The three
    components of a polarized field are never added up. *)
Theorem FieldDetector_forward_any_class
    (w : Tensor.t Cx.C) (C H W : nat) (z : R) (spacing offset : R * R)
    (det : FieldDetector) (f : Field.t) (batch : list nat) :
  Tensor.shape w = [C; H; W] ->
  Tensor.well_formed w ->
  FieldDetector_init (PyTensor (ComplexTensor w)) z spacing offset = Ok det ->
  Tensor.shape (Field.data f)
  = batch ++ [fst (PlanarGeometry.shape (Field.geometry f));
              snd (PlanarGeometry.shape (Field.geometry f))] ->
  Tensor.well_formed (Field.data f) ->
  PlanarGeometry.is_same_geometry (fd_geometry det) (Field.geometry f) = true ->
  exists out,
    FieldDetector_forward geometry_str det (PyField f) = Ok out
    /\ Tensor.shape out = batch ++ [C]
    /\ length (Tensor.data out) = (Tensor.numel batch * C)%nat
    /\ forall b c, (b < Tensor.numel batch)%nat -> (c < C)%nat ->
         nth (b * C + c) (Tensor.data out) 0
         = Rsqr (Cx.abs (overlap w (Field.data f)
                           (PlanarGeometry.cell_area (fd_geometry det))
                           H W b c)).
Proof.
  intros Hw Wf Hi Hsf Hwf Hsame.
  destruct (FieldDetector_init_Ok _ _ _ _ _ Hi)
    as (x & C' & H' & W' & Hx & Hs & Hfw & Hg & _).
  assert (x = ComplexTensor w) by (destruct Hx; congruence). subst x.
  cbn [tt_shape cdouble] in Hs, Hfw. rewrite Hw in Hs.
  injection Hs as <- <- <-.
  destruct (FieldDetector_forward_flat_data geometry_str det f batch C H W)
    as (out & Hout & Hsh & Hlen & Hent); try assumption.
  { rewrite Hfw. exact Hw. }
  { rewrite Hfw. exact Wf. }
  { rewrite Hg. reflexivity. }
  exists out. split; [exact Hout|]. split; [exact Hsh|].
  split; [exact Hlen|].
  intros b c Hb Hc. rewrite Hent by assumption.
  rewrite CxFacts.abs_square. f_equal.
  pose proof (is_same_geometry_shape _ _ Hsame) as Hshape.
  rewrite Hg in Hshape. cbn [PlanarGeometry.shape] in Hshape.
  rewrite <- Hshape in Hsf. cbn [fst snd] in Hsf.
  rewrite Cx_scale_big.
  rewrite big_flatten; [|exact CxFacts.add_assoc|exact CxFacts.add_zero_l].
  unfold overlap.
  apply big_ext; intros i _. apply big_ext; intros j _.
  unfold Tensor.get3, Tensor.get_plane. rewrite Hfw, Hw, Hsf.
  rewrite trailing_app by reflexivity.
  rewrite CxFacts.mul_comm. do 3 f_equal; lia.
Qed.

End FieldDetectorClasses.

(** X17 (witness) - the one-channel detector with weight [[i, 1]] and a
    polarized field on the 1 x 2 grid: one value for each of the three
    components. *)
Lemma FieldDetector_forward_any_class_witness :
  exists out,
    Elements.FieldDetector_forward no_geometry_str
      {| Elements.fd_geometry := unit_geometry_1x2;
         Elements.fd_weight := weight_i_1 |} (PyField polarized_field_1x2)
    = Ok out
    /\ Tensor.shape out = [3%nat; 1%nat]
    /\ length (Tensor.data out) = 3%nat
    /\ forall b c, (b < 3)%nat -> (c < 1)%nat ->
         nth (b * 1 + c) (Tensor.data out) 0
         = Rsqr (Cx.abs (overlap weight_i_1 (Field.data polarized_field_1x2)
                           (PlanarGeometry.cell_area unit_geometry_1x2)
                           1 2 b c)).
Proof.
  apply (FieldDetector_forward_any_class no_geometry_str
           weight_i_1 1 1 2 0 (1, 1) (0, 0)
           {| Elements.fd_geometry := unit_geometry_1x2;
              Elements.fd_weight := weight_i_1 |}
           polarized_field_1x2 [3%nat]).
  - reflexivity.
  - reflexivity.
  - exact FieldDetector_init_weight_i_1.
  - reflexivity.
  - reflexivity.
  - apply is_same_geometry_refl.
Defined.
